(** * EXODUS: scanner and forge, shallow embedding

    Embedding of the parts of
      - [01_EYE_INQUISITION/EXO_01_DNA_SCANNER.py] (class [EXODNAScanner]) and
      - [03_LEGION_FORGE/EXO_03_BLENDER_WORKER.py] (class [EXOForge])
    that decide the properties stated at the end of this file, with the
    documents that link the segments:
      - [01_EYE_INQUISITION/EXO_01_VALIDATOR.py], the checks of the dataset,
      - [02_ALPHARIUS_CORTEX/EXO_02_CORTEX_ADAPTER.py], the compilation of
        the mission from the dataset.

    Conventions.
      - Python [float] values are modelled as exact rationals [Q]; literals such
        as [0.1] are the rationals [1#10].  Equality of computed numbers is
        therefore stated with [==] where the code performs arithmetic.
        Where a float result decides something discrete (the frame number
        that [int] truncates a product to, the nearer of two anchors, an
        overflow), the operation is rounded to binary64 ([Py.round_binary64]).
      - Python [dict]s whose iteration order is observable are association
        lists in insertion order.
      - Methods that mutate [self] or the Blender scene thread an explicit
        state; exceptions are values of [exn].
      - A JSON document is a value of [Doc.JSON], the floats NaN and
        infinity included; the Python operations on it ([get], [in],
        indexing, truth value) raise as Python does on a value of the wrong
        kind. *)

From Stdlib Require Import ZArith QArith Qabs Qround List String Ascii Bool.
From Stdlib Require Import Lia Lra Permutation Sorted DecimalString DecimalNat.
From Stdlib Require Import Reals Machin Qreals.
Import ListNotations.

Local Open Scope Q_scope.

(** ** Python values *)

Module Py.

(** The comparison [a < b] of two floats, as a boolean. *)
Definition ltb (a b : Q) : bool :=
  (Qnum a * QDen b <? Qnum b * QDen a)%Z.

(** Python's [min(a, b)] on two arguments: the first one unless the second is
    strictly smaller. *)
Definition py_min (a b : Q) : Q := if ltb b a then b else a.

(** Python's [int(x)] on a float: truncation toward zero. *)
Definition py_int (x : Q) : Z := Z.quot (Qnum x) (QDen x).

(** *** Float arithmetic

    A Python [float] is an IEEE 754 binary64 number.  The finite ones are
    rationals; an operation on them gives the float nearest to the exact
    result, the even one of two equally near, and infinity beyond the
    largest float. *)

(** [n / d] rounded to an integer, half to even; [0 <= n], [0 < d]. *)
Definition round_half_even (n d : Z) : Z :=
  let m := (n / d)%Z in
  let r := (n mod d)%Z in
  if (2 * r <? d)%Z then m
  else if (d <? 2 * r)%Z then (m + 1)%Z
  else if Z.even m then m else (m + 1)%Z.

(** The exponent [e] of the unit in the last place of [n / d], for positive
    [n] and [d]: [2^52 <= (n / d) / 2^e < 2^53], and [-1074], the exponent of
    the subnormal numbers, when that would be smaller. *)
Definition binary64_exponent (n d : Z) : Z :=
  let l := (Z.log2 n - Z.log2 d)%Z in
  let at_least :=
    if (0 <=? l)%Z then (d * 2 ^ l <=? n)%Z else (d <=? n * 2 ^ (- l))%Z in
  let floor_log2 := if at_least then l else (l - 1)%Z in
  Z.max (floor_log2 - 52) (-1074).

(** The float nearest to [n / d], for positive [n] and [d]; [None] stands
    for infinity. *)
Definition round_positive (n d : Z) : option Q :=
  let e := binary64_exponent n d in
  if (0 <=? e)%Z then
    let m := round_half_even n (d * 2 ^ e) in
    if (2 ^ 1024 <=? m * 2 ^ e)%Z then None
    else Some (inject_Z (m * 2 ^ e))
  else
    let m := round_half_even (n * 2 ^ (- e)) d in
    Some (Qmake m (Z.to_pos (2 ^ (- e)))).

(** The float nearest to a rational; [None] stands for an infinity. *)
Definition round_binary64 (q : Q) : option Q :=
  match Qnum q with
  | Z0 => Some 0
  | Zpos n => round_positive (Zpos n) (QDen q)
  | Zneg n => option_map Qopp (round_positive (Zpos n) (QDen q))
  end.

(** [a * b] and [a - b] on floats. *)
Definition float_mul (a b : Q) : option Q := round_binary64 (a * b).
Definition float_sub (a b : Q) : option Q := round_binary64 (a - b).

(** The float that a decimal literal such as [4.1] denotes; 0 stands in for
    a literal beyond the floats. *)
Definition float_of_decimal (q : Q) : Q :=
  match round_binary64 q with
  | Some x => x
  | None => 0
  end.

(** Python's [range(a, b)]. *)
Definition py_range (a b : Z) : list Z :=
  map (fun i => (a + Z.of_nat i)%Z) (seq 0 (Z.to_nat (b - a))).

(** Python's [str(n)] on a non-negative [int]. *)
Definition str (n : nat) : string := NilEmpty.string_of_uint (Nat.to_uint n).

(** Python dicts with string keys, in insertion order *)

Definition dict (V : Type) : Type := list (string * V).

Fixpoint dict_get {V} (d : dict V) (k : string) : option V :=
  match d with
  | [] => None
  | (k', v) :: rest => if String.eqb k k' then Some v else dict_get rest k
  end.

(** [d[k] = v]: replaces the value of an existing key in place, appends a new
    key at the end. *)
Fixpoint dict_set {V} (d : dict V) (k : string) (v : V) : dict V :=
  match d with
  | [] => [(k, v)]
  | (k', v') :: rest =>
      if String.eqb k k' then (k', v) :: rest else (k', v') :: dict_set rest k v
  end.

End Py.

(** ** EXO_01_DNA_SCANNER.py *)

Module Scanner.

Import Py.

(** A MediaPipe landmark; [visibility] is only meaningful for pose landmarks. *)
Record Landmark := mkLandmark {
  lm_x : Q;
  lm_y : Q;
  lm_z : Q;
  lm_visibility : Q
}.

(** [np.array([x, y, z])] *)
Definition Vec3 : Type := (Q * Q * Q)%type.
Definition v_x (v : Vec3) : Q := fst (fst v).
Definition v_y (v : Vec3) : Q := snd (fst v).
Definition v_z (v : Vec3) : Q := snd v.

Definition UPPER_LIP_CENTER_ID : nat := 13.
Definition LOWER_LIP_CENTER_ID : nat := 14.

(** [calculate_mouth_open_ratio(self, upper_lip, lower_lip)].  The attribute
    [self.max_mouth_distance] is threaded: the function takes its value before
    the call and returns the ratio with its value after the call. *)
Definition calculate_mouth_open_ratio
    (upper_lip lower_lip : option Vec3) (max_mouth_distance : Q) : Q * Q :=
  match upper_lip, lower_lip with
  | Some u, Some l =>
      let vertical_distance := Qabs (v_y u - v_y l) in
      let max_mouth_distance :=
        if ltb max_mouth_distance vertical_distance
        then vertical_distance else max_mouth_distance in
      let ratio :=
        if ltb 0 max_mouth_distance
        then py_min (vertical_distance / max_mouth_distance) 1
        else 0 in
      (ratio, max_mouth_distance)
  | _, _ => (0, max_mouth_distance)
  end.

(** Successive calls on a sequence of lip inputs: the list of pairs
    (returned ratio, maximum after the call), in call order. *)
Fixpoint mouth_calls (inputs : list (option Vec3 * option Vec3)) (m : Q)
  : list (Q * Q) :=
  match inputs with
  | [] => []
  | (u, l) :: rest =>
      let r := calculate_mouth_open_ratio u l m in
      r :: mouth_calls rest (snd r)
  end.

(** The dict [{"x", "y", "z", "visibility", "landmark_id"}] written to the
    dataset for each landmark. *)
Record LandmarkDict := mkLandmarkDict {
  ld_x : Q;
  ld_y : Q;
  ld_z : Q;
  ld_visibility : Q;
  ld_landmark_id : nat
}.

(** [enumerate(landmarks)] turned into dataset dicts, counting from [idx]. *)
Fixpoint enumerate_landmarks (idx : nat) (landmarks : list Landmark)
  : list LandmarkDict :=
  match landmarks with
  | [] => []
  | landmark :: rest =>
      mkLandmarkDict (lm_x landmark) (lm_y landmark) (lm_z landmark)
                     (lm_visibility landmark) idx
      :: enumerate_landmarks (S idx) rest
  end.

(** [extract_pose_landmarks(self, pose_landmarks)]: the value stored under
    ["all_33_landmarks"]. *)
Definition extract_pose_landmarks (pose_landmarks : list Landmark)
  : list LandmarkDict :=
  match pose_landmarks with
  | [] => []
  | _ => enumerate_landmarks 0 pose_landmarks
  end.

(** The dict returned by [extract_face_landmarks]. *)
Record FaceData := mkFaceData {
  upper_lip_center : option Vec3;
  lower_lip_center : option Vec3;
  mouth_open_ratio : Q;
  all_468_landmarks : list LandmarkDict
}.

Definition landmark_array (l : Landmark) : Vec3 := (lm_x l, lm_y l, lm_z l).

(** [extract_face_landmarks(self, face_landmarks)] on the [landmark] list of a
    FaceMesh detection; threads [self.max_mouth_distance] through the call of
    [calculate_mouth_open_ratio]. *)
Definition extract_face_landmarks
    (face_landmarks : list Landmark) (max_mouth_distance : Q) : FaceData * Q :=
  let all_landmarks := enumerate_landmarks 0 face_landmarks in
  let upper_lip :=
    if (UPPER_LIP_CENTER_ID <? List.length face_landmarks)%nat
    then option_map landmark_array (nth_error face_landmarks UPPER_LIP_CENTER_ID)
    else None in
  let lower_lip :=
    if (LOWER_LIP_CENTER_ID <? List.length face_landmarks)%nat
    then option_map landmark_array (nth_error face_landmarks LOWER_LIP_CENTER_ID)
    else None in
  let r := calculate_mouth_open_ratio upper_lip lower_lip max_mouth_distance in
  (mkFaceData upper_lip lower_lip (fst r) all_landmarks, snd r).

(** A pose frame of the dataset. *)
Record PoseFrame := mkPoseFrame {
  pf_frame_number : Z;
  pf_timestamp : string;
  pf_landmarks : list LandmarkDict;
  pf_center_x : Q
}.

(** A mouth frame of the dataset. *)
Record MouthFrame := mkMouthFrame {
  mf_frame_number : Z;
  mf_timestamp : string;
  mf_mouth_open_ratio : Q
}.

Record ActorData := mkActorData {
  pose_frames : list PoseFrame;
  mouth_frames : list MouthFrame
}.

(** The dict returned by [calculate_optical_flow] (computed by OpenCV, taken
    here as an input of the frame). *)
Record OpticalFlow := mkOpticalFlow {
  of_magnitude : Q;
  of_angle : Q;
  of_flow_vectors : list (Q * Q)
}.

Record CameraSample := mkCameraSample {
  cs_frame_number : Z;
  cs_timestamp : string;
  cs_optical_flow : OpticalFlow
}.

(** *** The frame loop of [process_video] *)

(** The attributes of [self] that the frame loop reads and writes, with the
    local counter [frame_count]. *)
Record State := mkState {
  max_mouth_distance : Q;
  actors_data : dict ActorData;
  camera_motion : list CameraSample;
  max_actors_detected : nat;
  frame_count : Z
}.

(** What the external collaborators deliver for one decoded frame. *)
Record FrameInput := mkFrameInput {
  fi_timestamp_iso : string;
  fi_pose_landmarks_list : list (list Landmark);
  fi_faces : list (list Landmark);
  fi_optical_flow_data : OpticalFlow
}.

(** Lines 449-455: one candidate [(center_x, pose_lmk)] per non-empty pose,
    anchored at the nose (landmark 0). *)
Fixpoint pose_candidates (pose_landmarks_list : list (list Landmark))
  : list (Q * list Landmark) :=
  match pose_landmarks_list with
  | [] => []
  | pose_lmk :: rest =>
      match pose_lmk with
      | [] => pose_candidates rest
      | nose :: _ => (lm_x nose, pose_lmk) :: pose_candidates rest
      end
  end.

(** [list.sort(key=lambda item: item[0])]: a stable sort that compares keys
    with [<] only.  [insert_by_key] puts an item before the first item whose
    key is not smaller than its own. *)
Fixpoint insert_by_key {A} (item : Q * A) (l : list (Q * A)) : list (Q * A) :=
  match l with
  | [] => [item]
  | y :: rest =>
      if ltb (fst y) (fst item) then y :: insert_by_key item rest
      else item :: y :: rest
  end.

Fixpoint sort_by_key {A} (l : list (Q * A)) : list (Q * A) :=
  match l with
  | [] => []
  | item :: rest => insert_by_key item (sort_by_key rest)
  end.

(** [if actor_id not in self.actors_data: self.actors_data[actor_id] = {...}] *)
Definition ensure_actor (actors : dict ActorData) (actor_id : string)
  : dict ActorData :=
  match dict_get actors actor_id with
  | Some _ => actors
  | None => dict_set actors actor_id (mkActorData [] [])
  end.

Definition append_pose_frame (actors : dict ActorData) (actor_id : string)
    (pf : PoseFrame) : dict ActorData :=
  match dict_get actors actor_id with
  | Some a => dict_set actors actor_id
                (mkActorData (pose_frames a ++ [pf]) (mouth_frames a))
  | None => actors
  end.

Definition append_mouth_frame (actors : dict ActorData) (actor_id : string)
    (mf : MouthFrame) : dict ActorData :=
  match dict_get actors actor_id with
  | Some a => dict_set actors actor_id
                (mkActorData (pose_frames a) (mouth_frames a ++ [mf]))
  | None => actors
  end.

(** Lines 461-480: the loop over [enumerate(pose_candidates)], started at
    index [idx].  Returns the updated [self.actors_data] and
    [frame_actor_pose]. *)
Fixpoint assign_poses (frame_count : Z) (timestamp_iso : string) (idx : nat)
    (candidates : list (Q * list Landmark))
    (actors : dict ActorData) (frame_actor_pose : dict PoseFrame)
  : dict ActorData * dict PoseFrame :=
  match candidates with
  | [] => (actors, frame_actor_pose)
  | (center_x, pose_lmk) :: rest =>
      let actor_id := str idx in
      let actors := ensure_actor actors actor_id in
      let pose_frame :=
        mkPoseFrame frame_count timestamp_iso
                    (extract_pose_landmarks pose_lmk) center_x in
      let actors := append_pose_frame actors actor_id pose_frame in
      assign_poses frame_count timestamp_iso (S idx) rest actors
                   (dict_set frame_actor_pose actor_id pose_frame)
  end.

(** The entries of [face_infos]. *)
Record FaceInfo := mkFaceInfo {
  face_center_x : Q;
  face_mouth_open_ratio : Q
}.

(** Lines 492-503: the anchor of one face, [None] when the [continue] is
    taken. *)
Definition face_anchor (face_data : FaceData) : option Q :=
  match upper_lip_center face_data, lower_lip_center face_data with
  | Some upper, Some lower => Some ((v_x upper + v_x lower) / 2)
  | Some upper, None => Some (v_x upper)
  | None, _ =>
      match all_468_landmarks face_data with
      | first :: _ => Some (ld_x first)
      | [] => None
      end
  end.

(** Lines 489-509: builds [face_infos], threading [self.max_mouth_distance]. *)
Fixpoint collect_face_infos (faces : list (list Landmark)) (max_mouth_distance : Q)
  : list FaceInfo * Q :=
  match faces with
  | [] => ([], max_mouth_distance)
  | face_landmarks :: rest =>
      let '(face_data, m) := extract_face_landmarks face_landmarks max_mouth_distance in
      let '(infos, m') := collect_face_infos rest m in
      match face_anchor face_data with
      | Some center_x =>
          (mkFaceInfo center_x (mouth_open_ratio face_data) :: infos, m')
      | None => (infos, m')
      end
  end.

(** Line 522: [abs(px - fx)], computed on floats; [None] stands for
    infinity. *)
Definition float_distance (px fx : Q) : option Q :=
  option_map Qabs (float_sub px fx).

(** [d < best_dist] on two such distances. *)
Definition distance_ltb (d best_dist : option Q) : bool :=
  match d, best_dist with
  | Some a, Some b => ltb a b
  | Some _, None => true
  | None, _ => false
  end.

(** Lines 519-526: the search loop over [frame_actor_pose.items()], carrying
    [(best_actor, best_dist)]. *)
Fixpoint nearest_loop (fx : Q) (items : dict PoseFrame)
    (best : option (string * option Q)) : option (string * option Q) :=
  match items with
  | [] => best
  | (aid, pose_frame) :: rest =>
      let px := pf_center_x pose_frame in
      let d := float_distance px fx in
      let best :=
        match best with
        | None => Some (aid, d)
        | Some (best_actor, best_dist) =>
            if distance_ltb d best_dist then Some (aid, d)
            else Some (best_actor, best_dist)
        end in
      nearest_loop fx rest best
  end.

(** Lines 513-527: the actor a face is attached to. *)
Definition associate_face (frame_actor_pose : dict PoseFrame) (fx : Q) : string :=
  match frame_actor_pose with
  | [] => "0"%string
  | _ =>
      match nearest_loop fx frame_actor_pose None with
      | Some (best_actor, _) => best_actor
      | None => "0"%string
      end
  end.

(** Lines 512-540: the loop over [face_infos]. *)
Fixpoint assign_faces (frame_count : Z) (timestamp_iso : string)
    (frame_actor_pose : dict PoseFrame) (face_infos : list FaceInfo)
    (actors : dict ActorData) : dict ActorData :=
  match face_infos with
  | [] => actors
  | face_info :: rest =>
      let actor_id := associate_face frame_actor_pose (face_center_x face_info) in
      let actors := ensure_actor actors actor_id in
      let mouth_frame :=
        mkMouthFrame frame_count timestamp_iso (face_mouth_open_ratio face_info) in
      assign_faces frame_count timestamp_iso frame_actor_pose rest
                   (append_mouth_frame actors actor_id mouth_frame)
  end.

(** [frame_actor_pose] of one frame, from the detections alone. *)
Definition frame_ranking (frame_count : Z) (timestamp_iso : string)
    (pose_landmarks_list : list (list Landmark)) (actors : dict ActorData)
  : dict ActorData * dict PoseFrame :=
  assign_poses frame_count timestamp_iso 0
               (sort_by_key (pose_candidates pose_landmarks_list)) actors [].

(** One iteration of the [while cap.isOpened()] loop of [process_video]. *)
Definition process_frame (inp : FrameInput) (s : State) : State :=
  let '(actors, frame_actor_pose) :=
    frame_ranking (frame_count s) (fi_timestamp_iso inp)
                  (fi_pose_landmarks_list inp) (actors_data s) in
  let '(face_infos, m) := collect_face_infos (fi_faces inp) (max_mouth_distance s) in
  let actors :=
    assign_faces (frame_count s) (fi_timestamp_iso inp) frame_actor_pose
                 face_infos actors in
  mkState m actors
          (camera_motion s ++
             [mkCameraSample (frame_count s) (fi_timestamp_iso inp)
                             (fi_optical_flow_data inp)])
          (Nat.max (max_actors_detected s) (List.length frame_actor_pose))
          (frame_count s + 1)%Z.

(** The whole loop, over the frames the decoder delivers. *)
Definition process_frames (frames : list FrameInput) (s : State) : State :=
  fold_left (fun s inp => process_frame inp s) frames s.

(** The state set up by [__init__]. *)
Definition initial_state : State := mkState 0 [] [] 0%nat 0%Z.

End Scanner.

(** ** EXO_03_BLENDER_WORKER.py *)

Module Worker.

Import Py.

(** *** Blender values *)

(** [mathutils.Vector] with three components. *)
Record Vector := mkVector { vx : Q; vy : Q; vz : Q }.

(** [mathutils.Quaternion((w, x, y, z))]. *)
Record Quaternion := mkQuaternion { qw : Q; qx : Q; qy : Q; qz : Q }.

(** The camera object referenced by [self.camera]. *)
Record Camera := mkCamera {
  location : Vector;
  rotation_euler : Vector
}.

(** A bone of [armature.pose.bones]. *)
Record Bone := mkBone {
  bone_name : string;
  bone_head : Vector;
  bone_tail : Vector
}.

Record Armature := mkArmature {
  arm_name : string;
  pose_bones : list Bone
}.

(** An object of [bpy.context.scene.objects]: its [type], its [name] and, when
    [obj.data.shape_keys] is set, the names of its [key_blocks] in order. *)
Record SceneObject := mkSceneObject {
  obj_type : string;
  obj_name : string;
  obj_key_blocks : option (list string)
}.

(** *** The mission document (EXO_MISSION_READY.json) *)

(** A non-empty ["optical_flow"] dict; each key may be absent. *)
Record OpticalFlow := mkOpticalFlow {
  of_magnitude : option Q;
  of_angle : option Q;
  of_flow_vectors : option (list (Q * Q))
}.

(** An entry of the camera list.  [fd_optical_flow] is [None] when the key is
    absent or its dict is empty. *)
Record FrameData := mkFrameData {
  fd_frame_number : option Z;
  fd_optical_flow : option OpticalFlow
}.

(** A landmark dict of a pose frame. *)
Record Landmark := mkLandmark {
  lm_landmark_id : option Z;
  lm_x : Q;
  lm_y : Q;
  lm_z : Q;
  lm_visibility : option Q
}.

Record PoseFrame := mkPoseFrame {
  pf_frame_number : option Z;
  pf_landmarks : option (list Landmark)
}.

Record MouthFrame := mkMouthFrame {
  mf_frame_number : option Z;
  mf_mouth_open_ratio : option Q
}.

Record ActorData := mkActorData {
  ad_pose_frames : option (list PoseFrame);
  ad_mouth_frames : option (list MouthFrame)
}.

(** What a cue holds under ["value"]: a string, another value that can be a
    dict key (a number, a boolean or [null]), or a list or an object, which
    cannot be hashed. *)
Inductive CueValue :=
| Text (s : string)
| OtherHashable
| Unhashable.

(** A Rhubarb mouth cue [{"start", "end", "value"}]; the times are floats. *)
Record Cue := mkCue {
  cue_start : option Q;
  cue_end : option Q;
  cue_value : option CueValue
}.

(** The keys of [self.mission_data] that the three methods read:
    ['camera'], ["actors"] and ['mouth']['mouthCues']; absent keys are
    [None]. *)
Record MissionData := mkMissionData {
  md_camera : option (list FrameData);
  md_actors : option (dict ActorData);
  md_mouthCues : option (list Cue)
}.

(** [d.get(key, default)] on an optional field. *)
Definition get {A} (field : option A) (default : A) : A :=
  match field with
  | Some v => v
  | None => default
  end.

(** *** State, exceptions and emitted keyframes *)

Inductive exn :=
| RuntimeError
| TypeError
| AttributeError
| OverflowError.

(** A [keyframe_insert] call: the animated target and data path, the frame and
    the value the property holds at the call. *)
Inductive Keyframe :=
| CameraLocation (frame : Z) (value : Vector)
| CameraRotationEuler (frame : Z) (value : Vector)
| BoneRotationQuaternion (armature bone : string) (frame : Z) (value : Quaternion)
| ShapeKeyValue (mesh key : string) (frame : Z) (value : Q).

(** The attributes of [self] and the part of [bpy.context] that the methods
    read and write. *)
Record World := mkWorld {
  mission_data : option MissionData;
  camera : option Camera;
  camera_intensity : Q;
  armature : option Armature;
  armatures_by_actor : dict Armature;
  scene_objects : list SceneObject;
  scene_fps : Z;
  scene_frame_current : Z;
  active_object : option string;
  object_mode : string
}.

(** The result of running a method: a value or a raised exception, the state
    it leaves and the keyframes it inserted, in call order. *)
Record Outcome (A : Type) := mkOutcome {
  result : A + exn;
  world : World;
  emitted : list Keyframe
}.
Arguments mkOutcome {A}.
Arguments result {A}.
Arguments world {A}.
Arguments emitted {A}.

Definition M (A : Type) : Type := World -> Outcome A.

Definition ret {A} (a : A) : M A := fun w => mkOutcome (inl a) w [].

Definition raise {A} (e : exn) : M A := fun w => mkOutcome (inr e) w [].

Definition bind {A B} (m : M A) (f : A -> M B) : M B :=
  fun w =>
    let o := m w in
    match result o with
    | inl a =>
        let o' := f a (world o) in
        mkOutcome (result o') (world o') (emitted o ++ emitted o')
    | inr e => mkOutcome (inr e) (world o) (emitted o)
    end.

Notation "x <- m ;; k" := (bind m (fun x => k))
  (at level 100, m at next level, right associativity).
Notation "m ;; k" := (bind m (fun _ => k))
  (at level 100, right associativity).

Definition read : M World := fun w => mkOutcome (inl w) w [].

Definition modify (f : World -> World) : M unit :=
  fun w => mkOutcome (inl tt) (f w) [].

Definition emit (k : Keyframe) : M unit :=
  fun w => mkOutcome (inl tt) w [k].

(** [scene.frame_set(frame)] *)
Definition frame_set (frame : Z) : M unit :=
  modify (fun w =>
    mkWorld (mission_data w) (camera w) (camera_intensity w) (armature w)
            (armatures_by_actor w) (scene_objects w) (scene_fps w) frame
            (active_object w) (object_mode w)).

Definition set_camera (c : option Camera) : M unit :=
  modify (fun w =>
    mkWorld (mission_data w) c (camera_intensity w) (armature w)
            (armatures_by_actor w) (scene_objects w) (scene_fps w)
            (scene_frame_current w) (active_object w) (object_mode w)).

Definition set_camera_intensity (i : Q) : M unit :=
  modify (fun w =>
    mkWorld (mission_data w) (camera w) i (armature w)
            (armatures_by_actor w) (scene_objects w) (scene_fps w)
            (scene_frame_current w) (active_object w) (object_mode w)).

Definition set_armatures_by_actor (d : dict Armature) : M unit :=
  modify (fun w =>
    mkWorld (mission_data w) (camera w) (camera_intensity w) (armature w)
            d (scene_objects w) (scene_fps w)
            (scene_frame_current w) (active_object w) (object_mode w)).

(** [bpy.context.view_layer.objects.active = obj] *)
Definition set_active_object (name : string) : M unit :=
  modify (fun w =>
    mkWorld (mission_data w) (camera w) (camera_intensity w) (armature w)
            (armatures_by_actor w) (scene_objects w) (scene_fps w)
            (scene_frame_current w) (Some name) (object_mode w)).

(** [bpy.ops.object.mode_set(mode=...)] *)
Definition mode_set (mode : string) : M unit :=
  modify (fun w =>
    mkWorld (mission_data w) (camera w) (camera_intensity w) (armature w)
            (armatures_by_actor w) (scene_objects w) (scene_fps w)
            (scene_frame_current w) (active_object w) mode).

(** Reads [self.camera], an attribute access on [None] raising. *)
Definition the_camera : M Camera :=
  w <- read ;;
  match camera w with
  | Some c => ret c
  | None => raise AttributeError
  end.

(** [self.camera.location = v] *)
Definition set_camera_location (v : Vector) : M unit :=
  c <- the_camera ;;
  set_camera (Some (mkCamera v (rotation_euler c))).

(** [self.camera.rotation_euler = v] *)
Definition set_camera_rotation_euler (v : Vector) : M unit :=
  c <- the_camera ;;
  set_camera (Some (mkCamera (location c) v)).

(** [self.camera.keyframe_insert(data_path="location", frame=frame)] *)
Definition keyframe_insert_location (frame : Z) : M unit :=
  c <- the_camera ;;
  emit (CameraLocation frame (location c)).

(** [self.camera.keyframe_insert(data_path="rotation_euler", frame=frame)] *)
Definition keyframe_insert_rotation_euler (frame : Z) : M unit :=
  c <- the_camera ;;
  emit (CameraRotationEuler frame (rotation_euler c)).

(** *** apply_camera_animation (lines 395-508) *)

(** Lines 417-421: the intensity of a variant. *)
Definition intensity_of_variant (variant_id : Z) : Q :=
  let intensity_base := 1 + inject_Z (variant_id mod 3) * (3#10) in
  if (variant_id mod 3 =? 1)%Z then 7#10
  else if (variant_id mod 3 =? 2)%Z then 15#10
  else intensity_base.

(** Python's [sum(...)]: starts from 0 and adds from the left. *)
Definition py_sum (l : list Q) : Q := fold_left Qplus l 0.

(** The five accumulators of lines 440-444. *)
Record Accumulators := mkAccumulators {
  cumulative_x : Q;
  cumulative_y : Q;
  cumulative_z : Q;
  cumulative_rot_x : Q;
  cumulative_rot_y : Q
}.

(** Lines 457-483: the arithmetic of one iteration, from the accumulators
    before it to the accumulators after it. *)
Definition accumulate (camera_intensity : Q) (acc : Accumulators)
    (optical_flow : OpticalFlow) : Accumulators :=
  let magnitude := get (of_magnitude optical_flow) 0 in
  let angle := get (of_angle optical_flow) 0 in
  let flow_vectors := get (of_flow_vectors optical_flow) [] in
  let avg_x :=
    match flow_vectors with
    | [] => 0
    | _ => py_sum (map fst flow_vectors)
           / inject_Z (Z.of_nat (List.length flow_vectors))
    end in
  let avg_y :=
    match flow_vectors with
    | [] => 0
    | _ => py_sum (map snd flow_vectors)
           / inject_Z (Z.of_nat (List.length flow_vectors))
    end in
  let scaled_x := avg_x * camera_intensity * (1#10) in
  let scaled_y := avg_y * camera_intensity * (1#10) in
  let rot_x := (angle - (314159#100000)) * (5#100) * camera_intensity in
  let rot_y := magnitude * (2#100) * camera_intensity in
  mkAccumulators
    (cumulative_x acc + scaled_x)
    (cumulative_y acc + scaled_y)
    (cumulative_z acc + magnitude * camera_intensity * (1#100))
    (cumulative_rot_x acc + rot_x * (1#10))
    (cumulative_rot_y acc + rot_y * (1#10)).

(** Lines 489-493: [new_location]. *)
Definition new_location (base_location : Vector) (acc : Accumulators) : Vector :=
  mkVector (vx base_location + cumulative_x acc)
           (vy base_location + cumulative_y acc)
           (vz base_location + cumulative_z acc).

(** Lines 497-501: [new_rotation]. *)
Definition new_rotation (base_rotation : Vector) (acc : Accumulators) : Vector :=
  mkVector (vx base_rotation + cumulative_rot_x acc)
           (vy base_rotation + cumulative_rot_y acc)
           (vz base_rotation).

(** Lines 449-506: the loop over [camera_data]. *)
Fixpoint camera_loop (base_location base_rotation : Vector)
    (camera_data : list FrameData) (acc : Accumulators) : M unit :=
  match camera_data with
  | [] => ret tt
  | frame_data :: rest =>
      let frame_number := get (fd_frame_number frame_data) 0%Z in
      match fd_optical_flow frame_data with
      | None => camera_loop base_location base_rotation rest acc
      | Some optical_flow =>
          w <- read ;;
          let acc := accumulate (camera_intensity w) acc optical_flow in
          frame_set frame_number ;;
          set_camera_location (new_location base_location acc) ;;
          set_camera_rotation_euler (new_rotation base_rotation acc) ;;
          keyframe_insert_location frame_number ;;
          keyframe_insert_rotation_euler frame_number ;;
          camera_loop base_location base_rotation rest acc
      end
  end.

Definition apply_camera_animation (variant_id : Z) : M unit :=
  w <- read ;;
  match mission_data w with
  | None => raise RuntimeError
  | Some mission =>
      match camera w with
      | None => raise RuntimeError
      | Some cam =>
          set_camera_intensity (intensity_of_variant variant_id) ;;
          match get (md_camera mission) [] with
          | [] => ret tt
          | camera_data =>
              let base_location := location cam in
              let base_rotation := rotation_euler cam in
              camera_loop base_location base_rotation camera_data
                          (mkAccumulators 0 0 0 0 0)
          end
      end
  end.

(** *** apply_animation (lines 583-752) *)

(** Lines 607-622: [bone_mapping], in insertion order. *)
Definition bone_mapping : list (string * (Z * Z)) :=
  [ ("LeftUpperArm", (5, 7)); ("LeftLowerArm", (7, 9));
    ("RightUpperArm", (6, 8)); ("RightLowerArm", (8, 10));
    ("LeftUpperLeg", (11, 13)); ("LeftLowerLeg", (13, 15));
    ("RightUpperLeg", (12, 14)); ("RightLowerLeg", (14, 16));
    ("Spine", (11, 0)) ]%string%Z.

(** The dicts built at lines 743-748 for one actor. *)
Record MotionFrame := mkMotionFrame {
  mo_frame_number : Z;
  mo_pose_landmarks : list Landmark
}.

(** A Python value that is an [int] or [None]. *)
Inductive IntOrNone :=
| PyInt (n : Z)
| PyNone.

(** [max(a, b)] with [a] an [int]: comparing an [int] with [None] raises
    [TypeError]. *)
Definition py_max (a : Z) (b : IntOrNone) : M Z :=
  match b with
  | PyInt n => ret (if (a <? n)%Z then n else a)
  | PyNone => raise TypeError
  end.

(** Lines 625-631: the helper [_apply_animation_to_armature].  Its body is the
    three statements that precede the next [def] at the enclosing indentation:
    it activates the armature, enters pose mode, binds [pose_bones] and falls
    off its end, so the call evaluates to [None]. *)
Definition _apply_animation_to_armature
    (target_armature : Armature) (motion_data : list MotionFrame) : M IntOrNone :=
  set_active_object (arm_name target_armature) ;;
  mode_set "POSE" ;;
  let pose_bones := pose_bones target_armature in
  ret PyNone.

(** Lines 634-639: [find_landmark]. *)
Fixpoint find_landmark (landmarks : list Landmark) (landmark_id : Z)
  : option Landmark :=
  match landmarks with
  | [] => None
  | landmark :: rest =>
      match lm_landmark_id landmark with
      | Some i => if (i =? landmark_id)%Z then Some landmark
                  else find_landmark rest landmark_id
      | None => find_landmark rest landmark_id
      end
  end.

(** ASCII case mapping, as [str.lower] and [str.upper] act on ASCII text. *)
Definition lower_ascii (c : ascii) : ascii :=
  let n := nat_of_ascii c in
  if ((65 <=? n) && (n <=? 90))%nat then ascii_of_nat (n + 32) else c.

Definition upper_ascii (c : ascii) : ascii :=
  let n := nat_of_ascii c in
  if ((97 <=? n) && (n <=? 122))%nat then ascii_of_nat (n - 32) else c.

Fixpoint string_map (f : ascii -> ascii) (s : string) : string :=
  match s with
  | EmptyString => EmptyString
  | String c rest => String (f c) (string_map f rest)
  end.

Definition lower (s : string) : string := string_map lower_ascii s.
Definition upper (s : string) : string := string_map upper_ascii s.

(** [name in pose_bones] and [pose_bones[name]]. *)
Definition find_bone (bones : list Bone) (name : string) : option Bone :=
  find (fun b => String.eqb (bone_name b) name) bones.

Section Retargeting.

(** The operations of Blender's [mathutils] used by the retargeting code.
    [rotation_difference] is [None] where the call raises. *)
Variable length_is_zero : Vector -> bool.
Variable normalized : Vector -> Vector.
Variable rotation_difference : Vector -> Vector -> option Quaternion.
Variable slerp : Quaternion -> Quaternion -> Q -> Quaternion.

Definition vector_sub (a b : Vector) : Vector :=
  mkVector (vx a - vx b) (vy a - vy b) (vz a - vz b).

(** Lines 654-680: the statements of [calculate_bone_rotation] up to and
    including its [try] statement, both branches of which return. *)
Definition calculate_bone_rotation
    (start_landmark end_landmark : option Landmark) (bone_default_dir : Vector)
  : option Quaternion :=
  match start_landmark, end_landmark with
  | Some s, Some e =>
      let mp_vector :=
        mkVector (lm_x e - lm_x s) (lm_y e - lm_y s) (lm_z e - lm_z s) in
      if length_is_zero mp_vector then None
      else
        let mp_vector := normalized mp_vector in
        let bone_dir := normalized bone_default_dir in
        match rotation_difference bone_dir mp_vector with
        | Some rotation => Some rotation
        | None => Some (mkQuaternion 1 0 0 0)
        end
  | _, _ => None
  end.

(** Lines 695-704: the bone a mapping entry resolves to. *)
Definition resolve_bone (bones : list Bone) (bone_name : string) : option string :=
  match find_bone bones bone_name with
  | Some _ => Some bone_name
  | None =>
      find (fun variant =>
              match find_bone bones variant with Some _ => true | None => false end)
           [ bone_name; lower bone_name; upper bone_name;
             ("Left" ++ bone_name)%string; ("Right" ++ bone_name)%string ]
  end.

(** [a.get('visibility', 0) < 0.5] guarded by the truth of the landmark. *)
Definition below_threshold (landmark : option Landmark) : bool :=
  match landmark with
  | Some l => ltb (get (lm_visibility l) 0) (5#10)
  | None => false
  end.

(** Lines 694-730: the body of the loop over [bone_mapping.items()] for one
    entry, on the running [previous_rotations].  Returns the keyframe inserted
    for the bone, if any, and the updated [previous_rotations]. *)
Definition retarget_bone (armature_name : string) (bones : list Bone)
    (frame_number : Z) (pose_landmarks : list Landmark)
    (entry : string * (Z * Z)) (previous_rotations : dict Quaternion)
  : option Keyframe * dict Quaternion :=
  let '(bone_name, (start_id, end_id)) := entry in
  match resolve_bone bones bone_name with
  | None => (None, previous_rotations)
  | Some bone_name =>
      match find_bone bones bone_name with
      | None => (None, previous_rotations)
      | Some bone =>
          let start_landmark := find_landmark pose_landmarks start_id in
          let end_landmark := find_landmark pose_landmarks end_id in
          if below_threshold start_landmark then (None, previous_rotations)
          else if below_threshold end_landmark then (None, previous_rotations)
          else
            let bone_default_dir :=
              normalized (vector_sub (bone_tail bone) (bone_head bone)) in
            let bone_default_dir :=
              if length_is_zero bone_default_dir then mkVector 0 1 0
              else bone_default_dir in
            match calculate_bone_rotation start_landmark end_landmark
                                          bone_default_dir with
            | None => (None, previous_rotations)
            | Some rotation =>
                let rotation :=
                  match dict_get previous_rotations bone_name with
                  | Some prev_rot => slerp prev_rot rotation (7#10)
                  | None => rotation
                  end in
                (Some (BoneRotationQuaternion armature_name bone_name
                                              frame_number rotation),
                 dict_set previous_rotations bone_name rotation)
            end
      end
  end.

(** The loop over [bone_mapping.items()] for one frame. *)
Fixpoint retarget_frame (armature_name : string) (bones : list Bone)
    (frame_number : Z) (pose_landmarks : list Landmark)
    (mapping : list (string * (Z * Z))) (previous_rotations : dict Quaternion)
  : list Keyframe * dict Quaternion :=
  match mapping with
  | [] => ([], previous_rotations)
  | entry :: rest =>
      let '(k, prev) :=
        retarget_bone armature_name bones frame_number pose_landmarks entry
                      previous_rotations in
      let '(ks, prev') :=
        retarget_frame armature_name bones frame_number pose_landmarks rest prev in
      (match k with Some k => k :: ks | None => ks end, prev')
  end.

(** Lines 683-733: the statements that follow the [try] statement inside
    [calculate_bone_rotation].  They stand after a statement that always
    returns, so no call reaches them; the embedding keeps them as the function
    of the names they read ([target_armature], [motion_data]) that they would
    compute. *)
Fixpoint unreached_retarget_loop (target_armature : Armature)
    (motion_data : list MotionFrame) (previous_rotations : dict Quaternion)
  : list Keyframe * dict Quaternion :=
  match motion_data with
  | [] => ([], previous_rotations)
  | frame_data :: rest =>
      let '(ks, prev) :=
        retarget_frame (arm_name target_armature) (pose_bones target_armature)
                       (mo_frame_number frame_data) (mo_pose_landmarks frame_data)
                       bone_mapping previous_rotations in
      let '(ks', prev') := unreached_retarget_loop target_armature rest prev in
      (ks ++ ks', prev')
  end.

End Retargeting.

(** Lines 738-748: [motion_for_actor]. *)
Definition motion_for_actor (mission : MissionData) (actor_id : string)
  : list MotionFrame :=
  let actors_block := get (md_actors mission) [] in
  let actor_data := get (dict_get actors_block actor_id) (mkActorData None None) in
  map (fun pose_frame =>
         mkMotionFrame (get (pf_frame_number pose_frame) 0%Z)
                       (get (pf_landmarks pose_frame) []))
      (get (ad_pose_frames actor_data) []).

(** Lines 735-750: the loop over [self.armatures_by_actor.items()]. *)
Fixpoint animation_loop (mission : MissionData)
    (items : list (string * Armature)) (total_applied : Z) : M Z :=
  match items with
  | [] => ret total_applied
  | (actor_id, arm) :: rest =>
      r <- _apply_animation_to_armature arm (motion_for_actor mission actor_id) ;;
      total_applied <- py_max total_applied r ;;
      animation_loop mission rest total_applied
  end.

Definition apply_animation : M unit :=
  w <- read ;;
  (match armatures_by_actor w with
   | [] =>
       match armature w with
       | None => raise RuntimeError
       | Some a => set_armatures_by_actor [("0"%string, a)]
       end
   | _ => ret tt
   end) ;;
  w <- read ;;
  match mission_data w with
  | None => raise RuntimeError
  | Some mission =>
      animation_loop mission (armatures_by_actor w) 0%Z ;;
      ret tt
  end.

(** *** apply_lip_sync (lines 754-877) *)

(** [sub in s] on strings. *)
Fixpoint contains (sub s : string) : bool :=
  if String.prefix sub s then true
  else
    match s with
    | EmptyString => false
    | String _ rest => contains sub rest
    end.

(** Lines 771-776: the first avatar mesh that has shape keys. *)
Definition find_avatar_mesh (objects : list SceneObject) : option SceneObject :=
  find (fun obj =>
          String.eqb (obj_type obj) "MESH"
          && String.prefix "EXO_Avatar_" (obj_name obj)
          && match obj_key_blocks obj with Some _ => true | None => false end)
       objects.

Definition possible_names : list string :=
  [ "MouthOpen"; "O"; "Jaw"; "Mouth_Open"; "mouth_open"; "MouthOpen" ]%string.

Definition in_key_blocks (key_blocks : list string) (name : string) : bool :=
  existsb (String.eqb name) key_blocks.

(** Lines 790-806: the name of the shape key that drives the mouth. *)
Definition find_mouth_shape_key (key_blocks : list string) : option string :=
  match find (in_key_blocks key_blocks) possible_names with
  | Some name => Some name
  | None =>
      find (fun key_name =>
              contains "mouth" (lower key_name) || contains "jaw" (lower key_name))
           key_blocks
  end.

(** Lines 821-828: [rhubarb_to_ratio]. *)
Definition rhubarb_to_ratio : dict Q :=
  [ ("A", 1#10); ("B", 4#10); ("C", 7#10);
    ("E", 9#10); ("F", 2#10); ("X", 0) ]%string.

(** Lines 852-855: the loop over the frames of one cue.  The keyframe carries
    the value assigned to [mouth_shape_key.value] on the line before. *)
Fixpoint cue_frames_loop (mesh key : string) (ratio : Q) (frames : list Z)
  : M unit :=
  match frames with
  | [] => ret tt
  | frame :: rest =>
      frame_set frame ;;
      emit (ShapeKeyValue mesh key frame ratio) ;;
      cue_frames_loop mesh key ratio rest
  end.

(** [int(time * fps)]: the product is the float product, rounded to
    binary64, and [int] truncates it; [None] when the product is infinite, on
    which [int] raises [OverflowError]. *)
Definition frame_of_time (time : Q) (fps : Z) : option Z :=
  option_map py_int (float_mul time (inject_Z fps)).

(** Lines 840-849: the frame range and the ratio of one cue. *)
Definition cue_start_frame (fps : Z) (cue : Cue) : option Z :=
  let start_time := get (cue_start cue) 0 in
  frame_of_time start_time fps.

Definition cue_end_frame (fps : Z) (cue : Cue) : option Z :=
  let start_time := get (cue_start cue) 0 in
  let end_time := get (cue_end cue) start_time in
  frame_of_time end_time fps.

(** Line 849: [rhubarb_to_ratio.get(value, 0.0)]; [None] when the value
    cannot be hashed, on which [dict.get] raises [TypeError].  A hashable
    value that is not a string equals no key of the table. *)
Definition cue_ratio (cue : Cue) : option Q :=
  match get (cue_value cue) (Text "X") with
  | Text value => Some (get (dict_get rhubarb_to_ratio value) 0)
  | OtherHashable => Some 0
  | Unhashable => None
  end.

(** Lines 839-855: the loop over [mouth_cues]. *)
Fixpoint cues_loop (mesh key : string) (fps : Z) (mouth_cues : list Cue)
  : M unit :=
  match mouth_cues with
  | [] => ret tt
  | cue :: rest =>
      match cue_start_frame fps cue with
      | None => raise OverflowError
      | Some start_frame =>
          match cue_end_frame fps cue with
          | None => raise OverflowError
          | Some end_frame =>
              match cue_ratio cue with
              | None => raise TypeError
              | Some ratio =>
                  cue_frames_loop mesh key ratio
                                  (py_range start_frame (end_frame + 1)) ;;
                  cues_loop mesh key fps rest
              end
          end
      end
  end.

(** Lines 866-871: the loop over the mouth frames of actor "0". *)
Fixpoint mouth_frames_loop (mesh key : string) (mouth_frames : list MouthFrame)
  : M unit :=
  match mouth_frames with
  | [] => ret tt
  | mf :: rest =>
      let frame_number := get (mf_frame_number mf) 0%Z in
      let ratio := get (mf_mouth_open_ratio mf) 0 in
      frame_set frame_number ;;
      emit (ShapeKeyValue mesh key frame_number ratio) ;;
      mouth_frames_loop mesh key rest
  end.

Definition apply_lip_sync : M unit :=
  w <- read ;;
  match mission_data w with
  | None => raise RuntimeError
  | Some mission =>
      match find_avatar_mesh (scene_objects w) with
      | None => ret tt
      | Some avatar_mesh =>
          let key_blocks := get (obj_key_blocks avatar_mesh) [] in
          match find_mouth_shape_key key_blocks with
          | None => ret tt
          | Some mouth_shape_key =>
              let mouth_cues := get (md_mouthCues mission) [] in
              let fps := scene_fps w in
              match mouth_cues with
              | _ :: _ =>
                  cues_loop (obj_name avatar_mesh) mouth_shape_key fps mouth_cues
              | [] =>
                  let actors_block := get (md_actors mission) [] in
                  let actor0 :=
                    get (dict_get actors_block "0") (mkActorData None None) in
                  let mouth_frames := get (ad_mouth_frames actor0) [] in
                  mouth_frames_loop (obj_name avatar_mesh) mouth_shape_key
                                    mouth_frames
              end
          end
      end
  end.

(** *** Reading the emitted keyframes *)

(** The value a shape-key animation curve holds at [frame] after the given
    insertions: an insertion on a frame that already has a keyframe replaces
    it, so the last insertion on the frame decides. *)
Fixpoint curve_value (mesh key : string) (frame : Z) (ks : list Keyframe)
  : option Q :=
  match ks with
  | [] => None
  | k :: rest =>
      match curve_value mesh key frame rest with
      | Some v => Some v
      | None =>
          match k with
          | ShapeKeyValue m n f v =>
              if String.eqb m mesh && String.eqb n key && (f =? frame)%Z
              then Some v else None
          | _ => None
          end
      end
  end.

End Worker.

(** ** Auxiliary definitions used in the statements *)

Module ScannerAux.

Import Py Scanner.

(** The ranking that [assign_poses] builds from sorted candidates: the
    candidate at position [i] becomes the pose frame of actor [str (idx + i)]. *)
Fixpoint ranked (frame_count : Z) (timestamp_iso : string) (idx : nat)
    (candidates : list (Q * list Landmark)) : dict PoseFrame :=
  match candidates with
  | [] => []
  | (center_x, pose_lmk) :: rest =>
      (str idx, mkPoseFrame frame_count timestamp_iso
                            (extract_pose_landmarks pose_lmk) center_x)
      :: ranked frame_count timestamp_iso (S idx) rest
  end.

(** Order of two sort items by their key. *)
Definition key_le {A} (a b : Q * A) : Prop := fst a <= fst b.

(** The pose frames and mouth frames an actor has in [actors_data], empty when
    the actor is not there yet. *)
Definition pose_frames_of (actors : dict ActorData) (actor_id : string)
  : list PoseFrame :=
  match dict_get actors actor_id with
  | Some a => pose_frames a
  | None => []
  end.

Definition mouth_frames_of (actors : dict ActorData) (actor_id : string)
  : list MouthFrame :=
  match dict_get actors actor_id with
  | Some a => mouth_frames a
  | None => []
  end.

(** A pose detection of 33 landmarks whose nose is at [x]. *)
Definition pose_at (x : Q) : list Landmark :=
  mkLandmark x (5#10) 0 1 :: repeat (mkLandmark x (5#10) 0 1) 32.

(** The frame of the rank example: noses at 0.7, 0.1 and 0.4. *)
Definition example_poses : list (list Landmark) :=
  [ pose_at (7#10); pose_at (1#10); pose_at (4#10) ].

(** What an entry of [frame_actor_pose] says about rank: the ID and anchor. *)
Definition id_and_anchor (e : string * PoseFrame) : string * Q :=
  (fst e, pf_center_x (snd e)).

(** The distance the association loop compares: [abs(px - fx)], as the
    float the code computes. *)
Definition anchor_distance (fx : Q) (pose_frame : PoseFrame) : option Q :=
  float_distance (pf_center_x pose_frame) fx.

(** [a] is strictly nearer than [b]; [a] is not farther than [b]. *)
Definition nearer (a b : option Q) : Prop := distance_ltb a b = true.
Definition not_farther (a b : option Q) : Prop := distance_ltb b a = false.

(** The mouth frame stored for an entry of [face_infos]. *)
Definition mouth_frame_of (frame_count : Z) (timestamp_iso : string)
    (face_info : FaceInfo) : MouthFrame :=
  mkMouthFrame frame_count timestamp_iso (face_mouth_open_ratio face_info).

(** The entries of [face_infos] that the association attaches to an actor,
    in order. *)
Definition faces_of_actor (frame_actor_pose : dict PoseFrame)
    (actor_id : string) (face_infos : list FaceInfo) : list FaceInfo :=
  filter (fun face_info =>
            String.eqb (associate_face frame_actor_pose
                                       (face_center_x face_info))
                       actor_id)
         face_infos.

(** The anchor of a facial detection, [None] when it has none. *)
Definition detection_anchor (face_landmarks : list Landmark) : option Q :=
  face_anchor (fst (extract_face_landmarks face_landmarks 0)).

(** A frame with other facial detections. *)
Definition with_faces (inp : FrameInput) (faces : list (list Landmark))
  : FrameInput :=
  mkFrameInput (fi_timestamp_iso inp) (fi_pose_landmarks_list inp) faces
               (fi_optical_flow_data inp).

(** [frame_actor_pose] of the association example: actors "0", "1" and "2"
    anchored at 0.1, 0.4 and 0.7. *)
Definition example_frame_actor_pose : dict PoseFrame :=
  snd (frame_ranking 0 "t" example_poses []).

(** A face landmark at horizontal position [x]. *)
Definition face_point (x : Q) : Landmark := mkLandmark x (5#10) 0 0.

(** Face detections of 15, 14 and 3 landmarks; landmark [i] lies at
    [x = i/100]. *)
Definition face_of_length (n : nat) : list Landmark :=
  map (fun i => face_point (inject_Z (Z.of_nat i) / 100)) (seq 0 n).

End ScannerAux.

Module WorkerAux.

Import Py Worker.

(** The keyframes the camera loop inserts, as a function of the intensity,
    the base pose, the samples and the accumulators it starts from. *)
Fixpoint camera_trace (intensity : Q) (base_location base_rotation : Vector)
    (camera_data : list FrameData) (acc : Accumulators) : list Keyframe :=
  match camera_data with
  | [] => []
  | frame_data :: rest =>
      match fd_optical_flow frame_data with
      | None => camera_trace intensity base_location base_rotation rest acc
      | Some optical_flow =>
          let frame_number := get (fd_frame_number frame_data) 0%Z in
          let acc := accumulate intensity acc optical_flow in
          CameraLocation frame_number (new_location base_location acc)
          :: CameraRotationEuler frame_number (new_rotation base_rotation acc)
          :: camera_trace intensity base_location base_rotation rest acc
      end
  end.

(** The keyframes of a whole call of [apply_camera_animation], from the
    samples under ['camera'], the intensity and the base pose alone. *)
Definition camera_keyframes (samples : option (list FrameData)) (intensity : Q)
    (base : Camera) : list Keyframe :=
  camera_trace intensity (location base) (rotation_euler base)
               (get samples []) (mkAccumulators 0 0 0 0 0).

(** Two equal vectors, component by component, as numbers. *)
Definition vector_eq (a b : Vector) : Prop :=
  vx a == vx b /\ vy a == vy b /\ vz a == vz b.

(** Two camera keyframes on the same path and frame with equal values. *)
Definition keyframe_eq (a b : Keyframe) : Prop :=
  match a, b with
  | CameraLocation f v, CameraLocation f' v' => f = f' /\ vector_eq v v'
  | CameraRotationEuler f v, CameraRotationEuler f' v' => f = f' /\ vector_eq v v'
  | _, _ => a = b
  end.

(** **** The synthesis as the specification words it *)

(** The mean of a list of numbers, 0 for the empty list. *)
Definition mean (l : list Q) : Q :=
  match l with
  | [] => 0
  | _ => fold_right Qplus 0 l / inject_Z (Z.of_nat (List.length l))
  end.

Definition DAMPING : Q := 1#10.
Definition Z_CONSTANT : Q := 1#100.
Definition PAN_CONSTANT : Q := 5#100.
Definition TILT_CONSTANT : Q := 2#100.
Definition SMOOTHING : Q := 1#10.
(** The literal the code subtracts from the mean angle. *)
Definition ANGLE_CENTRE : Q := 314159#100000.

(** What one sample adds to the five accumulators. *)
Definition sample_delta (I : Q) (fl : OpticalFlow) : Accumulators :=
  let magnitude := get (of_magnitude fl) 0 in
  let angle := get (of_angle fl) 0 in
  let field := get (of_flow_vectors fl) [] in
  mkAccumulators
    (mean (map fst field) * (I * DAMPING))
    (mean (map snd field) * (I * DAMPING))
    (magnitude * I * Z_CONSTANT)
    (((angle - ANGLE_CENTRE) * I * PAN_CONSTANT) * SMOOTHING)
    ((magnitude * I * TILT_CONSTANT) * SMOOTHING).

(** The samples that carry optical-flow data, with their frame numbers. *)
Definition flow_samples (samples : list FrameData) : list (Z * OpticalFlow) :=
  flat_map (fun s =>
              match fd_optical_flow s with
              | Some fl => [(get (fd_frame_number s) 0%Z, fl)]
              | None => []
              end) samples.

(** The non-empty prefixes of a list, shortest first. *)
Fixpoint prefixes {A} (l : list A) : list (list A) :=
  match l with
  | [] => []
  | x :: rest => [x] :: map (cons x) (prefixes rest)
  end.

(** The sum of what the samples of a prefix add, accumulator by accumulator. *)
Definition total (I : Q) (prefix : list (Z * OpticalFlow)) : Accumulators :=
  let ds := map (fun s => sample_delta I (snd s)) prefix in
  mkAccumulators
    (fold_right Qplus 0 (map cumulative_x ds))
    (fold_right Qplus 0 (map cumulative_y ds))
    (fold_right Qplus 0 (map cumulative_z ds))
    (fold_right Qplus 0 (map cumulative_rot_x ds))
    (fold_right Qplus 0 (map cumulative_rot_y ds)).

(** The two keyframes at the last sample of a prefix: base pose plus the
    totals over the prefix. *)
Definition keyframes_after (I : Q) (base : Camera)
    (prefix : list (Z * OpticalFlow)) : list Keyframe :=
  let frame := fst (last prefix (0%Z, mkOpticalFlow None None None)) in
  let t := total I prefix in
  [ CameraLocation frame
      (mkVector (vx (location base) + cumulative_x t)
                (vy (location base) + cumulative_y t)
                (vz (location base) + cumulative_z t));
    CameraRotationEuler frame
      (mkVector (vx (rotation_euler base) + cumulative_rot_x t)
                (vy (rotation_euler base) + cumulative_rot_y t)
                (vz (rotation_euler base))) ].

(** The camera path of the specification: one pair of keyframes per sample,
    in sample order. *)
Definition specified_camera_path (samples : list FrameData) (I : Q)
    (base : Camera) : list Keyframe :=
  flat_map (keyframes_after I base) (prefixes (flow_samples samples)).

(** The base pose moved by the accumulators. *)
Definition shift (base : Camera) (acc : Accumulators) : Camera :=
  mkCamera (new_location (location base) acc)
           (new_rotation (rotation_euler base) acc).

(** **** Concrete inputs *)

(** Two camera samples: a still first frame, then a frame with flow. *)
Definition example_samples : list FrameData :=
  [ mkFrameData (Some 0%Z) (Some (mkOpticalFlow (Some 0) (Some 0) (Some [])));
    mkFrameData (Some 1%Z)
      (Some (mkOpticalFlow (Some 2) (Some (35#10))
               (Some [ (1, 2); (3, 4) ]))) ].

Definition example_camera : Camera :=
  mkCamera (mkVector 0 (-5) (15#10)) (mkVector (15#10) 0 0).

Definition example_mission : MissionData :=
  mkMissionData (Some example_samples) (Some []) (Some []).

(** Two workers that agree on the samples and on the camera pose and differ
    in the rest of their state. *)
Definition example_world : World :=
  mkWorld (Some example_mission) (Some example_camera) 1 None [] [] 30 0 None
          "OBJECT".

Definition example_world_later : World :=
  mkWorld (Some example_mission) (Some example_camera) (15#10) None [] [] 60 77
          (Some "EXO_Camera"%string) "POSE".

(** **** Symbolic mouth cues *)

(** A cue that the loop gets through: both frame numbers are finite and the
    value can be looked up in the table. *)
Definition regular (fps : Z) (cue : Cue) : Prop :=
  cue_start_frame fps cue <> None /\
  cue_end_frame fps cue <> None /\
  cue_ratio cue <> None.

(** The exception on which the loop stops at a cue, if any: the start frame
    is evaluated first, then the end frame, then the ratio. *)
Definition cue_exception (fps : Z) (cue : Cue) : option exn :=
  match cue_start_frame fps cue, cue_end_frame fps cue, cue_ratio cue with
  | None, _, _ => Some OverflowError
  | Some _, None, _ => Some OverflowError
  | Some _, Some _, None => Some TypeError
  | Some _, Some _, Some _ => None
  end.

(** The keyframes of one cue: one per frame from [int(start * fps)] through
    [int(end * fps)] inclusive, all holding the ratio looked up for the cue's
    value. *)
Definition cue_keyframes (mesh key : string) (fps : Z) (cue : Cue)
  : list Keyframe :=
  match cue_start_frame fps cue, cue_end_frame fps cue, cue_ratio cue with
  | Some start_frame, Some end_frame, Some ratio =>
      map (fun frame => ShapeKeyValue mesh key frame ratio)
          (py_range start_frame (end_frame + 1))
  | _, _, _ => []
  end.

(** Whether the frame range of a cue contains [frame]. *)
Definition covers (fps : Z) (cue : Cue) (frame : Z) : Prop :=
  exists start_frame end_frame,
    cue_start_frame fps cue = Some start_frame /\
    cue_end_frame fps cue = Some end_frame /\
    (start_frame <= frame <= end_frame)%Z.


(** A scene with one avatar mesh that has a ["MouthOpen"] shape key, rendered
    at 30 frames per second, and a mission with the given mouth cues. *)
Definition lip_sync_world (cues : list Cue) : World :=
  mkWorld
    (Some (mkMissionData None (Some []) (Some cues)))
    None 1 None []
    [ mkSceneObject "CAMERA" "EXO_Camera" None;
      mkSceneObject "MESH" "EXO_Avatar_0" (Some [ "Basis"; "MouthOpen" ]%string) ]
    30 0 None "OBJECT".

(** The cue of the example: from 1.0 s to 2.0 s, value "C". *)
Definition cue_C : Cue := mkCue (Some 1) (Some 2) (Some (Text "C")).

(** A cue at 4.1 s, value "C": the float product 4.1 * 30 is just below
    123. *)
Definition cue_late : Cue :=
  mkCue (Some (float_of_decimal (41#10))) (Some (float_of_decimal (41#10)))
        (Some (Text "C")).

Definition cue_number : Cue := mkCue (Some 0) (Some (1#10)) (Some OtherHashable).


(** **** Retargeting inputs *)

Definition example_armature : Armature :=
  mkArmature "EXO_Armature_0"
    [ mkBone "LeftUpperArm" (mkVector 0 0 0) (mkVector 0 1 0);
      mkBone "LeftLowerArm" (mkVector 0 1 0) (mkVector 0 2 0) ].

(** The 33 landmarks of a pose, all well visible, the whole pose moved
    horizontally by [dx]. *)
Definition visible_pose (dx : Q) : list Landmark :=
  map (fun i =>
         mkLandmark (Some (Z.of_nat i))
                    (inject_Z (Z.of_nat i) / 100 + dx)
                    (inject_Z (Z.of_nat i) / 50) 0 (Some (9#10)))
      (seq 0 33).

(** A worker with one armature for actor "0" and a mission whose actor "0"
    has the given pose frames. *)
Definition retarget_world (frames : list PoseFrame) : World :=
  mkWorld
    (Some (mkMissionData None
             (Some [ ("0"%string, mkActorData (Some frames) (Some [])) ])
             None))
    None 1 (Some example_armature) [ ("0"%string, example_armature) ] []
    30 0 None "OBJECT".

(** Two consecutive frames in which every landmark is visible. *)
Definition two_visible_frames : list PoseFrame :=
  [ mkPoseFrame (Some 0%Z) (Some (visible_pose 0));
    mkPoseFrame (Some 1%Z) (Some (visible_pose (1#10))) ].

End WorkerAux.


(** ** Auxiliary definitions for the dataset built by the scanner *)

Module DatasetAux.

Import Py Scanner.

(** The number of pose frames, and of mouth frames, stored over all actors. *)
Definition total_pose_frames (actors : dict ActorData) : nat :=
  list_sum (map (fun e => List.length (pose_frames (snd e))) actors).

Definition total_mouth_frames (actors : dict ActorData) : nat :=
  list_sum (map (fun e => List.length (mouth_frames (snd e))) actors).

(** The detections of a frame that are not empty lists of landmarks. *)
Definition non_empty (detections : list (list Landmark)) : list (list Landmark) :=
  filter (fun d => match d with [] => false | _ => true end) detections.

(** What holds of the frames stored for one actor when [n] frames have been
    processed: pose frames have strictly increasing frame numbers, mouth
    frames have non-decreasing frame numbers, all below [n] and not negative,
    and every mouth ratio lies in [0, 1]. *)
Definition actor_well_formed (n : Z) (a : ActorData) : Prop :=
  StronglySorted Z.lt (map pf_frame_number (pose_frames a))
  /\ Forall (fun k => (0 <= k < n)%Z) (map pf_frame_number (pose_frames a))
  /\ Sorted Z.le (map mf_frame_number (mouth_frames a))
  /\ Forall (fun mf => (0 <= mf_frame_number mf < n)%Z
                       /\ 0 <= mf_mouth_open_ratio mf <= 1)
            (mouth_frames a).

Definition dataset_well_formed (n : Z) (actors : dict ActorData) : Prop :=
  forall id a, dict_get actors id = Some a -> actor_well_formed n a.

(** The items of a list whose key equals [k] as a number, in order. *)
Definition with_key {A} (k : Q) (l : list (Q * A)) : list (Q * A) :=
  filter (fun item => Qeq_bool (fst item) k) l.

(** The camera samples of consecutive frames, numbered from [n]. *)
Fixpoint samples_from (n : Z) (frames : list FrameInput) : list CameraSample :=
  match frames with
  | [] => []
  | inp :: rest =>
      mkCameraSample n (fi_timestamp_iso inp) (fi_optical_flow_data inp)
      :: samples_from (n + 1) rest
  end.

End DatasetAux.


(** ** EXO_03_BLENDER_WORKER.py: rendering set-up and the variant loop *)

Module Forge.

Import Py Worker.

(** Python's [max] over a non-empty iterable of [int]: the first item, replaced
    by each later item that is greater. *)
Definition py_max_of (first : Z) (others : list Z) : Z :=
  fold_left (fun m x => if (m <? x)%Z then x else m) others first.

(** Lines 952-957 of [render_video]: [motion_data] is the list under
    ['motion'], each entry given by its ['frame_number'] key (absent: 0). *)
Definition motion_end_frame (motion_data : list (option Z)) : Z :=
  match map (fun frame => get frame 0%Z) motion_data with
  | [] => 1
  | first :: others => py_max_of first others + 1
  end.

(** Line 960: [scene_end_frame = max(audio_duration_frames, motion_end_frame)]. *)
Definition scene_end_frame (audio_duration_frames : Z)
    (motion_data : list (option Z)) : Z :=
  py_max_of audio_duration_frames [motion_end_frame motion_data].

(** [f"{n:03d}"]: the decimal digits, with a sign for a negative number, padded
    with zeros after the sign to a width of 3. *)
Definition format_03d (n : Z) : string :=
  let digits := str (Z.abs_nat n) in
  let sign := if (n <? 0)%Z then "-"%string else ""%string in
  let width := (String.length sign + String.length digits)%nat in
  (sign ++ string_of_list_ascii (repeat "0"%char (3 - width)) ++ digits)%string.

(** Lines 970 and 1067: the file name of a variant, the same expression in
    [render_video] and in [post_prod_ghost]. *)
Definition output_filename (variant_id : Z) : string :=
  ("EXO_MISSION_" ++ format_03d variant_id ++ ".mp4")%string.

(** Lines 1169-1218: [run].  Whether the mission file exists is read from the
    file system; the five set-up methods run Blender and read the mission
    file, rendering and post-production run Blender and FFmpeg: they are
    taken as given methods, which may raise and may change the state. *)
Section Run.

Variable mission_ready_exists : bool.
Variables setup_scene import_assets setup_camera setup_lighting
          load_mission_data : M unit.
Variable render_video : Z -> M string.
Variable post_prod_ghost : string -> Z -> M string.

(** Lines 1196-1212: the loop over [range(num_variantes)]. *)
Fixpoint variant_loop (variants : list Z) : M unit :=
  match variants with
  | [] => ret tt
  | variant_id :: rest =>
      apply_animation ;;
      apply_lip_sync ;;
      apply_camera_animation variant_id ;;
      rendered_path <- render_video variant_id ;;
      final_path <- post_prod_ghost rendered_path variant_id ;;
      variant_loop rest
  end.

Definition run (num_variantes : Z) : M bool :=
  if negb mission_ready_exists then ret false
  else
    setup_scene ;;
    import_assets ;;
    setup_camera ;;
    setup_lighting ;;
    load_mission_data ;;
    variant_loop (py_range 0 num_variantes) ;;
    ret true.

End Run.

End Forge.

Module ForgeAux.

Import Py Worker WorkerAux Forge.

(** The pose of the camera after a keyframe was inserted from it: a location
    keyframe records the location, a rotation keyframe the rotation. *)
Definition pose_with (c : Camera) (k : Keyframe) : Camera :=
  match k with
  | CameraLocation _ v => mkCamera v (rotation_euler c)
  | CameraRotationEuler _ v => mkCamera (location c) v
  | _ => c
  end.

(** The pose recorded last on each data path, [c] where there is none. *)
Definition pose_after (c : Camera) (ks : list Keyframe) : Camera :=
  fold_left pose_with ks c.

(** [v2 - base = c * (v1 - base)], component by component. *)
Definition offset_scaled (c : Q) (base v1 v2 : Vector) : Prop :=
  vx v2 - vx base == c * (vx v1 - vx base)
  /\ vy v2 - vy base == c * (vy v1 - vy base)
  /\ vz v2 - vz base == c * (vz v1 - vz base).

(** Two camera keyframes on the same data path and frame whose offsets from
    the base pose are in the ratio [c]. *)
Definition keyframe_scaled (c : Q) (base : Camera) (k1 k2 : Keyframe) : Prop :=
  match k1, k2 with
  | CameraLocation f v, CameraLocation f' v' =>
      f = f' /\ offset_scaled c (location base) v v'
  | CameraRotationEuler f v, CameraRotationEuler f' v' =>
      f = f' /\ offset_scaled c (rotation_euler base) v v'
  | _, _ => False
  end.

(** The keyframe the continuous lip-sync inserts for one mouth frame. *)
Definition mouth_keyframe (mesh key : string) (mf : MouthFrame) : Keyframe :=
  ShapeKeyValue mesh key (get (mf_frame_number mf) 0%Z)
                (get (mf_mouth_open_ratio mf) 0).

(** The mouth frames of actor "0" in a mission. *)
Definition mouth_frames_of_actor0 (mission : MissionData) : list MouthFrame :=
  get (ad_mouth_frames
         (get (dict_get (get (md_actors mission) []) "0")
              (mkActorData None None)))
      [].

(** A mission without mouth cues whose actors "0" and "1" have mouth frames,
    in the scene of [lip_sync_world]. *)
Definition fallback_world : World :=
  mkWorld
    (Some (mkMissionData None
             (Some [ ("0"%string,
                      mkActorData (Some [])
                        (Some [ mkMouthFrame (Some 0%Z) (Some (1#4));
                                mkMouthFrame (Some 2%Z) (Some 1);
                                mkMouthFrame None None ]));
                     ("1"%string,
                      mkActorData (Some [])
                        (Some [ mkMouthFrame (Some 1%Z) (Some (1#2)) ])) ])
             (Some [])))
    None 1 None []
    [ mkSceneObject "CAMERA" "EXO_Camera" None;
      mkSceneObject "MESH" "EXO_Avatar_0" (Some [ "Basis"; "MouthOpen" ]%string) ]
    30 0 None "OBJECT".

(** Whether an object is taken as the avatar mesh by [apply_lip_sync]. *)
Definition is_avatar_mesh (obj : SceneObject) : Prop :=
  obj_type obj = "MESH"%string
  /\ String.prefix "EXO_Avatar_" (obj_name obj) = true
  /\ obj_key_blocks obj <> None.

(** Whether a shape-key name is accepted as the mouth key: one of the names
    searched for, or a name that contains "mouth" or "jaw" in any case. *)
Definition is_mouth_key_name (name : string) : Prop :=
  In name possible_names
  \/ contains "mouth" (lower name) = true
  \/ contains "jaw" (lower name) = true.

(** The set-up of [run], lines 1189-1193: the five calls in a row. *)
Definition set_up (setup_scene import_assets setup_camera setup_lighting
                   load_mission_data : M unit) : M unit :=
  setup_scene ;;
  import_assets ;;
  setup_camera ;;
  setup_lighting ;;
  load_mission_data.

(** A set-up method that raises on a missing asset, for the examples. *)
Definition failing_import : M unit := raise RuntimeError.


End ForgeAux.


(** ** JSON documents and the Python operations on them *)

Module Doc.

Import Py.

(** A float that is not finite: [json.load] reads the literals [NaN],
    [Infinity] and [-Infinity], and a number with a fraction or an exponent
    beyond the float range as an infinity. *)
Inductive NonFinite :=
| NaN
| Infinity
| MinusInfinity.

(** A value as [json.load] returns it.  A finite number, an [int] or a
    [float], is an exact rational; one beyond the float range can only be an
    [int].  An object is a dict in insertion order. *)
#[local] Unset Elimination Schemes.
Inductive JSON :=
| JNull
| JBool (b : bool)
| JNum (q : Q)
| JNonFinite (x : NonFinite)
| JStr (s : string)
| JList (items : list JSON)
| JDict (entries : list (string * JSON)).
#[local] Set Elimination Schemes.

(** The exceptions the operations raise. *)
Inductive pyexn :=
| PyTypeError
| PyAttributeError
| PyKeyError
| PyOverflowError.

(** The truth value of [v] in a condition. *)
Definition truthy (v : JSON) : bool :=
  match v with
  | JNull => false
  | JBool b => b
  | JNum q => negb (Qeq_bool q 0)
  | JNonFinite _ => true
  | JStr s => negb (String.eqb s "")
  | JList items => match items with [] => false | _ => true end
  | JDict entries => match entries with [] => false | _ => true end
  end.

(** [v.get(key, default)]: only a dict has the method. *)
Definition py_get (v : JSON) (key : string) (default : JSON) : JSON + pyexn :=
  match v with
  | JDict entries =>
      inl (match dict_get entries key with
           | Some x => x
           | None => default
           end)
  | _ => inr PyAttributeError
  end.

(** [key in v] for a string [key]: a key of a dict, an item of a list, a
    substring of a string; the other values are not containers. *)
Definition py_in (key : string) (v : JSON) : bool + pyexn :=
  match v with
  | JDict entries =>
      inl (match dict_get entries key with Some _ => true | None => false end)
  | JList items =>
      inl (existsb (fun item =>
                      match item with
                      | JStr s => String.eqb s key
                      | _ => false
                      end) items)
  | JStr s => inl (Worker.contains key s)
  | _ => inr PyTypeError
  end.

(** [v[key]] for a string [key]. *)
Definition py_getitem (v : JSON) (key : string) : JSON + pyexn :=
  match v with
  | JDict entries =>
      match dict_get entries key with
      | Some x => inl x
      | None => inr PyKeyError
      end
  | _ => inr PyTypeError
  end.

(** [len(v)] *)
Definition py_len (v : JSON) : nat + pyexn :=
  match v with
  | JStr s => inl (String.length s)
  | JList items => inl (List.length items)
  | JDict entries => inl (List.length entries)
  | _ => inr PyTypeError
  end.

(** [isinstance(v, (int, float))]; [bool] is a subclass of [int]. *)
Definition is_number (v : JSON) : bool :=
  match v with
  | JNum _ | JBool _ | JNonFinite _ => true
  | _ => false
  end.

(** The number a finite value counts as in a comparison, for a value that
    passes [is_number]. *)
Definition number_value (v : JSON) : Q :=
  match v with
  | JNum q => q
  | JBool true => 1
  | _ => 0
  end.

(** [v < c], [v > c] and [v <= c] for a value that passes [is_number] and a
    finite constant [c]: every comparison with NaN is false. *)
Definition less_than (v : JSON) (c : Q) : bool :=
  match v with
  | JNonFinite MinusInfinity => true
  | JNonFinite _ => false
  | _ => ltb (number_value v) c
  end.

Definition greater_than (v : JSON) (c : Q) : bool :=
  match v with
  | JNonFinite Infinity => true
  | JNonFinite _ => false
  | _ => ltb c (number_value v)
  end.

Definition at_most (v : JSON) (c : Q) : bool :=
  match v with
  | JNonFinite MinusInfinity => true
  | JNonFinite _ => false
  | _ => negb (ltb c (number_value v))
  end.

(** [f"{v:.4f}"] for a value that passes [is_number]: an [int] is converted
    to a float first, which raises [OverflowError] beyond the float range.
    The text itself is not modelled. *)
Definition format_4f (v : JSON) : unit + pyexn :=
  match v with
  | JNum q =>
      match round_binary64 q with
      | Some _ => inl tt
      | None => inr PyOverflowError
      end
  | _ => inl tt
  end.

(** [v != n] for an [int] literal [n]. *)
Definition differs_from_int (v : JSON) (n : Z) : bool :=
  match v with
  | JNum _ | JBool _ => negb (Qeq_bool (number_value v) (inject_Z n))
  | _ => true
  end.

(** The items a [for] loop over [v] visits: the items of a list, the keys of
    a dict, the characters of a string. *)
Definition py_iter (v : JSON) : list JSON + pyexn :=
  match v with
  | JList items => inl items
  | JDict entries => inl (map (fun e => JStr (fst e)) entries)
  | JStr s => inl (map (fun c => JStr (String c EmptyString)) (list_ascii_of_string s))
  | _ => inr PyTypeError
  end.

End Doc.


(** ** EXO_01_VALIDATOR.py *)

Module Validator.

Import Py Doc.

(** A logged message: its template with the frame and key it names.  The
    frame number is the value read from the document. *)
Inductive Message :=
| MouthRatioNone (frame_num : JSON)
| MouthRatioNotNumber (frame_num : JSON)
| MouthRatioOutOfRange (frame_num : JSON)
| PoseEmpty (frame_num : JSON)
| PoseNotList (frame_num : JSON)
| PoseCount (frame_num : JSON) (count : nat)
| PoseMissingKey (frame_num : JSON) (idx : nat) (key : string)
| CameraEmpty (frame_num : JSON)
| FpsMissing (frame_num : JSON)
| FpsNotNumber (frame_num : JSON)
| FpsInvalid (frame_num : JSON)
| ResolutionIncomplete (frame_num : JSON)
| FaceEmpty (frame_num : JSON)
| FaceMissingKey (frame_num : JSON) (key : string)
| UpperLipId (frame_num : JSON)
| LowerLipId (frame_num : JSON)
| TopKeyMissing (key : string)
| FramesNotList
| FaceMissing (frame_num : JSON)
| PoseMissing (frame_num : JSON)
| CameraMissing (frame_num : JSON)
| NoFrames.

(** [self.errors], [self.warnings] and [self.success_count]. *)
Record Log := mkLog {
  errors : list Message;
  warnings : list Message;
  success_count : nat
}.

(** A method of the validator: it returns a value or ends with an exception,
    and leaves a log. *)
Definition V (A : Type) : Type := Log -> (A + pyexn) * Log.

Definition ret {A} (a : A) : V A := fun log => (inl a, log).

Definition bind {A B} (m : V A) (k : A -> V B) : V B :=
  fun log =>
    match m log with
    | (inl a, log') => k a log'
    | (inr e, log') => (inr e, log')
    end.

Notation "x <- m ;; k" := (bind m (fun x => k))
  (at level 100, m at next level, right associativity).
Notation "m ;; k" := (bind m (fun _ => k))
  (at level 100, right associativity).

(** The result of a Python operation, an exception propagating. *)
Definition lift {A} (r : A + pyexn) : V A := fun log => (r, log).

Definition log_error (message : Message) : V unit :=
  fun log => (inl tt, mkLog (errors log ++ [message]) (warnings log)
                            (success_count log)).

Definition log_warning (message : Message) : V unit :=
  fun log => (inl tt, mkLog (errors log) (warnings log ++ [message])
                            (success_count log)).

Definition log_success : V unit :=
  fun log => (inl tt, mkLog (errors log) (warnings log)
                            (S (success_count log))).

Definition validate_mouth_open_ratio (ratio frame_num : JSON) : V bool :=
  match ratio with
  | JNull => log_error (MouthRatioNone frame_num) ;; ret false
  | _ =>
      if negb (is_number ratio) then
        log_error (MouthRatioNotNumber frame_num) ;; ret false
      else if less_than ratio 0 || greater_than ratio 1 then
        lift (format_4f ratio) ;;
        log_error (MouthRatioOutOfRange frame_num) ;; ret false
      else ret true
  end.

Definition required_landmark_keys : list string :=
  [ "x"; "y"; "z"; "visibility"; "landmark_id" ]%string.

(** The loop over [required_keys] for one landmark. *)
Fixpoint check_landmark_keys (frame_num : JSON) (idx : nat) (landmark : JSON)
    (keys : list string) : V bool :=
  match keys with
  | [] => ret true
  | key :: rest =>
      present <- lift (py_in key landmark) ;;
      if present then check_landmark_keys frame_num idx landmark rest
      else log_error (PoseMissingKey frame_num idx key) ;; ret false
  end.

(** The loop over [enumerate(all_landmarks)], from index [idx]. *)
Fixpoint check_landmarks (frame_num : JSON) (idx : nat) (landmarks : list JSON)
  : V bool :=
  match landmarks with
  | [] => ret true
  | landmark :: rest =>
      ok <- check_landmark_keys frame_num idx landmark required_landmark_keys ;;
      if ok then check_landmarks frame_num (S idx) rest else ret false
  end.

Definition validate_pose_landmarks (pose_landmarks frame_num : JSON) : V bool :=
  if negb (truthy pose_landmarks) then
    log_warning (PoseEmpty frame_num) ;; ret false
  else
    all_landmarks <- lift (py_get pose_landmarks "all_33_landmarks" (JList [])) ;;
    match all_landmarks with
    | JList items =>
        let count := List.length items in
        if negb (count =? 33)%nat then
          log_error (PoseCount frame_num count) ;; ret false
        else check_landmarks frame_num 0 items
    | _ => log_error (PoseNotList frame_num) ;; ret false
    end.

Definition validate_camera_metadata (camera_metadata frame_num : JSON) : V bool :=
  if negb (truthy camera_metadata) then
    log_error (CameraEmpty frame_num) ;; ret false
  else
    has_fps <- lift (py_in "fps" camera_metadata) ;;
    if negb has_fps then log_error (FpsMissing frame_num) ;; ret false
    else
      fps <- lift (py_getitem camera_metadata "fps") ;;
      if negb (is_number fps) then
        log_error (FpsNotNumber frame_num) ;; ret false
      else
        (if at_most fps 0
         then log_warning (FpsInvalid frame_num) else ret tt) ;;
        has_resolution <- lift (py_in "resolution" camera_metadata) ;;
        (if has_resolution then
           resolution <- lift (py_getitem camera_metadata "resolution") ;;
           has_width <- lift (py_in "width" resolution) ;;
           if negb has_width then log_warning (ResolutionIncomplete frame_num)
           else
             has_height <- lift (py_in "height" resolution) ;;
             if negb has_height
             then log_warning (ResolutionIncomplete frame_num)
             else ret tt
         else ret tt) ;;
        ret true.

Definition required_face_keys : list string :=
  [ "upper_lip_center"; "lower_lip_center"; "mouth_open_ratio" ]%string.

Fixpoint check_face_keys (frame_num : JSON) (face_landmarks : JSON)
    (keys : list string) : V bool :=
  match keys with
  | [] => ret true
  | key :: rest =>
      present <- lift (py_in key face_landmarks) ;;
      if present then check_face_keys frame_num face_landmarks rest
      else log_error (FaceMissingKey frame_num key) ;; ret false
  end.

(** The check of one lip centre: a value that is not empty must carry the
    expected [landmark_id]. *)
Definition check_lip (lip : JSON) (expected : Z) (message : Message) : V bool :=
  if truthy lip then
    landmark_id <- lift (py_get lip "landmark_id" JNull) ;;
    if differs_from_int landmark_id expected
    then log_error message ;; ret false
    else ret true
  else ret true.

Definition validate_face_landmarks (face_landmarks frame_num : JSON) : V bool :=
  if negb (truthy face_landmarks) then
    log_warning (FaceEmpty frame_num) ;; ret false
  else
    present <- check_face_keys frame_num face_landmarks required_face_keys ;;
    if negb present then ret false
    else
      ratio <- lift (py_getitem face_landmarks "mouth_open_ratio") ;;
      ratio_ok <- validate_mouth_open_ratio ratio frame_num ;;
      if negb ratio_ok then ret false
      else
        upper_lip <- lift (py_get face_landmarks "upper_lip_center" JNull) ;;
        upper_ok <- check_lip upper_lip 13 (UpperLipId frame_num) ;;
        if negb upper_ok then ret false
        else
          lower_lip <- lift (py_get face_landmarks "lower_lip_center" JNull) ;;
          check_lip lower_lip 14 (LowerLipId frame_num).

(** One of the three blocks of a frame: validated when present, otherwise
    reported (an error for the camera metadata, a warning for the others). *)
Definition check_block (frame : JSON) (key : string)
    (validate : JSON -> V bool) (missing : V bool) (valid : bool) : V bool :=
  present <- lift (py_in key frame) ;;
  if present then
    block <- lift (py_getitem frame key) ;;
    ok <- validate block ;;
    ret (if ok then valid else false)
  else
    missing_valid <- missing ;;
    ret (if missing_valid then valid else false).

(** The loop over [enumerate(frames)], from index [idx], with the running
    value of [valid]. *)
Fixpoint frames_loop (idx : nat) (frames : list JSON) (valid : bool) : V bool :=
  match frames with
  | [] => ret valid
  | frame :: rest =>
      frame_num <- lift (py_get frame "frame_number"
                                (JNum (inject_Z (Z.of_nat idx)))) ;;
      valid <- check_block frame "face_landmarks"
                 (fun block => validate_face_landmarks block frame_num)
                 (log_warning (FaceMissing frame_num) ;; ret true) valid ;;
      valid <- check_block frame "pose_landmarks"
                 (fun block => validate_pose_landmarks block frame_num)
                 (log_warning (PoseMissing frame_num) ;; ret true) valid ;;
      valid <- check_block frame "camera_metadata"
                 (fun block => validate_camera_metadata block frame_num)
                 (log_error (CameraMissing frame_num) ;; ret false) valid ;;
      frames_loop (S idx) rest valid
  end.

Definition required_top_keys : list string := [ "session_id"; "timestamp" ]%string.

Fixpoint check_top_keys (data : JSON) (keys : list string) (valid : bool)
  : V bool :=
  match keys with
  | [] => ret valid
  | key :: rest =>
      present <- lift (py_in key data) ;;
      if present then check_top_keys data rest valid
      else log_error (TopKeyMissing key) ;; check_top_keys data rest false
  end.

Definition validate_json_structure (data : JSON) : V bool :=
  valid <- check_top_keys data required_top_keys true ;;
  has_frames <- lift (py_in "frames" data) ;;
  if has_frames then
    frames <- lift (py_getitem data "frames") ;;
    match frames with
    | JList items => log_success ;; frames_loop 0 items valid
    | _ => log_error FramesNotList ;; ret false
    end
  else log_warning NoFrames ;; ret valid.

End Validator.


(** ** EXO_01_DNA_SCANNER.py: the document written by [save_output] *)

Module ScannerOutput.

Import Py Scanner Doc.

Definition int_json (n : Z) : JSON := JNum (inject_Z n).

(** The landmark dicts built by [extract_pose_landmarks]. *)
Definition pose_landmark_json (l : LandmarkDict) : JSON :=
  JDict [ ("x", JNum (ld_x l)); ("y", JNum (ld_y l)); ("z", JNum (ld_z l));
          ("visibility", JNum (ld_visibility l));
          ("landmark_id", int_json (Z.of_nat (ld_landmark_id l))) ]%string.

(** The dict returned by [extract_pose_landmarks]. *)
Definition pose_data_json (all_landmarks : list LandmarkDict) : JSON :=
  JDict [ ("all_33_landmarks", JList (map pose_landmark_json all_landmarks)) ]%string.

(** The landmark dicts built by [extract_face_landmarks]: no visibility. *)
Definition face_landmark_json (l : LandmarkDict) : JSON :=
  JDict [ ("x", JNum (ld_x l)); ("y", JNum (ld_y l)); ("z", JNum (ld_z l));
          ("landmark_id", int_json (Z.of_nat (ld_landmark_id l))) ]%string.

Definition lip_json (lip : option Vec3) (landmark_id : nat) : JSON :=
  match lip with
  | Some v =>
      JDict [ ("x", JNum (v_x v)); ("y", JNum (v_y v)); ("z", JNum (v_z v));
              ("landmark_id", int_json (Z.of_nat landmark_id)) ]%string
  | None => JNull
  end.

(** The dict returned by [extract_face_landmarks]. *)
Definition face_data_json (face_data : FaceData) : JSON :=
  JDict [ ("upper_lip_center",
           lip_json (upper_lip_center face_data) UPPER_LIP_CENTER_ID);
          ("lower_lip_center",
           lip_json (lower_lip_center face_data) LOWER_LIP_CENTER_ID);
          ("mouth_open_ratio", JNum (mouth_open_ratio face_data));
          ("all_468_landmarks",
           JList (map face_landmark_json (all_468_landmarks face_data))) ]%string.

Definition pose_frame_json (pf : PoseFrame) : JSON :=
  JDict [ ("frame_number", int_json (pf_frame_number pf));
          ("timestamp", JStr (pf_timestamp pf));
          ("landmarks", JList (map pose_landmark_json (pf_landmarks pf)));
          ("center_x", JNum (pf_center_x pf)) ]%string.

Definition mouth_frame_json (mf : MouthFrame) : JSON :=
  JDict [ ("frame_number", int_json (mf_frame_number mf));
          ("timestamp", JStr (mf_timestamp mf));
          ("mouth_open_ratio", JNum (mf_mouth_open_ratio mf)) ]%string.

Definition actor_json (a : ActorData) : JSON :=
  JDict [ ("pose_frames", JList (map pose_frame_json (pose_frames a)));
          ("mouth_frames", JList (map mouth_frame_json (mouth_frames a))) ]%string.

Definition optical_flow_json (fl : OpticalFlow) : JSON :=
  JDict [ ("magnitude", JNum (of_magnitude fl));
          ("angle", JNum (of_angle fl));
          ("flow_vectors",
           JList (map (fun v => JList [ JNum (fst v); JNum (snd v) ])
                      (of_flow_vectors fl))) ]%string.

Definition camera_sample_json (cs : CameraSample) : JSON :=
  JDict [ ("frame_number", int_json (cs_frame_number cs));
          ("timestamp", JStr (cs_timestamp cs));
          ("optical_flow", optical_flow_json (cs_optical_flow cs)) ]%string.

(** Lines 396-414 of [process_video]: [self.video_metadata]. *)
Definition video_metadata (session_id source_video : string) (fps : Q)
    (width height total_frames : Z) (created_at : string) : dict JSON :=
  [ ("session_id", JStr session_id);
    ("source_video", JStr source_video);
    ("fps", JNum fps);
    ("resolution",
     JDict [ ("width", int_json width); ("height", int_json height) ]);
    ("total_frames", int_json total_frames);
    ("duration_seconds",
     JNum (if ltb 0 fps then inject_Z total_frames / fps else 0));
    ("created_at", JStr created_at);
    ("pose_model", JStr "pose_landmarker_heavy") ]%string.

(** [save_output]: the document dumped to mission_RAW.json.
    [video_metadata] is [self.video_metadata] (the empty dict before
    [process_video]), [audio_transcription] the dict kept from Whisper. *)
Definition save_output (video_metadata : dict JSON) (s : State)
    (audio_transcription : JSON) (generated_at : string) : JSON :=
  JDict
    [ ("metadata",
       JDict (dict_set
                (dict_set video_metadata "max_actors_detected"
                          (int_json (Z.of_nat (max_actors_detected s))))
                "generated_at" (JStr generated_at)));
      ("camera_motion", JList (map camera_sample_json (camera_motion s)));
      ("actors",
       JDict (map (fun e => (fst e, actor_json (snd e))) (actors_data s)));
      ("audio_transcription_global", audio_transcription) ]%string.

End ScannerOutput.


(** ** EXO_02_CORTEX_ADAPTER.py *)

Module Cortex.

Import Py Doc.

(** Sequencing of operations that may raise. *)
Definition and_then {A B} (r : A + pyexn) (k : A -> B + pyexn) : B + pyexn :=
  match r with
  | inl a => k a
  | inr e => inr e
  end.

Notation "x <- m ;; k" := (and_then m (fun x => k))
  (at level 100, m at next level, right associativity).

(** [BRAIN_ROT_DICT], in insertion order. *)
Definition BRAIN_ROT_DICT : list (string * string) :=
  [ ("Good", "Sigma"); ("good", "sigma"); ("GOOD", "SIGMA");
    ("Amazing", "Rizzler"); ("amazing", "rizzler"); ("AMAZING", "RIZZLER");
    ("Scary", "Cooked"); ("scary", "cooked"); ("SCARY", "COOKED");
    ("Fail", "L"); ("fail", "L"); ("FAIL", "L");
    ("Win", "W"); ("win", "W"); ("WIN", "W");
    ("Crazy", "Ohio"); ("crazy", "ohio"); ("CRAZY", "OHIO") ]%string.

(** [empty_speech_payload] *)
Definition empty_speech_payload (now : string) : JSON :=
  JDict [ ("original_text", JStr ""); ("viral_text", JStr "");
          ("transformation_applied", JBool false);
          ("timestamp", JStr now); ("mode", JStr "SILENT") ]%string.

(** [s.replace(old, new)] for a non-empty [old]: the occurrences are taken
    from the left and do not overlap.  [skip] counts the characters of a
    replaced occurrence still to be passed over. *)
Fixpoint replace_from (skip : nat) (old new s : string) : string :=
  match s with
  | EmptyString => EmptyString
  | String c rest =>
      match skip with
      | S k => replace_from k old new rest
      | O =>
          if String.prefix old s
          then (new ++ replace_from (String.length old - 1) old new rest)%string
          else String c (replace_from 0 old new rest)
      end
  end.

Definition replace (old new s : string) : string := replace_from 0 old new s.

(** Lines 299-303: the text of the first frame that has one. *)
Fixpoint first_transcription (frames : list JSON) : JSON + pyexn :=
  match frames with
  | [] => inl (JStr "")
  | frame :: rest =>
      audio <- py_get frame "audio_transcription" JNull ;;
      if truthy audio then
        text <- py_get audio "text" JNull ;;
        if truthy text then py_get audio "text" (JStr "")
        else first_transcription rest
      else first_transcription rest
  end.

(** Lines 310-312: the replacements, one after the other; [replace] is a
    method of strings only. *)
Definition brain_rot (original_text : JSON) : string + pyexn :=
  match original_text with
  | JStr s =>
      inl (fold_left (fun viral_text entry =>
                        replace (fst entry) (snd entry) viral_text)
                     BRAIN_ROT_DICT s)
  | _ => inr PyAttributeError
  end.

(** [transfigure_script].  [data] is the document read from [raw_data_path],
    an exception when the file cannot be read; [exception_text] gives the
    text of an exception. *)
Definition transfigure_script (exception_text : pyexn -> string)
    (data : JSON + pyexn) (now : string) : JSON :=
  let attempt :=
    data <- data ;;
    frames <- py_get data "frames" (JList []) ;;
    items <- py_iter frames ;;
    original_text <- first_transcription items ;;
    let original_text :=
      if negb (truthy original_text) then JStr "" else original_text in
    viral_text <- brain_rot original_text ;;
    inl (JDict [ ("original_text", original_text);
                 ("viral_text", JStr viral_text);
                 ("transformation_applied", JBool true);
                 ("timestamp", JStr now) ]%string) in
  match attempt with
  | inl payload => payload
  | inr e =>
      JDict [ ("original_text", JStr ""); ("viral_text", JStr "");
              ("transformation_applied", JBool false);
              ("error", JStr (exception_text e)) ]%string
  end.

(** What [compile_mission] reads besides its arguments: the clock at the
    three calls of [datetime.now], the system name, and the content of
    EXO_LIP_SYNC.json ([JNull] when the file is missing or unreadable). *)
Record Environment := mkEnvironment {
  speech_now : string;
  mission_stamp : string;
  timestamp_now : string;
  os_detected : string;
  lip_sync_payload : JSON
}.

(** Lines 493-527: [mouth_output]. *)
Definition mouth_output_of (mode : string) (lip_sync_payload lip_sync_data : JSON)
  : JSON + pyexn :=
  if String.eqb mode "SILENT" then
    inl (JDict [ ("mouthCues", JList []);
                 ("metadata",
                  JDict [ ("status", JStr "silent_default");
                          ("mode", JStr "SILENT");
                          ("default_mouth_open_ratio", JNum 0) ]) ]%string)
  else if truthy lip_sync_payload then
    cues <- py_get lip_sync_payload "mouthCues" (JList []) ;;
    metadata <- py_get lip_sync_payload "metadata" (JDict []) ;;
    inl (JDict [ ("mouthCues", cues); ("metadata", metadata) ]%string)
  else if truthy lip_sync_data then
    cues <- py_get lip_sync_data "mouthCues" (JList []) ;;
    metadata <- py_get lip_sync_data "metadata" (JDict []) ;;
    inl (JDict [ ("mouthCues", cues); ("metadata", metadata) ]%string)
  else
    inl (JDict [ ("mouthCues", JList []);
                 ("metadata",
                  JDict [ ("status", JStr "not_generated");
                          ("mode", JStr mode) ]) ]%string).

(** Lines 480-551: the mission document, with the blocks the closing
    messages measure. *)
Definition mission_document (env : Environment) (raw_data_path : string)
    (seg01_data speech_data lip_sync_data : JSON) (mode : string)
  : (JSON * JSON * JSON * JSON) + pyexn :=
  metadata_raw <- py_get seg01_data "metadata" (JDict []) ;;
  camera_motion <- py_get seg01_data "camera_motion" (JList []) ;;
  actors_block <- py_get seg01_data "actors" (JDict []) ;;
  original_text <- py_get speech_data "original_text" (JStr "") ;;
  viral_text <- py_get speech_data "viral_text" (JStr "") ;;
  transformation_applied <-
    py_get speech_data "transformation_applied" (JBool false) ;;
  timestamp <- py_get speech_data "timestamp" (JStr (speech_now env)) ;;
  let speech_output :=
    JDict [ ("original_text", original_text); ("viral_text", viral_text);
            ("transformation_applied", transformation_applied);
            ("timestamp", timestamp) ]%string in
  mouth_output <- mouth_output_of mode (lip_sync_payload env) lip_sync_data ;;
  mouth_metadata <- py_get mouth_output "metadata" (JDict []) ;;
  lip_sync_status <- py_get mouth_metadata "status" (JStr "silent_default") ;;
  inl (JDict
         [ ("metadata",
            JDict [ ("mission_id",
                     JStr ("EXO_MISSION_" ++ mission_stamp env));
                    ("language", JStr "en-US");
                    ("os_detected", JStr (os_detected env));
                    ("timestamp", JStr (timestamp_now env));
                    ("source_segment01", JStr raw_data_path);
                    ("mode", JStr mode);
                    ("source_metadata", metadata_raw) ]);
           ("camera_motion", camera_motion);
           ("actors", actors_block);
           ("speech", speech_output);
           ("mouth", mouth_output);
           ("global_audio_sync",
            JDict [ ("primary_actor_id", JStr "0");
                    ("lip_sync_status", lip_sync_status) ]) ]%string,
       actors_block, camera_motion, mouth_output).

(** The outcome of [compile_mission]: the document written to
    EXO_MISSION_READY.json, if the call got that far, and the exception
    raised, if any. *)
Record Compiled := mkCompiled {
  written : option JSON;
  raised : option pyexn
}.

(** Lines 559-561: the three measures printed after the file is written. *)
Definition closing_messages (actors_block camera_motion mouth_output : JSON)
  : unit + pyexn :=
  _ <- match actors_block with
       | JDict entries => inl (List.length entries)
       | _ => inr PyAttributeError
       end ;;
  _ <- py_len camera_motion ;;
  cues <- py_get mouth_output "mouthCues" (JList []) ;;
  _ <- py_len cues ;;
  inl tt.

(** [compile_mission], [seg01_data] being the document read from
    [raw_data_path]. *)
Definition compile_mission (env : Environment) (raw_data_path : string)
    (seg01_data : JSON + pyexn) (speech_data lip_sync_data : JSON)
    (mode : string) : Compiled :=
  match (seg01_data <- seg01_data ;;
         mission_document env raw_data_path seg01_data speech_data
                          lip_sync_data mode) with
  | inr e => mkCompiled None (Some e)
  | inl (mission_data, actors_block, camera_motion, mouth_output) =>
      mkCompiled (Some mission_data)
                 (match closing_messages actors_block camera_motion
                                         mouth_output with
                  | inl _ => None
                  | inr e => Some e
                  end)
  end.

End Cortex.


(** ** Auxiliary definitions for the validator and the mission compiler *)

Module ValidatorAux.

Import Py Doc Validator.

(** The log after a call extends the log before it: errors and warnings are
    only appended and the success count does not decrease. *)
Definition extends (log log' : Log) : Prop :=
  (exists more, errors log' = errors log ++ more)
  /\ (exists more, warnings log' = warnings log ++ more)
  /\ (success_count log <= success_count log')%nat.

(** A step that logs no error. *)
Definition silent {A} (m : V A) : Prop :=
  forall log, extends log (snd (m log)) /\ errors (snd (m log)) = errors log.

(** A check that returns [True] only if it logged no error. *)
Definition sound (m : V bool) : Prop :=
  forall log,
    extends log (snd (m log))
    /\ (fst (m log) = inl true -> errors (snd (m log)) = errors log).

(** A step that computes the flag [valid] from its value before the step:
    it returns [True] only if the flag was [True] and it logged no error. *)
Definition flagged (valid : bool) (m : V bool) : Prop :=
  forall log,
    extends log (snd (m log))
    /\ (fst (m log) = inl true ->
        valid = true /\ errors (snd (m log)) = errors log).

(** The values the ratio check accepts: a finite number between 0 and 1
    inclusive, a boolean (the number 0 or 1), and the float NaN, which is
    neither below 0 nor above 1. *)
Definition accepted_ratio (ratio : JSON) : Prop :=
  match ratio with
  | JNum q => 0 <= q <= 1
  | JBool _ => True
  | JNonFinite NaN => True
  | _ => False
  end.

(** A number beyond the float range, which can only be an [int]. *)
Definition beyond_float_range (ratio : JSON) : Prop :=
  match ratio with
  | JNum q => round_binary64 q = None
  | _ => False
  end.

(** A document in the frame schema the validator reads, with one frame whose
    pose block is empty. *)
Definition frame_with_empty_pose : JSON :=
  JDict [ ("session_id", JStr "EXO_SESSION_1");
          ("timestamp", JStr "t");
          ("frames",
           JList [ JDict [ ("frame_number", JNum 0);
                           ("pose_landmarks", JDict []);
                           ("camera_metadata", JDict [ ("fps", JNum 30) ]) ] ])
        ]%string.

End ValidatorAux.


Module CortexAux.

Import Py Doc Cortex.

(** The top-level keys of a mission document, in order. *)
Definition mission_keys : list string :=
  [ "metadata"; "camera_motion"; "actors"; "speech"; "mouth";
    "global_audio_sync" ]%string.

(** The mouth block of a silent mission. *)
Definition silent_mouth : JSON :=
  JDict [ ("mouthCues", JList []);
          ("metadata",
           JDict [ ("status", JStr "silent_default");
                   ("mode", JStr "SILENT");
                   ("default_mouth_open_ratio", JNum 0) ]) ]%string.

(** A Rhubarb result: cues, and a metadata block without ["status"]. *)
Definition rhubarb_result : JSON :=
  JDict [ ("metadata",
           JDict [ ("soundFile", JStr "EXO_VOICE_FINAL.mp3");
                   ("duration", JNum (3#2)) ]);
          ("mouthCues",
           JList [ JDict [ ("start", JNum 0); ("end", JNum (1#2));
                           ("value", JStr "X") ];
                   JDict [ ("start", JNum (1#2)); ("end", JNum (3#2));
                           ("value", JStr "C") ] ]) ]%string.

(** The mouth block compiled from [rhubarb_result]. *)
Definition rhubarb_mouth : JSON :=
  JDict [ ("mouthCues",
           JList [ JDict [ ("start", JNum 0); ("end", JNum (1#2));
                           ("value", JStr "X") ];
                   JDict [ ("start", JNum (1#2)); ("end", JNum (3#2));
                           ("value", JStr "C") ] ]);
          ("metadata",
           JDict [ ("soundFile", JStr "EXO_VOICE_FINAL.mp3");
                   ("duration", JNum (3#2)) ]) ]%string.

Definition example_environment (lip_sync_payload : JSON) : Environment :=
  mkEnvironment "2026-01-01T00:00:00+00:00" "20260101_000000"
                "2026-01-01T00:00:01+00:00" "Linux" lip_sync_payload.

(** A small dataset in the scanner's layout. *)
Definition example_dataset : JSON :=
  JDict [ ("metadata", JDict [ ("fps", JNum 30) ]);
          ("camera_motion", JList []);
          ("actors", JDict []);
          ("audio_transcription_global",
           JDict [ ("text", JStr "Good win") ]) ]%string.

(** The mission compiled from [example_dataset] in DRAMA mode when no
    lip-sync data is at hand. *)
Definition example_drama_mission : JSON :=
  JDict [ ("metadata",
           JDict [ ("mission_id", JStr "EXO_MISSION_20260101_000000");
                   ("language", JStr "en-US");
                   ("os_detected", JStr "Linux");
                   ("timestamp", JStr "2026-01-01T00:00:01+00:00");
                   ("source_segment01", JStr "mission_RAW.json");
                   ("mode", JStr "DRAMA");
                   ("source_metadata", JDict [ ("fps", JNum 30) ]) ]);
          ("camera_motion", JList []);
          ("actors", JDict []);
          ("speech",
           JDict [ ("original_text", JStr ""); ("viral_text", JStr "");
                   ("transformation_applied", JBool false);
                   ("timestamp", JStr "now") ]);
          ("mouth",
           JDict [ ("mouthCues", JList []);
                   ("metadata",
                    JDict [ ("status", JStr "not_generated");
                            ("mode", JStr "DRAMA") ]) ]);
          ("global_audio_sync",
           JDict [ ("primary_actor_id", JStr "0");
                   ("lip_sync_status", JStr "not_generated") ]) ]%string.

(** The mission compiled from [example_dataset] in DRAMA mode when
    EXO_LIP_SYNC.json holds [rhubarb_result]. *)
Definition example_rhubarb_mission : JSON :=
  JDict [ ("metadata",
           JDict [ ("mission_id", JStr "EXO_MISSION_20260101_000000");
                   ("language", JStr "en-US");
                   ("os_detected", JStr "Linux");
                   ("timestamp", JStr "2026-01-01T00:00:01+00:00");
                   ("source_segment01", JStr "mission_RAW.json");
                   ("mode", JStr "DRAMA");
                   ("source_metadata", JDict [ ("fps", JNum 30) ]) ]);
          ("camera_motion", JList []);
          ("actors", JDict []);
          ("speech",
           JDict [ ("original_text", JStr ""); ("viral_text", JStr "");
                   ("transformation_applied", JBool false);
                   ("timestamp", JStr "now") ]);
          ("mouth", rhubarb_mouth);
          ("global_audio_sync",
           JDict [ ("primary_actor_id", JStr "0");
                   ("lip_sync_status", JStr "silent_default") ]) ]%string.

(** Whether a value is a JSON object. *)
Definition is_object (v : JSON) : bool :=
  match v with
  | JDict _ => true
  | _ => false
  end.

(** The inputs with which the mission of a dataset that is an object gets
    written: the speech payload is an object, the lip-sync source in use
    (none in SILENT mode, else the payload of the file or [lip_sync_data],
    whichever is truthy first) is an object, and so is the ["metadata"] of
    the mouth block. *)
Definition mission_gets_written (env : Environment)
    (speech_data lip_sync_data : JSON) (mode : string) : bool :=
  is_object speech_data
  && match mouth_output_of mode (lip_sync_payload env) lip_sync_data with
     | inl mouth_output =>
         match py_get mouth_output "metadata" (JDict []) with
         | inl metadata => is_object metadata
         | inr _ => false
         end
     | inr _ => false
     end.


End CortexAux.


(** ** EXO_01_DNA_SCANNER.py: the sampling of the optical flow *)

Module FlowSampling.

Import Py.

(** Python's [range(0, stop, step)] for a positive [step]. *)
Definition py_range_step (stop step : Z) : list Z :=
  map (fun i => (Z.of_nat i * step)%Z)
      (seq 0 (Z.to_nat ((stop + step - 1) / step))).

(** Line 310 of [calculate_optical_flow]:
    [step = max(1, min(h, w) // 20)]. *)
Definition sampling_step (h w : Z) : Z := Z.max 1 (Z.min h w / 20).

(** Lines 311-315: the positions [(y, x)] visited by the two nested loops,
    in order. *)
Definition sample_positions (h w : Z) : list (Z * Z) :=
  let step := sampling_step h w in
  flat_map (fun y => map (fun x => (y, x)) (py_range_step w step))
           (py_range_step h step).

(** [flow_vectors]: the flow read at each position, [flow y x] standing for
    [flow[y, x]]. *)
Definition flow_vectors (flow : Z -> Z -> Q * Q) (h w : Z) : list (Q * Q) :=
  map (fun p => flow (fst p) (snd p)) (sample_positions h w).

End FlowSampling.


(** * Properties *)

(** ** Facts about the Python operations *)

Module PyFacts.

Import Py.

Lemma ltb_spec (a b : Q) : ltb a b = true <-> a < b.
Proof. unfold ltb, Qlt. apply Z.ltb_lt. Qed.

Lemma ltb_false (a b : Q) : ltb a b = false <-> b <= a.
Proof. unfold ltb, Qle. rewrite Z.ltb_ge. reflexivity. Qed.

(** A positive fraction that is at most 1 is rounded at a negative
    exponent. *)
Lemma binary64_exponent_small (n d : Z) :
  (0 < n <= d)%Z -> (binary64_exponent n d < 0)%Z.
Proof.
  intros H. unfold binary64_exponent.
  pose proof (Z.log2_le_mono n d (proj2 H)) as Hl.
  cbv zeta.
  match goal with
  | |- (Z.max ((if ?c then _ else _) - 52) _ < 0)%Z => destruct c
  end; lia.
Qed.

(** Rounding a number between 0 and 1 does not overflow. *)
Lemma round_binary64_unit (q : Q) : 0 <= q <= 1 -> round_binary64 q <> None.
Proof.
  destruct q as [n d]. unfold Qle. cbn [Qnum Qden]. intros [H0 H1].
  unfold round_binary64. cbn [Qnum].
  destruct n as [|n|n]; [discriminate| |lia].
  unfold round_positive. cbn [Qden].
  pose proof (binary64_exponent_small (Zpos n) (Zpos d)) as He.
  destruct (0 <=? binary64_exponent (Zpos n) (Zpos d))%Z eqn:E;
    [|discriminate].
  apply Z.leb_le in E. lia.
Qed.

Lemma py_min_le_r (a b : Q) : py_min a b <= b.
Proof.
  unfold py_min. destruct (ltb b a) eqn:E.
  - apply Qle_refl.
  - apply ltb_false in E. exact E.
Qed.

Lemma py_min_ge (a b c : Q) : c <= a -> c <= b -> c <= py_min a b.
Proof. intros Ha Hb. unfold py_min. destruct (ltb b a); assumption. Qed.

Lemma in_py_range (a b x : Z) : In x (py_range a b) <-> (a <= x < b)%Z.
Proof.
  unfold py_range. rewrite in_map_iff. split.
  - intros [i [<- Hi]]. apply in_seq in Hi. lia.
  - intros H. exists (Z.to_nat (x - a)). split; [lia|].
    apply in_seq. lia.
Qed.

End PyFacts.

(** ** The scanner *)

Module ScannerFacts.

Import Py PyFacts Scanner ScannerAux.

(** One call of [calculate_mouth_open_ratio]: the ratio lies in [0, 1]. *)
Lemma ratio_in_unit_interval (u l : option Vec3) (m : Q) :
  0 <= fst (calculate_mouth_open_ratio u l m) <= 1.
Proof.
  unfold calculate_mouth_open_ratio.
  destruct u as [u|]; [destruct l as [l|]|]; cbn [fst];
    try (split; [apply Qle_refl | discriminate]).
  set (vd := Qabs (v_y u - v_y l)).
  set (m' := if ltb m vd then vd else m).
  destruct (ltb 0 m') eqn:Hpos.
  - apply ltb_spec in Hpos. split.
    + apply py_min_ge; [|discriminate].
      unfold Qdiv. apply Qmult_le_0_compat.
      * apply Qabs_nonneg.
      * apply Qinv_le_0_compat, Qlt_le_weak, Hpos.
    + apply py_min_le_r.
  - split; [apply Qle_refl | discriminate].
Qed.

(** One call never lowers [max_mouth_distance]. *)
Lemma max_never_decreases (u l : option Vec3) (m : Q) :
  m <= snd (calculate_mouth_open_ratio u l m).
Proof.
  unfold calculate_mouth_open_ratio.
  destruct u as [u|]; [destruct l as [l|]|]; cbn [snd]; try apply Qle_refl.
  destruct (ltb m (Qabs (v_y u - v_y l))) eqn:E.
  - apply ltb_spec in E. apply Qlt_le_weak, E.
  - apply Qle_refl.
Qed.

(** A missing lip point, or a maximum that is still 0 after the update, gives
    the ratio [0.0]. *)
Lemma ratio_zero_cases (u l : option Vec3) (m : Q) :
  u = None \/ l = None \/ snd (calculate_mouth_open_ratio u l m) == 0 ->
  fst (calculate_mouth_open_ratio u l m) = 0.
Proof.
  unfold calculate_mouth_open_ratio.
  intros [-> | [-> | H]]; [reflexivity | destruct u; reflexivity |].
  destruct u as [u|]; [destruct l as [l|]|]; try reflexivity.
  cbn [fst snd] in *.
  destruct (ltb 0 _) eqn:Hpos; [|reflexivity].
  apply ltb_spec in Hpos. rewrite H in Hpos. discriminate.
Qed.

(** Through [extract_face_landmarks] and the loop that builds [face_infos]:
    the maximum never decreases and every recorded ratio lies in [0, 1]. *)
Lemma collect_face_infos_invariant (faces : list (list Landmark)) :
  forall m : Q,
    m <= snd (collect_face_infos faces m)
    /\ Forall (fun info => 0 <= face_mouth_open_ratio info <= 1)
              (fst (collect_face_infos faces m)).
Proof.
  induction faces as [|face rest IH]; intros m; cbn [collect_face_infos].
  - split; [apply Qle_refl | constructor].
  - unfold extract_face_landmarks.
    set (u := if (UPPER_LIP_CENTER_ID <? List.length face)%nat
              then option_map landmark_array (nth_error face UPPER_LIP_CENTER_ID)
              else None).
    set (l := if (LOWER_LIP_CENTER_ID <? List.length face)%nat
              then option_map landmark_array (nth_error face LOWER_LIP_CENTER_ID)
              else None).
    pose proof (max_never_decreases u l m) as Hmax.
    pose proof (ratio_in_unit_interval u l m) as Hratio.
    destruct (IH (snd (calculate_mouth_open_ratio u l m))) as [Hm Hall].
    destruct (collect_face_infos rest (snd (calculate_mouth_open_ratio u l m)))
      as [infos m'].
    cbn [fst snd] in Hm, Hall.
    destruct (face_anchor _); cbn [fst snd]; (split; [eapply Qle_trans; eassumption|]).
    + constructor; [exact Hratio | exact Hall].
    + exact Hall.
Qed.

(** Over the frames of a video, [self.max_mouth_distance] never decreases. *)
Lemma process_frames_max_never_decreases (frames : list FrameInput) :
  forall s : State,
    max_mouth_distance s <= max_mouth_distance (process_frames frames s).
Proof.
  unfold process_frames.
  induction frames as [|inp rest IH]; intros s; cbn [fold_left].
  - apply Qle_refl.
  - eapply Qle_trans; [|apply IH].
    unfold process_frame.
    destruct (frame_ranking _ _ _ _) as [actors fap].
    pose proof (collect_face_infos_invariant (fi_faces inp) (max_mouth_distance s))
      as [Hm _].
    destruct (collect_face_infos (fi_faces inp) (max_mouth_distance s))
      as [infos m].
    exact Hm.
Qed.

(** C8.  Along any sequence of calls of [calculate_mouth_open_ratio], started
    from any value of [max_mouth_distance]: every returned ratio lies in
    [0, 1]; the ratio is [0.0] whenever a lip point is missing or the running
    maximum is 0; and the successive values of [max_mouth_distance] never
    decrease, call after call and frame after frame of [process_video]. *)
Theorem mouth_ratio_normalization_invariant :
  forall (inputs : list (option Vec3 * option Vec3)) (m0 : Q),
    Forall (fun r => 0 <= fst r <= 1) (mouth_calls inputs m0)
    /\ Sorted Qle (m0 :: map snd (mouth_calls inputs m0))
    /\ (forall u l m,
          u = None \/ l = None \/ snd (calculate_mouth_open_ratio u l m) == 0 ->
          fst (calculate_mouth_open_ratio u l m) = 0)
    /\ (forall (frames : list FrameInput) (s : State),
          max_mouth_distance s <= max_mouth_distance (process_frames frames s)).
Proof.
  intros inputs m0. split; [|split; [|split]].
  - revert m0. induction inputs as [|[u l] rest IH]; intros m0; cbn.
    + constructor.
    + constructor; [apply ratio_in_unit_interval | apply IH].
  - revert m0. induction inputs as [|[u l] rest IH]; intros m0; cbn.
    + repeat constructor.
    + constructor; [apply IH|].
      constructor. apply max_never_decreases.
  - apply ratio_zero_cases.
  - intros frames s. apply process_frames_max_never_decreases.
Qed.

(** *** Rank identity *)

Lemma str_inj (n m : nat) : str n = str m -> n = m.
Proof.
  unfold str. intros H.
  apply DecimalNat.Unsigned.to_uint_inj.
  assert (E : NilEmpty.uint_of_string (NilEmpty.string_of_uint (Nat.to_uint n))
              = NilEmpty.uint_of_string (NilEmpty.string_of_uint (Nat.to_uint m)))
    by (rewrite H; reflexivity).
  rewrite !NilEmpty.usu in E. congruence.
Qed.

Lemma dict_set_fresh {V} (d : dict V) (k : string) (v : V) :
  ~ In k (map fst d) -> dict_set d k v = d ++ [(k, v)].
Proof.
  induction d as [|[k' v'] rest IH]; cbn; intros Hk.
  - reflexivity.
  - destruct (String.eqb_spec k k') as [->|Hne].
    + exfalso. apply Hk. now left.
    + rewrite IH; [reflexivity|]. intros Hin. apply Hk. now right.
Qed.

Lemma ranked_keys fc ts idx cs :
  map fst (ranked fc ts idx cs) = map str (seq idx (List.length cs)).
Proof.
  revert idx. induction cs as [|[cx lm] rest IH]; intros idx; cbn.
  - reflexivity.
  - now rewrite IH.
Qed.

Lemma ranked_frames fc ts idx cs :
  map (fun e => (pf_center_x (snd e), pf_landmarks (snd e))) (ranked fc ts idx cs)
  = map (fun c => (fst c, extract_pose_landmarks (snd c))) cs.
Proof.
  revert idx. induction cs as [|[cx lm] rest IH]; intros idx; cbn.
  - reflexivity.
  - now rewrite IH.
Qed.

Lemma assign_poses_ranked fc ts cs : forall idx actors fap,
  map fst fap = map str (seq 0 idx) ->
  snd (assign_poses fc ts idx cs actors fap) = fap ++ ranked fc ts idx cs.
Proof.
  induction cs as [|[cx lm] rest IH]; intros idx actors fap Hkeys; cbn.
  - now rewrite app_nil_r.
  - rewrite IH.
    + rewrite dict_set_fresh.
      * now rewrite <- app_assoc.
      * rewrite Hkeys, in_map_iff. intros [j [Hj Hin]].
        apply str_inj in Hj. apply in_seq in Hin. lia.
    + rewrite dict_set_fresh.
      * rewrite map_app, Hkeys, seq_S, map_app. reflexivity.
      * rewrite Hkeys, in_map_iff. intros [j [Hj Hin]].
        apply str_inj in Hj. apply in_seq in Hin. lia.
Qed.

(** Sorting by key *)

Lemma insert_by_key_perm {A} (item : Q * A) (l : list (Q * A)) :
  Permutation (item :: l) (insert_by_key item l).
Proof.
  induction l as [|y rest IH]; cbn.
  - apply Permutation_refl.
  - destruct (ltb (fst y) (fst item)).
    + eapply perm_trans; [apply perm_swap|]. now apply perm_skip.
    + apply Permutation_refl.
Qed.

Lemma sort_by_key_perm {A} (l : list (Q * A)) :
  Permutation l (sort_by_key l).
Proof.
  induction l as [|x rest IH]; cbn.
  - constructor.
  - eapply perm_trans; [|apply insert_by_key_perm]. now apply perm_skip.
Qed.

Lemma insert_by_key_hdrel {A} (a item : Q * A) (l : list (Q * A)) :
  HdRel key_le a l -> key_le a item -> HdRel key_le a (insert_by_key item l).
Proof.
  intros Hl Hi. destruct l as [|y rest]; cbn.
  - now constructor.
  - destruct (ltb (fst y) (fst item)); constructor; [|assumption].
    now inversion Hl.
Qed.

Lemma insert_by_key_sorted {A} (item : Q * A) (l : list (Q * A)) :
  Sorted key_le l -> Sorted key_le (insert_by_key item l).
Proof.
  induction l as [|y rest IH]; cbn; intros Hs.
  - repeat constructor.
  - inversion Hs as [|? ? Hrest Hhd]; subst.
    destruct (ltb (fst y) (fst item)) eqn:E.
    + constructor; [now apply IH|].
      apply insert_by_key_hdrel; [assumption|].
      apply ltb_spec in E. apply Qlt_le_weak, E.
    + apply ltb_false in E.
      constructor; [assumption|]. now constructor.
Qed.

Lemma sort_by_key_sorted {A} (l : list (Q * A)) : Sorted key_le (sort_by_key l).
Proof.
  induction l as [|x rest IH]; cbn.
  - constructor.
  - now apply insert_by_key_sorted.
Qed.

Lemma sorted_map_fst {A} (l : list (Q * A)) :
  Sorted key_le l -> Sorted Qle (map fst l).
Proof.
  induction 1 as [|a l Hs IH Hhd]; cbn; constructor; [assumption|].
  destruct Hhd; cbn; now constructor.
Qed.

Lemma dict_get_set_same {V} (d : dict V) (k : string) (v : V) :
  dict_get (dict_set d k v) k = Some v.
Proof.
  induction d as [|[k' v'] rest IH]; cbn.
  - now rewrite String.eqb_refl.
  - destruct (String.eqb_spec k k') as [->|Hne]; cbn.
    + now rewrite String.eqb_refl.
    + destruct (String.eqb_spec k k'); [contradiction | exact IH].
Qed.

Lemma dict_get_set_other {V} (d : dict V) (k k' : string) (v : V) :
  k <> k' -> dict_get (dict_set d k v) k' = dict_get d k'.
Proof.
  intros Hne. induction d as [|[k0 v0] rest IH]; cbn.
  - destruct (String.eqb_spec k' k); [congruence | reflexivity].
  - destruct (String.eqb_spec k k0) as [->|Hk]; cbn.
    + destruct (String.eqb_spec k' k0); [congruence | reflexivity].
    + destruct (String.eqb_spec k' k0); [reflexivity | exact IH].
Qed.

(** Appending a pose frame for an actor that may be new. *)
Lemma append_after_ensure (actors : dict ActorData) (id : string) (pf : PoseFrame) :
  dict_get (append_pose_frame (ensure_actor actors id) id pf) id
  = Some (mkActorData (pose_frames_of actors id ++ [pf]) (mouth_frames_of actors id)).
Proof.
  unfold append_pose_frame, ensure_actor, pose_frames_of, mouth_frames_of.
  destruct (dict_get actors id) as [a|] eqn:E.
  - rewrite E. now rewrite dict_get_set_same.
  - rewrite dict_get_set_same. now rewrite dict_get_set_same.
Qed.

Lemma append_after_ensure_other (actors : dict ActorData) (id id' : string)
    (pf : PoseFrame) :
  id <> id' ->
  dict_get (append_pose_frame (ensure_actor actors id) id pf) id'
  = dict_get actors id'.
Proof.
  intros Hne. unfold append_pose_frame, ensure_actor.
  destruct (dict_get actors id) as [a|] eqn:E.
  - rewrite E. now apply dict_get_set_other.
  - rewrite dict_get_set_same. rewrite !dict_get_set_other by assumption.
    reflexivity.
Qed.

(** Every ranked detection is appended to the pose frames of its actor. *)
Lemma assign_poses_actors fc ts cs : forall idx actors fap id pf,
  In (id, pf) (ranked fc ts idx cs) ->
  dict_get (fst (assign_poses fc ts idx cs actors fap)) id
  = Some (mkActorData (pose_frames_of actors id ++ [pf]) (mouth_frames_of actors id)).
Proof.
  induction cs as [|[cx lm] rest IH]; intros idx actors fap id pf Hin; cbn in *.
  - contradiction.
  - destruct Hin as [Heq | Hin].
    + inversion Heq; subst id pf; clear Heq.
      assert (Hfar : forall cs' idx' actors' fap',
                 (idx < idx')%nat ->
                 dict_get (fst (assign_poses fc ts idx' cs' actors' fap')) (str idx)
                 = dict_get actors' (str idx)).
      { induction cs' as [|[cx' lm'] rest' IH']; intros idx' actors' fap' Hlt; cbn.
        - reflexivity.
        - rewrite IH' by lia. apply append_after_ensure_other.
          intros Hs. apply str_inj in Hs. lia. }
      rewrite Hfar by lia. apply append_after_ensure.
    + rewrite (IH _ _ _ _ _ Hin).
      assert (Hne : str idx <> id).
      { intros <-.
        assert (Hk : In (str idx) (map fst (ranked fc ts (S idx) rest)))
          by (apply in_map_iff; exists (str idx, pf); auto).
        rewrite ranked_keys, in_map_iff in Hk. destruct Hk as [j [Hj Hs]].
        apply str_inj in Hj. apply in_seq in Hs. lia. }
      unfold pose_frames_of, mouth_frames_of.
      now rewrite append_after_ensure_other.
Qed.

(** C5.  In every frame the pose detections that have an anchor (the
    non-empty ones) are sorted ascending by anchor x and receive the actor IDs
    "0" .. "k-1" in that order: the keys of [frame_actor_pose] are exactly
    [str 0 .. str (k-1)] in rank order, its anchors are ascending, its entries
    are the detections of the frame (same anchors, same landmarks, up to
    order), and each entry is appended to the pose frames of its actor.  For
    the noses at 0.7, 0.1 and 0.4 the result is "0" at 0.1, "1" at 0.4 and
    "2" at 0.7. *)
Theorem per_frame_rank_identity :
  forall (frame_count : Z) (timestamp_iso : string)
         (pose_landmarks_list : list (list Landmark)) (actors : dict ActorData),
    let candidates := pose_candidates pose_landmarks_list in
    let r := frame_ranking frame_count timestamp_iso pose_landmarks_list actors in
    map fst (snd r) = map str (seq 0 (List.length candidates))
    /\ Sorted Qle (map (fun e => pf_center_x (snd e)) (snd r))
    /\ Permutation
         (map (fun e => (pf_center_x (snd e), pf_landmarks (snd e))) (snd r))
         (map (fun c => (fst c, extract_pose_landmarks (snd c))) candidates)
    /\ (forall id pf, In (id, pf) (snd r) ->
          dict_get (fst r) id
          = Some (mkActorData (pose_frames_of actors id ++ [pf])
                              (mouth_frames_of actors id)))
    /\ map id_and_anchor
           (snd (frame_ranking 0 "t" example_poses []))
       = [ ("0"%string, 1#10); ("1"%string, 4#10); ("2"%string, 7#10) ].
Proof.
  intros fc ts poses actors candidates r.
  assert (Hr : snd r = ranked fc ts 0 (sort_by_key candidates)).
  { unfold r, frame_ranking. now rewrite assign_poses_ranked. }
  assert (Hlen : List.length (sort_by_key candidates) = List.length candidates).
  { symmetry. apply Permutation_length, sort_by_key_perm. }
  split; [|split; [|split; [|split]]].
  - now rewrite Hr, ranked_keys, Hlen.
  - rewrite Hr.
    assert (E : map (fun e => pf_center_x (snd e))
                    (ranked fc ts 0 (sort_by_key candidates))
                = map fst (sort_by_key candidates)).
    { pose proof (ranked_frames fc ts 0 (sort_by_key candidates)) as H.
      apply (f_equal (map fst)) in H. rewrite !map_map in H. exact H. }
    rewrite E. apply sorted_map_fst, sort_by_key_sorted.
  - rewrite Hr, ranked_frames. apply Permutation_map, Permutation_sym,
      sort_by_key_perm.
  - intros id pf Hin. rewrite Hr in Hin. unfold r, frame_ranking.
    now apply assign_poses_actors.
  - vm_compute. reflexivity.
Qed.


(** *** Facial-to-skeletal association *)

Lemma not_farther_refl (a : option Q) : not_farther a a.
Proof.
  unfold not_farther. destruct a as [a|]; [|reflexivity].
  cbn. apply ltb_false, Qle_refl.
Qed.

Lemma nearer_not_farther (a b : option Q) : nearer a b -> not_farther a b.
Proof.
  unfold nearer, not_farther. destruct a as [a|], b as [b|]; cbn; try congruence.
  intros H. apply ltb_spec in H. apply ltb_false. now apply Qlt_le_weak.
Qed.

Lemma nearer_trans (a b c : option Q) : nearer a b -> nearer b c -> nearer a c.
Proof.
  unfold nearer. destruct a as [a|], b as [b|], c as [c|]; cbn; try congruence.
  intros H1 H2. apply ltb_spec in H1, H2. apply ltb_spec.
  eapply Qlt_trans; eassumption.
Qed.

Lemma nearer_not_farther_trans (a b c : option Q) :
  nearer a b -> not_farther b c -> nearer a c.
Proof.
  unfold nearer, not_farther.
  destruct a as [a|], b as [b|], c as [c|]; cbn; try congruence.
  intros H1 H2. apply ltb_spec in H1. apply ltb_false in H2. apply ltb_spec.
  eapply Qlt_le_trans; eassumption.
Qed.

Lemma not_nearer (a b : option Q) : distance_ltb a b = false -> not_farther b a.
Proof. intros H. exact H. Qed.

(** What the search loop returns, for any incoming [(best_actor, best_dist)]:
    either the incoming pair, no item being strictly nearer, or the first of
    the nearest items, strictly nearer than the incoming pair. *)
Lemma nearest_loop_spec (fx : Q) (items : dict PoseFrame) :
  forall best : option (string * option Q),
    match nearest_loop fx items best with
    | None => best = None /\ items = []
    | Some (a, d) =>
        (best = Some (a, d)
         /\ Forall (fun e => not_farther d (anchor_distance fx (snd e))) items)
        \/ (exists i pf,
              nth_error items i = Some (a, pf)
              /\ d = anchor_distance fx pf
              /\ Forall (fun e => not_farther d (anchor_distance fx (snd e)))
                        items
              /\ (forall j e, (j < i)%nat -> nth_error items j = Some e ->
                              nearer d (anchor_distance fx (snd e)))
              /\ (forall b bd, best = Some (b, bd) -> nearer d bd))
    end.
Proof.
  induction items as [|[aid pf] rest IH]; intros best; cbn [nearest_loop].
  - destruct best as [[b bd]|]; [left|]; auto.
  - fold (anchor_distance fx pf).
    set (best' := match best with
                  | None => Some (aid, anchor_distance fx pf)
                  | Some (best_actor, best_dist) =>
                      if distance_ltb (anchor_distance fx pf) best_dist
                      then Some (aid, anchor_distance fx pf)
                      else Some (best_actor, best_dist)
                  end).
    specialize (IH best').
    destruct (nearest_loop fx rest best') as [[a d]|].
    2:{ destruct IH as [IH _]. subst best'.
        destruct best as [[b bd]|]; [destruct (distance_ltb _ bd)|];
          discriminate. }
    assert (Hshift : forall i pf0,
               nth_error rest i = Some (a, pf0) -> d = anchor_distance fx pf0 ->
               Forall (fun e => not_farther d (anchor_distance fx (snd e))) rest ->
               (forall j e, (j < i)%nat -> nth_error rest j = Some e ->
                            nearer d (anchor_distance fx (snd e))) ->
               nearer d (anchor_distance fx pf) ->
               exists i' pf',
                 nth_error ((aid, pf) :: rest) i' = Some (a, pf')
                 /\ d = anchor_distance fx pf'
                 /\ Forall (fun e => not_farther d (anchor_distance fx (snd e)))
                           ((aid, pf) :: rest)
                 /\ (forall j e, (j < i')%nat ->
                       nth_error ((aid, pf) :: rest) j = Some e ->
                       nearer d (anchor_distance fx (snd e)))).
    { intros i pf0 Hn Hd Hall Hbefore Hlt.
      exists (S i), pf0. repeat split; auto.
      - constructor; [apply nearer_not_farther, Hlt | exact Hall].
      - intros [|j] e Hj He; cbn in He.
        + inversion He; subst e. exact Hlt.
        + apply (Hbefore j); [lia | exact He]. }
    destruct best as [[b bd]|]; subst best'.
    + destruct (distance_ltb (anchor_distance fx pf) bd) eqn:E.
      * destruct IH as [[Heq Hall] | [i [pf0 [Hn [Hd [Hall [Hbefore Hbest]]]]]]].
        -- inversion Heq; subst a d. right. exists 0%nat, pf.
           repeat split; auto.
           ++ constructor; [apply not_farther_refl | exact Hall].
           ++ intros j e Hj. lia.
           ++ intros b0 bd0 Hb. inversion Hb; subst. exact E.
        -- specialize (Hbest _ _ eq_refl).
           destruct (Hshift i pf0 Hn Hd Hall Hbefore Hbest)
             as [i' [pf' [H1 [H2 [H3 H4]]]]].
           right. exists i', pf'. repeat split; auto.
           intros b0 bd0 Hb. inversion Hb; subst.
           eapply nearer_trans; eassumption.
      * apply not_nearer in E.
        destruct IH as [[Heq Hall] | [i [pf0 [Hn [Hd [Hall [Hbefore Hbest]]]]]]].
        -- inversion Heq; subst a d. left. split; [reflexivity|].
           constructor; assumption.
        -- specialize (Hbest _ _ eq_refl).
           assert (Hlt : nearer d (anchor_distance fx pf))
             by (eapply nearer_not_farther_trans; eassumption).
           destruct (Hshift i pf0 Hn Hd Hall Hbefore Hlt)
             as [i' [pf' [H1 [H2 [H3 H4]]]]].
           right. exists i', pf'. repeat split; auto.
           intros b0 bd0 Hb. inversion Hb; subst. exact Hbest.
    + destruct IH as [[Heq Hall] | [i [pf0 [Hn [Hd [Hall [Hbefore Hbest]]]]]]].
      * inversion Heq; subst a d. right. exists 0%nat, pf.
        repeat split; auto.
        -- constructor; [apply not_farther_refl | exact Hall].
        -- intros j e Hj. lia.
        -- intros b0 bd0 Hb. discriminate.
      * specialize (Hbest _ _ eq_refl).
        destruct (Hshift i pf0 Hn Hd Hall Hbefore Hbest)
          as [i' [pf' [H1 [H2 [H3 H4]]]]].
        right. exists i', pf'. repeat split; auto.
        intros b0 bd0 Hb. discriminate.
Qed.

(** Appending a mouth frame for an actor that may be new. *)
Lemma append_mouth_after_ensure (actors : dict ActorData) (id : string)
    (mf : MouthFrame) :
  dict_get (append_mouth_frame (ensure_actor actors id) id mf) id
  = Some (mkActorData (pose_frames_of actors id) (mouth_frames_of actors id ++ [mf])).
Proof.
  unfold append_mouth_frame, ensure_actor, pose_frames_of, mouth_frames_of.
  destruct (dict_get actors id) as [a|] eqn:E.
  - rewrite E. now rewrite dict_get_set_same.
  - rewrite dict_get_set_same. now rewrite dict_get_set_same.
Qed.

Lemma append_mouth_after_ensure_other (actors : dict ActorData) (id id' : string)
    (mf : MouthFrame) :
  id <> id' ->
  dict_get (append_mouth_frame (ensure_actor actors id) id mf) id'
  = dict_get actors id'.
Proof.
  intros Hne. unfold append_mouth_frame, ensure_actor.
  destruct (dict_get actors id) as [a|] eqn:E.
  - rewrite E. now apply dict_get_set_other.
  - rewrite dict_get_set_same. rewrite !dict_get_set_other by assumption.
    reflexivity.
Qed.

(** Each entry of [face_infos] gives one mouth frame, appended to the actor
    the association attaches it to; nothing else changes. *)
Lemma assign_faces_frames fc ts fap (face_infos : list FaceInfo) :
  forall (actors : dict ActorData) (actor_id : string),
    pose_frames_of (assign_faces fc ts fap face_infos actors) actor_id
    = pose_frames_of actors actor_id
    /\ mouth_frames_of (assign_faces fc ts fap face_infos actors) actor_id
       = mouth_frames_of actors actor_id
         ++ map (mouth_frame_of fc ts) (faces_of_actor fap actor_id face_infos).
Proof.
  induction face_infos as [|fi rest IH]; intros actors actor_id;
    cbn [assign_faces faces_of_actor filter map].
  - now rewrite app_nil_r.
  - fold (faces_of_actor fap actor_id rest).
    set (k := associate_face fap (face_center_x fi)).
    destruct (IH (append_mouth_frame (ensure_actor actors k) k
                    (mkMouthFrame fc ts (face_mouth_open_ratio fi)))
                 actor_id) as [Hp Hm].
    rewrite Hp, Hm. unfold pose_frames_of, mouth_frames_of.
    destruct (String.eqb_spec k actor_id) as [<-|Hne].
    + rewrite append_mouth_after_ensure. cbn [pose_frames mouth_frames map].
      split; [reflexivity|]. now rewrite <- app_assoc.
    + rewrite append_mouth_after_ensure_other by exact Hne.
      split; reflexivity.
Qed.

(** C6.  A facial detection with anchor [fx] goes to actor "0" when the frame
    has no skeletal detection.  Otherwise it goes to an entry of
    [frame_actor_pose] whose anchor is at minimal absolute distance from
    [fx], the distance being the float [abs(px - fx)] that the code computes,
    and every entry before it (every lower rank) is strictly farther, so
    ties go to the first-seen ID.  This holds of every facial detection of a
    frame: for any list of facial detections and any actor, the mouth frames
    that the frame appends to the actor are those of the detections
    associated with it, in order, and nothing else of the actor changes; in
    a frame without skeletal detection all of them are appended to "0".
    With anchors "0" at 0.1, "1" at 0.4 and "2" at 0.7, the facial anchor
    0.42 goes to "1". *)
Theorem face_association_nearest :
  forall (fx : Q),
    associate_face [] fx = "0"%string
    /\ (forall (first : string * PoseFrame) (others : dict PoseFrame),
          let frame_actor_pose := first :: others in
          exists i pf,
            nth_error frame_actor_pose i
            = Some (associate_face frame_actor_pose fx, pf)
            /\ Forall (fun e => not_farther (anchor_distance fx pf)
                                            (anchor_distance fx (snd e)))
                      frame_actor_pose
            /\ (forall j e, (j < i)%nat -> nth_error frame_actor_pose j = Some e ->
                  nearer (anchor_distance fx pf) (anchor_distance fx (snd e))))
    /\ (forall frame_count timestamp_iso frame_actor_pose
               (face_infos : list FaceInfo) actors actor_id,
          let actors' :=
            assign_faces frame_count timestamp_iso frame_actor_pose face_infos
                         actors in
          pose_frames_of actors' actor_id = pose_frames_of actors actor_id
          /\ mouth_frames_of actors' actor_id
             = mouth_frames_of actors actor_id
               ++ map (mouth_frame_of frame_count timestamp_iso)
                      (faces_of_actor frame_actor_pose actor_id face_infos))
    /\ (forall frame_count timestamp_iso (face_infos : list FaceInfo) actors,
          mouth_frames_of
            (assign_faces frame_count timestamp_iso [] face_infos actors) "0"
          = mouth_frames_of actors "0"
            ++ map (mouth_frame_of frame_count timestamp_iso) face_infos)
    /\ map id_and_anchor example_frame_actor_pose
       = [ ("0"%string, 1#10); ("1"%string, 4#10); ("2"%string, 7#10) ]
    /\ associate_face example_frame_actor_pose (42#100) = "1"%string.
Proof.
  intros fx. split; [reflexivity|]. split; [|split; [|split; [|split]]].
  - intros first others frame_actor_pose.
    pose proof (nearest_loop_spec fx frame_actor_pose None) as H.
    unfold associate_face. subst frame_actor_pose.
    destruct (nearest_loop fx (first :: others) None) as [[a d]|].
    + destruct H as [[Hbest _] | [i [pf [Hn [Hd [Hall [Hbefore _]]]]]]];
        [discriminate|].
      subst d. exists i, pf. auto.
    + destruct H as [_ H]. discriminate.
  - intros fc ts fap face_infos actors actor_id actors'.
    apply assign_faces_frames.
  - intros fc ts face_infos actors.
    destruct (assign_faces_frames fc ts [] face_infos actors "0") as [_ Hm].
    rewrite Hm. clear Hm. f_equal. f_equal. unfold faces_of_actor.
    induction face_infos as [|fi rest IH]; [reflexivity|].
    cbn [filter].
    change (associate_face [] (face_center_x fi)) with "0"%string.
    rewrite String.eqb_refl. f_equal. exact IH.
  - vm_compute. reflexivity.
  - vm_compute. reflexivity.
Qed.


(** *** Facial anchor *)

(** The lower lip centre (index 14) is never present without the upper one
    (index 13): both are read by index from the same landmark list. *)
Lemma lower_lip_needs_upper (face_landmarks : list Landmark) (m : Q) :
  let fd := fst (extract_face_landmarks face_landmarks m) in
  forall l, lower_lip_center fd = Some l -> exists u, upper_lip_center fd = Some u.
Proof.
  unfold extract_face_landmarks.
  cbn [fst lower_lip_center upper_lip_center]. intros l Hl.
  unfold LOWER_LIP_CENTER_ID, UPPER_LIP_CENTER_ID in *.
  destruct (14 <? List.length face_landmarks)%nat eqn:E14; [|discriminate].
  apply Nat.ltb_lt in E14.
  destruct (13 <? List.length face_landmarks)%nat eqn:E13.
  - destruct (nth_error face_landmarks 13) as [p|] eqn:Hp.
    + eexists. reflexivity.
    + apply nth_error_None in Hp. lia.
  - apply Nat.ltb_ge in E13. lia.
Qed.

(** The anchor of a detection does not depend on the running maximum. *)
Lemma anchor_of_detection (face_landmarks : list Landmark) (m : Q) :
  face_anchor (fst (extract_face_landmarks face_landmarks m))
  = detection_anchor face_landmarks.
Proof. reflexivity. Qed.

Lemma anchor_missing (face_landmarks : list Landmark) :
  detection_anchor face_landmarks = None <-> face_landmarks = [].
Proof.
  split.
  - unfold detection_anchor, face_anchor, extract_face_landmarks.
    cbn [fst upper_lip_center lower_lip_center all_468_landmarks].
    destruct face_landmarks as [|x rest]; [reflexivity|].
    cbn [enumerate_landmarks].
    destruct (if (UPPER_LIP_CENTER_ID <? _)%nat then _ else None);
      [destruct (if (LOWER_LIP_CENTER_ID <? _)%nat then _ else None)|];
      discriminate.
  - intros ->. reflexivity.
Qed.

(** [face_infos] holds one entry per detection that has an anchor, in
    detection order, with that anchor. *)
Lemma collect_face_infos_anchors (faces : list (list Landmark)) :
  forall m,
    map face_center_x (fst (collect_face_infos faces m))
    = flat_map (fun face => match detection_anchor face with
                            | Some x => [x]
                            | None => []
                            end) faces.
Proof.
  induction faces as [|face rest IH]; intros m;
    cbn [collect_face_infos flat_map]; [reflexivity|].
  rewrite <- (anchor_of_detection face m).
  destruct (extract_face_landmarks face m) as [fd m1]. cbn [fst].
  specialize (IH m1).
  destruct (collect_face_infos rest m1) as [infos m2]. cbn [fst] in IH.
  destruct (face_anchor fd); cbn [fst map app]; now rewrite IH.
Qed.

(** A detection without landmark leaves no trace in [face_infos], wherever
    it stands among the detections of the frame. *)
Lemma empty_detection_dropped (before after : list (list Landmark)) :
  forall m,
    collect_face_infos (before ++ [] :: after) m
    = collect_face_infos (before ++ after) m.
Proof.
  induction before as [|face rest IH]; intros m.
  - cbn [app collect_face_infos extract_face_landmarks].
    cbn. destruct (collect_face_infos after m). reflexivity.
  - cbn [app collect_face_infos].
    destruct (extract_face_landmarks face m) as [fd m1].
    now rewrite IH.
Qed.

(** C9.  For every facial detection (the landmark list of a FaceMesh result):
    with both lip-centre points present the anchor is the midpoint of their x
    coordinates; with exactly one of them present the anchor is that point's
    x; with neither, the anchor is the x of the first landmark of the
    detection; and only a detection with no landmark at all has no anchor.
    Among the facial detections of a frame, however many, [face_infos] gets
    one entry per detection that has an anchor, in detection order and with
    that anchor, and a detection without anchor is dropped: the frame is
    processed as if the detection were not there, so that it gives no mouth
    frame and the other detections give theirs. *)
Theorem facial_anchor_derivation :
  forall (face_landmarks : list Landmark) (m : Q),
    let fd := fst (extract_face_landmarks face_landmarks m) in
    (forall u l,
        upper_lip_center fd = Some u -> lower_lip_center fd = Some l ->
        face_anchor fd = Some ((v_x u + v_x l) / 2))
    /\ (forall p,
          (upper_lip_center fd = Some p /\ lower_lip_center fd = None)
          \/ (upper_lip_center fd = None /\ lower_lip_center fd = Some p) ->
          face_anchor fd = Some (v_x p))
    /\ (upper_lip_center fd = None -> lower_lip_center fd = None ->
        face_anchor fd = option_map lm_x (hd_error face_landmarks))
    /\ (face_anchor fd = None <-> face_landmarks = [])
    /\ face_anchor fd = detection_anchor face_landmarks
    /\ (forall (faces : list (list Landmark)) (m0 : Q),
          map face_center_x (fst (collect_face_infos faces m0))
          = flat_map (fun face => match detection_anchor face with
                                  | Some x => [x]
                                  | None => []
                                  end) faces)
    /\ (forall (before after : list (list Landmark)) (m0 : Q),
          collect_face_infos (before ++ [] :: after) m0
          = collect_face_infos (before ++ after) m0)
    /\ (forall (inp : FrameInput) (s : State)
               (before after : list (list Landmark)),
          fi_faces inp = before ++ [] :: after ->
          process_frame inp s
          = process_frame (with_faces inp (before ++ after)) s).
Proof.
  intros face_landmarks m fd.
  pose proof (lower_lip_needs_upper face_landmarks m) as Hlow.
  fold fd in Hlow. cbv zeta in Hlow.
  assert (Hall : all_468_landmarks fd = enumerate_landmarks 0 face_landmarks)
    by reflexivity.
  split; [|split; [|split; [|split; [|split; [|split; [|split]]]]]].
  - intros u l Hu Hl. unfold face_anchor. now rewrite Hu, Hl.
  - intros p [[Hu Hl] | [Hu Hl]].
    + unfold face_anchor. now rewrite Hu, Hl.
    + destruct (Hlow _ Hl) as [u Hu']. congruence.
  - intros Hu Hl. unfold face_anchor. rewrite Hu, Hall.
    destruct face_landmarks; reflexivity.
  - unfold fd. rewrite anchor_of_detection. apply anchor_missing.
  - apply anchor_of_detection.
  - apply collect_face_infos_anchors.
  - apply empty_detection_dropped.
  - intros inp s before after Hfaces.
    unfold process_frame, with_faces.
    cbn [fi_timestamp_iso fi_pose_landmarks_list fi_faces
         fi_optical_flow_data].
    rewrite Hfaces, empty_detection_dropped. reflexivity.
Qed.

(** The four cases of the anchor derivation on detections of 15, 14, 3 and 0
    landmarks: midpoint of points 13 and 14, point 13 alone, point 0, none. *)
Example facial_anchor_cases :
  face_anchor (fst (extract_face_landmarks (face_of_length 15) 0))
  = Some ((13 / 100 + 14 / 100) / 2)
  /\ face_anchor (fst (extract_face_landmarks (face_of_length 14) 0))
     = Some (13 / 100)
  /\ lower_lip_center (fst (extract_face_landmarks (face_of_length 14) 0)) = None
  /\ face_anchor (fst (extract_face_landmarks (face_of_length 3) 0))
     = Some (0 / 100)
  /\ face_anchor (fst (extract_face_landmarks [] 0)) = None.
Proof.
  repeat split.
Qed.

End ScannerFacts.

(** ** The forge *)

Module WorkerFacts.

Import Py PyFacts Worker WorkerAux.

(** *** Running the monad *)

Lemma outcome_ext {A} (o1 o2 : Outcome A) :
  result o1 = result o2 -> world o1 = world o2 -> emitted o1 = emitted o2 ->
  o1 = o2.
Proof. destruct o1, o2; cbn; congruence. Qed.

Lemma bind_ret {A B} (a : A) (k : A -> M B) (w : World) :
  bind (ret a) k w = k a w.
Proof. apply outcome_ext; reflexivity. Qed.

Lemma bind_read {B} (k : World -> M B) (w : World) :
  bind read k w = k w w.
Proof. apply outcome_ext; reflexivity. Qed.

Lemma bind_modify {B} (f : World -> World) (k : unit -> M B) (w : World) :
  bind (modify f) k w = k tt (f w).
Proof. apply outcome_ext; reflexivity. Qed.

Lemma bind_raise {A B} (e : exn) (k : A -> M B) (w : World) :
  bind (raise e) k w = raise e w.
Proof. apply outcome_ext; reflexivity. Qed.

Lemma bind_emit {B} (kf : Keyframe) (k : unit -> M B) (w : World) :
  bind (emit kf) k w
  = mkOutcome (result (k tt w)) (world (k tt w)) (kf :: emitted (k tt w)).
Proof. apply outcome_ext; reflexivity. Qed.

Lemma bind_assoc {A B C} (m : M A) (f : A -> M B) (g : B -> M C) (w : World) :
  bind (bind m f) g w = bind m (fun x => bind (f x) g) w.
Proof.
  unfold bind. destruct (m w) as [[a|e] w1 ks1]; cbn; [|reflexivity].
  destruct (f a w1) as [[b|e] w2 ks2]; cbn; [|reflexivity].
  now rewrite app_assoc.
Qed.

Lemma bind_the_camera {B} (k : Camera -> M B) (w : World) (c : Camera) :
  camera w = Some c -> bind the_camera k w = k c w.
Proof.
  intros Hc. unfold the_camera. rewrite bind_assoc, bind_read, Hc.
  apply bind_ret.
Qed.

(** *** Camera path *)

(** One iteration of the camera loop on a sample that carries optical flow. *)
Lemma camera_loop_step (bl br : Vector) (fd : FrameData) (rest : list FrameData)
    (acc : Accumulators) (w : World) (c : Camera) (fl : OpticalFlow) :
  camera w = Some c ->
  fd_optical_flow fd = Some fl ->
  let acc' := accumulate (camera_intensity w) acc fl in
  let frame := get (fd_frame_number fd) 0%Z in
  let w' :=
    mkWorld (mission_data w)
            (Some (mkCamera (new_location bl acc') (new_rotation br acc')))
            (camera_intensity w) (armature w) (armatures_by_actor w)
            (scene_objects w) (scene_fps w) frame (active_object w)
            (object_mode w) in
  let o := camera_loop bl br rest acc' w' in
  camera_loop bl br (fd :: rest) acc w
  = mkOutcome (result o) (world o)
              (CameraLocation frame (new_location bl acc')
               :: CameraRotationEuler frame (new_rotation br acc')
               :: emitted o).
Proof.
  intros Hc Hfl. cbn [camera_loop]. rewrite Hfl.
  destruct w as [md cam ci arm arms objs fps fcur act mode].
  cbn in Hc. subst cam.
  rewrite bind_read. cbn [camera_intensity].
  unfold frame_set. rewrite bind_modify. cbv beta.
  unfold set_camera_location.
  rewrite bind_assoc. erewrite bind_the_camera by reflexivity.
  unfold set_camera at 1. rewrite bind_modify. cbv beta.
  unfold set_camera_rotation_euler.
  rewrite bind_assoc. erewrite bind_the_camera by reflexivity.
  unfold set_camera at 1. rewrite bind_modify. cbv beta.
  unfold keyframe_insert_location.
  rewrite bind_assoc. erewrite bind_the_camera by reflexivity. rewrite bind_emit.
  unfold keyframe_insert_rotation_euler.
  rewrite bind_assoc. erewrite bind_the_camera by reflexivity. rewrite bind_emit.
  reflexivity.
Qed.

(** A run of the camera loop with a camera at hand: it completes, inserts the
    keyframes of [camera_trace] and leaves the intensity untouched. *)
Lemma camera_loop_run (bl br : Vector) (data : list FrameData) :
  forall (acc : Accumulators) (w : World) (c : Camera),
    camera w = Some c ->
    let o := camera_loop bl br data acc w in
    result o = inl tt
    /\ emitted o = camera_trace (camera_intensity w) bl br data acc
    /\ camera_intensity (world o) = camera_intensity w
    /\ mission_data (world o) = mission_data w
    /\ exists c', camera (world o) = Some c'.
Proof.
  induction data as [|fd rest IH]; intros acc w c Hc.
  - cbn. eauto 6.
  - destruct (fd_optical_flow fd) as [fl|] eqn:Hfl.
    + rewrite (camera_loop_step bl br fd rest acc w c fl Hc Hfl).
      cbn [camera_trace]. rewrite Hfl.
      cbv zeta. cbn [result world emitted].
      match goal with
      | |- context [camera_loop bl br rest ?a ?w0] =>
          destruct (IH a w0 _ eq_refl) as [Hr [He [Hi [Hm Hcam]]]]
      end.
      cbn [camera_intensity mission_data] in *.
      rewrite He. auto.
    + cbn [camera_loop camera_trace]. rewrite Hfl. now apply (IH acc w c).
Qed.

(** A whole call on a loaded mission with a camera: the call completes and
    its keyframes are those of [camera_keyframes]. *)
Lemma apply_camera_animation_run (variant_id : Z) (w : World)
    (mission : MissionData) (cam : Camera) :
  mission_data w = Some mission ->
  camera w = Some cam ->
  result (apply_camera_animation variant_id w) = inl tt
  /\ emitted (apply_camera_animation variant_id w)
     = camera_keyframes (md_camera mission) (intensity_of_variant variant_id) cam.
Proof.
  intros Hm Hc. unfold apply_camera_animation.
  rewrite bind_read, Hm, Hc.
  unfold set_camera_intensity. rewrite bind_modify. cbv beta.
  unfold camera_keyframes.
  destruct (get (md_camera mission) []) as [|fd rest] eqn:Hdata.
  - split; reflexivity.
  - match goal with
    | |- context [camera_loop ?bl ?br ?d ?a ?w0] =>
        destruct (camera_loop_run bl br d a w0 cam Hc) as [Hr [He _]]
    end.
    split; [exact Hr | exact He].
Qed.

(** Without a loaded mission or without a camera the call raises and inserts
    nothing. *)
Lemma apply_camera_animation_unready (variant_id : Z) (w : World) :
  mission_data w = None \/ camera w = None ->
  result (apply_camera_animation variant_id w) = inr RuntimeError
  /\ emitted (apply_camera_animation variant_id w) = [].
Proof.
  intros H. unfold apply_camera_animation. rewrite bind_read.
  destruct (mission_data w); [|split; reflexivity].
  destruct H as [H|H]; [discriminate|]. rewrite H. split; reflexivity.
Qed.

(** C1.  The keyframes a call of [apply_camera_animation] inserts, and whether
    it completes, depend only on the camera samples of the mission, on the
    intensity and on the camera's base pose: two runs that agree on these
    three, whatever else differs in the worker and in the scene, insert the
    same keyframes at the same frames with the same values. *)
Theorem camera_path_deterministic :
  forall (w1 w2 : World) (v1 v2 : Z),
    option_map md_camera (mission_data w1) = option_map md_camera (mission_data w2) ->
    camera w1 = camera w2 ->
    intensity_of_variant v1 = intensity_of_variant v2 ->
    emitted (apply_camera_animation v1 w1) = emitted (apply_camera_animation v2 w2)
    /\ result (apply_camera_animation v1 w1) = result (apply_camera_animation v2 w2).
Proof.
  intros w1 w2 v1 v2 Hm Hc Hi.
  destruct (mission_data w1) as [m1|] eqn:Hm1;
    destruct (mission_data w2) as [m2|] eqn:Hm2; try discriminate.
  - destruct (camera w1) as [c|] eqn:Hc1.
    + symmetry in Hc.
      destruct (apply_camera_animation_run v1 w1 m1 c Hm1 Hc1) as [Hr1 He1].
      destruct (apply_camera_animation_run v2 w2 m2 c Hm2 Hc) as [Hr2 He2].
      cbn in Hm. injection Hm as Hm.
      rewrite Hr1, Hr2, He1, He2, Hm, Hi. split; reflexivity.
    + symmetry in Hc.
      destruct (apply_camera_animation_unready v1 w1 (or_intror Hc1)) as [Hr1 He1].
      destruct (apply_camera_animation_unready v2 w2 (or_intror Hc)) as [Hr2 He2].
      rewrite Hr1, Hr2, He1, He2. split; reflexivity.
  - destruct (apply_camera_animation_unready v1 w1 (or_introl Hm1)) as [Hr1 He1].
    destruct (apply_camera_animation_unready v2 w2 (or_introl Hm2)) as [Hr2 He2].
    rewrite Hr1, Hr2, He1, He2. split; reflexivity.
Qed.

(** Two workers in different states, variants 0 and 3 (both of intensity 1):
    same keyframes. *)
Lemma camera_path_deterministic_witness :
  emitted (apply_camera_animation 0 example_world)
  = emitted (apply_camera_animation 3 example_world_later)
  /\ result (apply_camera_animation 0 example_world)
     = result (apply_camera_animation 3 example_world_later).
Proof.
  apply (camera_path_deterministic example_world example_world_later 0 3);
    reflexivity.
Defined.

(** *** The accumulation, sample by sample *)

Lemma keyframe_eq_refl (k : Keyframe) : keyframe_eq k k.
Proof.
  destruct k; cbn; auto; split; auto; unfold vector_eq; repeat split;
    apply Qeq_refl.
Qed.

Lemma keyframe_eq_trans (a b c : Keyframe) :
  keyframe_eq a b -> keyframe_eq b c -> keyframe_eq a c.
Proof.
  intros Hab Hbc.
  destruct a, b; cbn in Hab; try discriminate Hab;
    destruct c; cbn in Hbc |- *; try discriminate Hbc; try congruence.
  all: destruct Hab as [-> [H1 [H2 H3]]], Hbc as [-> [H4 [H5 H6]]].
  all: split; [reflexivity|]; unfold vector_eq.
  all: split; [|split]; eapply Qeq_trans; eassumption.
Qed.

Lemma Forall2_keyframe_eq_refl (l : list Keyframe) : Forall2 keyframe_eq l l.
Proof. induction l; constructor; auto using keyframe_eq_refl. Qed.

Lemma Forall2_keyframe_eq_trans (l1 l2 l3 : list Keyframe) :
  Forall2 keyframe_eq l1 l2 -> Forall2 keyframe_eq l2 l3 ->
  Forall2 keyframe_eq l1 l3.
Proof.
  intros H. revert l3. induction H; intros l3 H3; inversion H3; subst;
    constructor; eauto using keyframe_eq_trans.
Qed.

(** Python's left-to-right [sum] is the sum. *)
Lemma py_sum_fold_right (l : list Q) : py_sum l == fold_right Qplus 0 l.
Proof.
  unfold py_sum.
  assert (H : forall a, fold_left Qplus l a == a + fold_right Qplus 0 l).
  { induction l as [|x rest IH]; intros a; cbn.
    - ring.
    - rewrite IH. ring. }
  rewrite H. ring.
Qed.

Lemma average_is_mean {A} (component : A -> Q) (field : list A) :
  match field with
  | [] => 0
  | _ => py_sum (map component field) / inject_Z (Z.of_nat (List.length field))
  end == mean (map component field).
Proof.
  destruct field as [|v rest]; [reflexivity|].
  unfold mean. cbn [map]. rewrite py_sum_fold_right.
  cbn [List.length]. rewrite length_map. reflexivity.
Qed.

(** One iteration adds [sample_delta] to each accumulator. *)
Lemma accumulate_adds_delta (I : Q) (acc : Accumulators) (fl : OpticalFlow) :
  let acc' := accumulate I acc fl in
  let d := sample_delta I fl in
  cumulative_x acc' == cumulative_x acc + cumulative_x d
  /\ cumulative_y acc' == cumulative_y acc + cumulative_y d
  /\ cumulative_z acc' == cumulative_z acc + cumulative_z d
  /\ cumulative_rot_x acc' == cumulative_rot_x acc + cumulative_rot_x d
  /\ cumulative_rot_y acc' == cumulative_rot_y acc + cumulative_rot_y d.
Proof.
  unfold accumulate, sample_delta, DAMPING, Z_CONSTANT, PAN_CONSTANT,
    TILT_CONSTANT, SMOOTHING, ANGLE_CENTRE.
  cbn [cumulative_x cumulative_y cumulative_z cumulative_rot_x cumulative_rot_y].
  split; [|split; [|split; [|split]]].
  - rewrite (average_is_mean fst). ring.
  - rewrite (average_is_mean snd). ring.
  - ring.
  - ring.
  - ring.
Qed.

Lemma prefixes_nonempty {A} (l : list A) : Forall (fun p => p <> []) (prefixes l).
Proof.
  induction l as [|x rest IH]; cbn; constructor.
  - discriminate.
  - apply Forall_map. apply Forall_forall. intros p _. discriminate.
Qed.

(** Starting one sample later from the accumulators that sample leaves gives
    the keyframes of the longer prefix. *)
Lemma keyframes_after_cons (I : Q) (base : Camera) (acc : Accumulators)
    (frame : Z) (fl : OpticalFlow) (p : list (Z * OpticalFlow)) :
  p <> [] ->
  Forall2 keyframe_eq
    (keyframes_after I (shift base (accumulate I acc fl)) p)
    (keyframes_after I (shift base acc) ((frame, fl) :: p)).
Proof.
  intros Hp. destruct p as [|y p']; [contradiction|].
  destruct (accumulate_adds_delta I acc fl) as [Hx [Hy [Hz [Hrx Hry]]]].
  cbv zeta in Hx, Hy, Hz, Hrx, Hry.
  set (acc' := accumulate I acc fl) in *.
  set (d := sample_delta I fl) in *.
  unfold keyframes_after.
  change (last ((frame, fl) :: y :: p') (0%Z, mkOpticalFlow None None None))
    with (last (y :: p') (0%Z, mkOpticalFlow None None None)).
  set (t := total I (y :: p')).
  assert (Ht : total I ((frame, fl) :: y :: p')
               = mkAccumulators (cumulative_x d + cumulative_x t)
                                (cumulative_y d + cumulative_y t)
                                (cumulative_z d + cumulative_z t)
                                (cumulative_rot_x d + cumulative_rot_x t)
                                (cumulative_rot_y d + cumulative_rot_y t))
    by reflexivity.
  rewrite Ht.
  unfold shift, new_location, new_rotation.
  cbn [location rotation_euler vx vy vz cumulative_x cumulative_y cumulative_z
       cumulative_rot_x cumulative_rot_y].
  constructor; [|constructor; [|constructor]].
  - cbn [keyframe_eq]. split; [reflexivity|]. unfold vector_eq.
    cbn [vx vy vz]. rewrite Hx, Hy, Hz. split; [|split]; ring.
  - cbn [keyframe_eq]. split; [reflexivity|]. unfold vector_eq.
    cbn [vx vy vz]. rewrite Hrx, Hry. split; [|split]; ring.
Qed.

Lemma keyframes_after_shifted (I : Q) (base : Camera) (acc : Accumulators)
    (frame : Z) (fl : OpticalFlow) (ps : list (list (Z * OpticalFlow))) :
  Forall (fun p => p <> []) ps ->
  Forall2 keyframe_eq
    (flat_map (keyframes_after I (shift base (accumulate I acc fl))) ps)
    (flat_map (keyframes_after I (shift base acc)) (map (cons (frame, fl)) ps)).
Proof.
  induction 1 as [|p ps Hp Hps IHps]; cbn [map flat_map].
  - constructor.
  - apply Forall2_app; [|exact IHps]. now apply keyframes_after_cons.
Qed.

(** The keyframes of the loop are the keyframes of the specified path: the
    keyframe at each sample is the base pose plus the sum of what the samples
    up to and including it add. *)
Lemma camera_trace_follows_spec (I : Q) (base : Camera) :
  forall (samples : list FrameData) (acc : Accumulators),
    Forall2 keyframe_eq
      (camera_trace I (location base) (rotation_euler base) samples acc)
      (specified_camera_path samples I (shift base acc)).
Proof.
  unfold specified_camera_path.
  induction samples as [|fd rest IH]; intros acc.
  - constructor.
  - cbn [camera_trace flow_samples flat_map].
    destruct (fd_optical_flow fd) as [fl|]; [|apply IH].
    cbn [app prefixes flat_map].
    set (frame := get (fd_frame_number fd) 0%Z).
    destruct (accumulate_adds_delta I acc fl) as [Hx [Hy [Hz [Hrx Hry]]]].
    cbv zeta in Hx, Hy, Hz, Hrx, Hry.
    set (acc' := accumulate I acc fl) in *.
    unfold keyframes_after at 1.
    cbn [last fst app].
    constructor; [|constructor].
    + cbn [keyframe_eq]. split; [reflexivity|]. unfold vector_eq, total.
      cbn [vx vy vz map fold_right snd cumulative_x cumulative_y cumulative_z
           location shift new_location].
      rewrite Hx, Hy, Hz. split; [|split]; ring.
    + cbn [keyframe_eq]. split; [reflexivity|]. unfold vector_eq, total.
      cbn [vx vy vz map fold_right snd cumulative_rot_x cumulative_rot_y
           rotation_euler shift new_rotation].
      rewrite Hrx, Hry. split; [|split]; ring.
    + eapply Forall2_keyframe_eq_trans; [apply IH|].
      fold (flow_samples rest).
      apply keyframes_after_shifted, prefixes_nonempty.
Qed.

Lemma specified_path_from_zero (I : Q) (base : Camera)
    (ps : list (list (Z * OpticalFlow))) :
  Forall2 keyframe_eq
    (flat_map (keyframes_after I (shift base (mkAccumulators 0 0 0 0 0))) ps)
    (flat_map (keyframes_after I base) ps).
Proof.
  induction ps as [|p ps IH]; cbn [flat_map]; [constructor|].
  apply Forall2_app; [|exact IH].
  unfold keyframes_after, shift, new_location, new_rotation.
  cbn [location rotation_euler vx vy vz cumulative_x cumulative_y cumulative_z
       cumulative_rot_x cumulative_rot_y].
  constructor; [|constructor; [|constructor]];
    cbn [keyframe_eq]; (split; [reflexivity|]); unfold vector_eq;
    cbn [vx vy vz]; (split; [|split]); ring.
Qed.

(** C4.  On a loaded mission with a camera, the keyframes that
    [apply_camera_animation] inserts are, as numbers, those of the specified
    path.  The accumulators start at zero; the samples are taken in list
    order; each sample that carries optical-flow data adds the mean flow
    x and y scaled by I times 0.1 to the X and Y accumulators, magnitude
    times I times 0.01 to the Z accumulator, the pan delta
    (mean angle - pi) times I times 0.05, with the code's 3.14159 for pi, and
    the tilt delta magnitude
    times I times 0.02, each times the smoothing factor 0.1, to the rotation
    accumulators; and the two keyframes inserted at the sample's frame hold
    the base pose plus the accumulators (the base roll is kept).  A sample
    without optical-flow data adds nothing and gets no keyframe. *)
Theorem camera_accumulation_algorithm :
  forall (variant_id : Z) (w : World) (mission : MissionData) (cam : Camera),
    mission_data w = Some mission ->
    camera w = Some cam ->
    Forall2 keyframe_eq
      (emitted (apply_camera_animation variant_id w))
      (specified_camera_path (get (md_camera mission) [])
                             (intensity_of_variant variant_id) cam).
Proof.
  intros v w mission cam Hm Hc.
  destruct (apply_camera_animation_run v w mission cam Hm Hc) as [_ He].
  rewrite He. unfold camera_keyframes.
  eapply Forall2_keyframe_eq_trans; [apply camera_trace_follows_spec|].
  apply specified_path_from_zero.
Qed.

Lemma camera_accumulation_algorithm_witness :
  Forall2 keyframe_eq
    (emitted (apply_camera_animation 0 example_world))
    (specified_camera_path example_samples (intensity_of_variant 0)
                           example_camera).
Proof.
  apply (camera_accumulation_algorithm 0 example_world example_mission
                                       example_camera); reflexivity.
Defined.

(** The centre 3.14159 that the code subtracts from the mean angle is the
    number pi to within three millionths, from below. *)
Lemma angle_centre_near_pi :
  (Q2R ANGLE_CENTRE < PI < Q2R ANGLE_CENTRE + 3 / 1000000)%R.
Proof.
  pose proof (PI_2_3_7_ineq 3) as [H1 H2].
  unfold tg_alt, PI_2_3_7_tg, Ratan_seq in H1, H2.
  simpl in H1, H2.
  unfold ANGLE_CENTRE, Q2R. cbn.
  split; lra.
Qed.

(** *** Lip sync *)

Lemma bind_ok {A B} (m : M A) (k : A -> M B) (w : World) (a : A) :
  result (m w) = inl a ->
  result (bind m k w) = result (k a (world (m w)))
  /\ emitted (bind m k w) = emitted (m w) ++ emitted (k a (world (m w))).
Proof. intros H. unfold bind. rewrite H. split; reflexivity. Qed.

Lemma bind_failed {A B} (m : M A) (k : A -> M B) (w : World) (e : exn) :
  result (m w) = inr e ->
  result (bind m k w) = inr e /\ emitted (bind m k w) = emitted (m w).
Proof. intros H. unfold bind. rewrite H. split; reflexivity. Qed.

Lemma cue_frames_loop_run (mesh key : string) (ratio : Q) (frames : list Z) :
  forall w : World,
    result (cue_frames_loop mesh key ratio frames w) = inl tt
    /\ emitted (cue_frames_loop mesh key ratio frames w)
       = map (fun frame => ShapeKeyValue mesh key frame ratio) frames.
Proof.
  induction frames as [|frame rest IH]; intros w; cbn [cue_frames_loop map].
  - split; reflexivity.
  - unfold frame_set. rewrite bind_modify, bind_emit. cbn [result emitted].
    match goal with
    | |- context [cue_frames_loop mesh key ratio rest ?w0] =>
        destruct (IH w0) as [Hr He]
    end.
    rewrite Hr, He. split; reflexivity.
Qed.

(** One regular cue inserts its keyframes and hands over to the rest of the
    list. *)
Lemma cues_loop_app (mesh key : string) (fps : Z) (before rest : list Cue) :
  Forall (regular fps) before ->
  forall w : World, exists w' : World,
    result (cues_loop mesh key fps (before ++ rest) w)
    = result (cues_loop mesh key fps rest w')
    /\ emitted (cues_loop mesh key fps (before ++ rest) w)
       = flat_map (cue_keyframes mesh key fps) before
         ++ emitted (cues_loop mesh key fps rest w').
Proof.
  induction 1 as [|cue before [Hs [He Hr]] _ IH]; intros w; cbn [app flat_map].
  - exists w. split; reflexivity.
  - cbn [cues_loop]. unfold cue_keyframes.
    destruct (cue_start_frame fps cue) as [a|]; [|congruence].
    destruct (cue_end_frame fps cue) as [b|]; [|congruence].
    destruct (cue_ratio cue) as [r|]; [|congruence].
    destruct (cue_frames_loop_run mesh key r (py_range a (b + 1)) w)
      as [Hr1 He1].
    match goal with
    | |- context [bind ?m ?k w] =>
        destruct (bind_ok m k w tt Hr1) as [Hr' He']
    end.
    rewrite Hr', He', He1.
    match goal with
    | |- context [cues_loop mesh key fps (before ++ rest) ?w0] =>
        destruct (IH w0) as [w' [Hr2 He2]]
    end.
    exists w'. rewrite Hr2, He2, app_assoc. split; reflexivity.
Qed.

Lemma cues_loop_run (mesh key : string) (fps : Z) (mouth_cues : list Cue) :
  Forall (regular fps) mouth_cues ->
  forall w : World,
    result (cues_loop mesh key fps mouth_cues w) = inl tt
    /\ emitted (cues_loop mesh key fps mouth_cues w)
       = flat_map (cue_keyframes mesh key fps) mouth_cues.
Proof.
  intros Hreg w.
  destruct (cues_loop_app mesh key fps mouth_cues [] Hreg w) as [w' [Hr He]].
  rewrite app_nil_r in Hr, He. rewrite Hr, He. cbn [cues_loop].
  rewrite app_nil_r. split; reflexivity.
Qed.

(** The loop stops at a cue with an infinite frame number or a value that
    cannot be hashed, before any keyframe of that cue. *)
Lemma cues_loop_stops (mesh key : string) (fps : Z) (cue : Cue)
    (rest : list Cue) (e : exn) (w : World) :
  cue_exception fps cue = Some e ->
  result (cues_loop mesh key fps (cue :: rest) w) = inr e
  /\ emitted (cues_loop mesh key fps (cue :: rest) w) = [].
Proof.
  unfold cue_exception. cbn [cues_loop].
  destruct (cue_start_frame fps cue) as [a|];
    [destruct (cue_end_frame fps cue) as [b|];
     [destruct (cue_ratio cue) as [r|]|]|];
    intros He; try discriminate He; injection He as <-;
    split; reflexivity.
Qed.

(** A call of [apply_lip_sync] with a mouth shape key at hand and a non-empty
    cue list runs the loop over the cues. *)
Lemma apply_lip_sync_cues (w : World) (mission : MissionData)
    (avatar : SceneObject) (key : string) (first : Cue) (others : list Cue) :
  mission_data w = Some mission ->
  find_avatar_mesh (scene_objects w) = Some avatar ->
  find_mouth_shape_key (get (obj_key_blocks avatar) []) = Some key ->
  md_mouthCues mission = Some (first :: others) ->
  apply_lip_sync w
  = cues_loop (obj_name avatar) key (scene_fps w) (first :: others) w.
Proof.
  intros Hm Ha Hk Hc. unfold apply_lip_sync.
  rewrite bind_read, Hm, Ha, Hk, Hc. reflexivity.
Qed.

Lemma apply_lip_sync_symbolic (w : World) (mission : MissionData)
    (avatar : SceneObject) (key : string) (first : Cue) (others : list Cue) :
  mission_data w = Some mission ->
  find_avatar_mesh (scene_objects w) = Some avatar ->
  find_mouth_shape_key (get (obj_key_blocks avatar) []) = Some key ->
  md_mouthCues mission = Some (first :: others) ->
  Forall (regular (scene_fps w)) (first :: others) ->
  result (apply_lip_sync w) = inl tt
  /\ emitted (apply_lip_sync w)
     = flat_map (cue_keyframes (obj_name avatar) key (scene_fps w))
                (first :: others).
Proof.
  intros Hm Ha Hk Hc Hreg.
  rewrite (apply_lip_sync_cues w mission avatar key first others Hm Ha Hk Hc).
  now apply cues_loop_run.
Qed.

(** With the cues before it regular, the call stops at an irregular cue. *)
Lemma apply_lip_sync_stops (w : World) (mission : MissionData)
    (avatar : SceneObject) (key : string) (before : list Cue) (cue : Cue)
    (after : list Cue) (e : exn) :
  mission_data w = Some mission ->
  find_avatar_mesh (scene_objects w) = Some avatar ->
  find_mouth_shape_key (get (obj_key_blocks avatar) []) = Some key ->
  md_mouthCues mission = Some (before ++ cue :: after) ->
  Forall (regular (scene_fps w)) before ->
  cue_exception (scene_fps w) cue = Some e ->
  result (apply_lip_sync w) = inr e
  /\ emitted (apply_lip_sync w)
     = flat_map (cue_keyframes (obj_name avatar) key (scene_fps w)) before.
Proof.
  intros Hm Ha Hk Hc Hreg Hexn.
  assert (Hrun : apply_lip_sync w
                 = cues_loop (obj_name avatar) key (scene_fps w)
                             (before ++ cue :: after) w).
  { destruct before as [|first others];
      now apply (apply_lip_sync_cues w mission avatar key). }
  rewrite Hrun.
  destruct (cues_loop_app (obj_name avatar) key (scene_fps w) before
              (cue :: after) Hreg w) as [w' [Hr He]].
  destruct (cues_loop_stops (obj_name avatar) key (scene_fps w) cue after e w'
              Hexn) as [Hr' He'].
  rewrite Hr, He, Hr', He', app_nil_r. split; reflexivity.
Qed.

Lemma curve_value_app (mesh key : string) (frame : Z) (l1 l2 : list Keyframe) :
  curve_value mesh key frame (l1 ++ l2)
  = match curve_value mesh key frame l2 with
    | Some v => Some v
    | None => curve_value mesh key frame l1
    end.
Proof.
  induction l1 as [|k rest IH]; cbn [app curve_value].
  - destruct (curve_value mesh key frame l2); reflexivity.
  - rewrite IH. destruct (curve_value mesh key frame l2); reflexivity.
Qed.

Lemma curve_value_constant (mesh key : string) (ratio : Q) (frame : Z)
    (frames : list Z) :
  curve_value mesh key frame
    (map (fun f => ShapeKeyValue mesh key f ratio) frames)
  = if in_dec Z.eq_dec frame frames then Some ratio else None.
Proof.
  induction frames as [|f rest IH]; cbn [map curve_value].
  - destruct (in_dec Z.eq_dec frame []) as [H|H]; [contradiction | reflexivity].
  - rewrite IH, !String.eqb_refl. cbn [andb].
    destruct (in_dec Z.eq_dec frame rest) as [Hr|Hr];
      destruct (in_dec Z.eq_dec frame (f :: rest)) as [H|H]; try reflexivity.
    + exfalso. apply H. now right.
    + destruct (Z.eqb_spec f frame) as [E|E]; [reflexivity|].
      destruct H as [H|H]; contradiction.
    + destruct (Z.eqb_spec f frame) as [E|E]; [|reflexivity].
      exfalso. apply H. now left.
Qed.

Lemma curve_value_covered (mesh key : string) (fps : Z) (cue : Cue) (frame : Z)
    (ratio : Q) :
  covers fps cue frame ->
  cue_ratio cue = Some ratio ->
  curve_value mesh key frame (cue_keyframes mesh key fps cue) = Some ratio.
Proof.
  intros [a [b [Ha [Hb Hrange]]]] Hratio. unfold cue_keyframes.
  rewrite Ha, Hb, Hratio, curve_value_constant.
  destruct (in_dec Z.eq_dec frame _) as [H|H]; [reflexivity|].
  exfalso. apply H, in_py_range. lia.
Qed.

Lemma curve_value_uncovered (mesh key : string) (fps : Z) (frame : Z)
    (cues : list Cue) :
  (forall c, In c cues -> ~ covers fps c frame) ->
  curve_value mesh key frame (flat_map (cue_keyframes mesh key fps) cues) = None.
Proof.
  induction cues as [|c rest IH]; intros Hun; cbn [flat_map]; [reflexivity|].
  rewrite curve_value_app, IH by (intros c' Hc'; apply Hun; now right).
  assert (Hc : ~ covers fps c frame) by (apply Hun; now left).
  unfold cue_keyframes.
  destruct (cue_start_frame fps c) as [a|] eqn:Ha; [|reflexivity].
  destruct (cue_end_frame fps c) as [b|] eqn:Hb; [|reflexivity].
  destruct (cue_ratio c) as [r|]; [|reflexivity].
  rewrite curve_value_constant.
  destruct (in_dec Z.eq_dec frame _) as [H|H]; [|reflexivity].
  exfalso. apply Hc. exists a, b. apply in_py_range in H.
  repeat split; try assumption; lia.
Qed.


(** C7.  With a mouth shape key at hand and a non-empty list of symbolic cues,
    [apply_lip_sync] goes through the cues in list order.  When every cue has
    finite frame numbers and a value that can be looked up, the call
    completes and has inserted, cue after cue, one keyframe on each frame
    from [int(start * fps)] through [int(end * fps)] inclusive and on no
    other frame, each holding the ratio looked up for the cue's value; the
    products are float products, truncated by [int].  Otherwise the call
    raises at the first cue that is not so, after the keyframes of the cues
    before it.  On a frame that several cues cover, the curve ends up with
    the ratio of the last of them in the list.  The cue from 1.0 s to 2.0 s
    with value "C" at 30 frames per second gives the ratio 0.7 on every frame
    from 30 through 60 and nothing else; a cue at 4.1 s keys frame 122, the
    float product being below 123. *)
Theorem symbolic_cue_expansion :
  forall (w : World) (mission : MissionData) (avatar : SceneObject)
         (key : string) (first : Cue) (others : list Cue),
    mission_data w = Some mission ->
    find_avatar_mesh (scene_objects w) = Some avatar ->
    find_mouth_shape_key (get (obj_key_blocks avatar) []) = Some key ->
    md_mouthCues mission = Some (first :: others) ->
    let mesh := obj_name avatar in
    let fps := scene_fps w in
    let cues := first :: others in
    (Forall (regular fps) cues ->
     result (apply_lip_sync w) = inl tt
     /\ emitted (apply_lip_sync w) = flat_map (cue_keyframes mesh key fps) cues)
    /\ (forall before cue after e,
          cues = before ++ cue :: after ->
          Forall (regular fps) before ->
          cue_exception fps cue = Some e ->
          result (apply_lip_sync w) = inr e
          /\ emitted (apply_lip_sync w)
             = flat_map (cue_keyframes mesh key fps) before)
    /\ (forall cue frame value,
          In (ShapeKeyValue mesh key frame value) (cue_keyframes mesh key fps cue)
          <-> exists start_product end_product,
                float_mul (get (cue_start cue) 0) (inject_Z fps)
                = Some start_product
                /\ float_mul (get (cue_end cue) (get (cue_start cue) 0))
                             (inject_Z fps)
                   = Some end_product
                /\ (py_int start_product <= frame <= py_int end_product)%Z
                /\ cue_ratio cue = Some value)
    /\ (forall cue s,
          cue_value cue = Some (Text s) ->
          cue_ratio cue = Some (get (dict_get rhubarb_to_ratio s) 0))
    /\ (forall before cue after frame,
          cues = before ++ cue :: after ->
          Forall (regular fps) cues ->
          covers fps cue frame ->
          (forall c, In c after -> ~ covers fps c frame) ->
          curve_value mesh key frame (emitted (apply_lip_sync w))
          = cue_ratio cue)
    /\ emitted (apply_lip_sync (lip_sync_world [cue_C]))
       = map (fun frame => ShapeKeyValue "EXO_Avatar_0" "MouthOpen" frame (7#10))
             (py_range 30 61)
    /\ emitted (apply_lip_sync (lip_sync_world [cue_late]))
       = [ShapeKeyValue "EXO_Avatar_0" "MouthOpen" 122 (7#10)].
Proof.
  intros w mission avatar key first others Hm Ha Hk Hc mesh fps cues.
  split; [|split; [|split; [|split; [|split; [|split]]]]].
  - intros Hreg.
    exact (apply_lip_sync_symbolic w mission avatar key first others
             Hm Ha Hk Hc Hreg).
  - intros before cue after e Hsplit Hreg Hexn.
    apply (apply_lip_sync_stops w mission avatar key before cue after e);
      try assumption.
    rewrite Hc. f_equal. exact Hsplit.
  - intros cue frame value.
    unfold cue_keyframes, cue_start_frame, cue_end_frame, frame_of_time.
    destruct (float_mul (get (cue_start cue) 0) (inject_Z fps)) as [p|];
      destruct (float_mul (get (cue_end cue) (get (cue_start cue) 0))
                          (inject_Z fps)) as [q|];
      destruct (cue_ratio cue) as [r|]; cbn [option_map];
      try (split;
           [intros []
           | intros [p' [q' [Hp [Hq [_ Hr]]]]]; congruence]).
    rewrite in_map_iff. split.
    + intros [f [Heq Hin]]. apply in_py_range in Hin.
      injection Heq as -> <-. exists p, q.
      repeat split; try reflexivity; lia.
    + intros [p' [q' [Hp [Hq [Hrange Hr]]]]].
      injection Hp as <-. injection Hq as <-. injection Hr as <-.
      exists frame. split; [reflexivity|]. apply in_py_range. lia.
  - intros cue s Hs. unfold cue_ratio. rewrite Hs. reflexivity.
  - intros before cue after frame Hsplit Hreg Hcov Hlater.
    destruct (apply_lip_sync_symbolic w mission avatar key first others
                Hm Ha Hk Hc Hreg) as [_ He].
    fold mesh fps cues in He.
    assert (Hcue : regular fps cue).
    { rewrite Forall_forall in Hreg. apply Hreg. rewrite Hsplit.
      apply in_or_app. right. now left. }
    destruct Hcue as [_ [_ Hratio]].
    destruct (cue_ratio cue) as [ratio|] eqn:Er; [|congruence].
    rewrite He, Hsplit, flat_map_app. cbn [flat_map].
    rewrite curve_value_app, curve_value_app.
    rewrite (curve_value_uncovered mesh key fps frame after Hlater).
    now rewrite (curve_value_covered mesh key fps cue frame ratio).
  - vm_compute. reflexivity.
  - vm_compute. reflexivity.
Qed.

Lemma symbolic_cue_expansion_witness :
  result (apply_lip_sync (lip_sync_world [cue_C; cue_late])) = inl tt
  /\ emitted (apply_lip_sync (lip_sync_world [cue_C; cue_late]))
     = flat_map (cue_keyframes "EXO_Avatar_0" "MouthOpen" 30) [cue_C; cue_late].
Proof.
  refine (proj1 (symbolic_cue_expansion
                   (lip_sync_world [cue_C; cue_late])
                   (mkMissionData None (Some []) (Some [cue_C; cue_late]))
                   (mkSceneObject "MESH" "EXO_Avatar_0"
                                  (Some [ "Basis"; "MouthOpen" ]%string))
                   "MouthOpen" cue_C [cue_late] _ _ _ _) _);
    try reflexivity.
  repeat constructor; vm_compute; discriminate.
Defined.




(** *** Retargeting *)

(** The helper returns [None] and inserts nothing. *)
Lemma helper_returns_none (arm : Armature) (motion : list MotionFrame) (w : World) :
  result (_apply_animation_to_armature arm motion w) = inl PyNone
  /\ emitted (_apply_animation_to_armature arm motion w) = [].
Proof.
  unfold _apply_animation_to_armature, set_active_object, mode_set.
  rewrite !bind_modify. split; reflexivity.
Qed.

(** The first iteration of the actor loop raises [TypeError]. *)
Lemma animation_loop_raises (mission : MissionData) (actor_id : string)
    (arm : Armature) (rest : list (string * Armature)) (total_applied : Z)
    (w : World) :
  result (animation_loop mission ((actor_id, arm) :: rest) total_applied w)
  = inr TypeError
  /\ emitted (animation_loop mission ((actor_id, arm) :: rest) total_applied w)
     = [].
Proof.
  cbn [animation_loop].
  unfold _apply_animation_to_armature, set_active_object, mode_set.
  rewrite bind_assoc, bind_modify, bind_assoc, bind_modify, bind_ret.
  unfold py_max. rewrite bind_raise. split; reflexivity.
Qed.

(** Whatever the state of the worker, [apply_animation] ends with an
    exception and has inserted no keyframe. *)
Lemma apply_animation_never_completes (w : World) :
  exists e, result (apply_animation w) = inr e
            /\ emitted (apply_animation w) = [].
Proof.
  unfold apply_animation. rewrite bind_read.
  destruct (armatures_by_actor w) as [|[actor_id arm] rest] eqn:Harms.
  - destruct (armature w) as [a|].
    + unfold set_armatures_by_actor.
      rewrite bind_modify, bind_read.
      cbn [mission_data armatures_by_actor].
      destruct (mission_data w) as [mission|].
      * destruct (animation_loop_raises mission "0" a [] 0 
                    (mkWorld (Some mission) (camera w) (camera_intensity w)
                             (Some a) [("0"%string, a)] (scene_objects w)
                             (scene_fps w) (scene_frame_current w)
                             (active_object w) (object_mode w)))
          as [Hr He].
        exists TypeError.
        match goal with
        | |- context [bind ?m ?k ?w0] =>
            destruct (bind_failed m k w0 TypeError Hr) as [Hr' He']
        end.
        rewrite Hr', He'. split; [reflexivity | exact He].
      * exists RuntimeError. split; reflexivity.
    + exists RuntimeError. rewrite bind_raise. split; reflexivity.
  - rewrite bind_ret, bind_read, Harms.
    destruct (mission_data w) as [mission|].
    + destruct (animation_loop_raises mission actor_id arm rest 0 w) as [Hr He].
      exists TypeError.
      match goal with
      | |- context [bind ?m ?k ?w0] =>
          destruct (bind_failed m k w0 TypeError Hr) as [Hr' He']
      end.
      rewrite Hr', He'. split; [reflexivity | exact He].
    + exists RuntimeError. split; reflexivity.
Qed.

(** C2 (the code departs from the claim).  Applying the animation to an actor
    whose pose-frame sequence is empty inserts no keyframe but does not
    complete: the helper [_apply_animation_to_armature] returns [None], and
    [max(total_applied, None)] raises [TypeError].  The same holds in every
    state of the worker: [apply_animation] always ends with an exception. *)
Theorem apply_animation_raises_on_empty_actor :
  result (apply_animation (retarget_world [])) = inr TypeError
  /\ emitted (apply_animation (retarget_world [])) = []
  /\ forall w : World,
       exists e, result (apply_animation w) = inr e
                 /\ emitted (apply_animation w) = [].
Proof.
  split; [reflexivity|]. split; [reflexivity|].
  apply apply_animation_never_completes.
Qed.

(** C3 (the code departs from the claim).  On an actor with two frames in
    which every landmark is visible and an armature that has the mapped bones,
    [apply_animation] inserts no rotation keyframe at all and raises
    [TypeError]: the loop that implements the per-bone update stands after
    the returning [try] statement of [calculate_bone_rotation] and is never
    run. *)
Theorem retargeting_inserts_no_keyframe :
  result (apply_animation (retarget_world two_visible_frames)) = inr TypeError
  /\ emitted (apply_animation (retarget_world two_visible_frames)) = []
  /\ motion_for_actor
       (mkMissionData None
          (Some [ ("0"%string, mkActorData (Some two_visible_frames) (Some [])) ])
          None) "0"
     = [ mkMotionFrame 0 (visible_pose 0); mkMotionFrame 1 (visible_pose (1#10)) ].
Proof.
  split; [reflexivity|]. split; reflexivity.
Qed.

Section UnreachedLoop.

Variable length_is_zero : Vector -> bool.
Variable normalized : Vector -> Vector.
Variable rotation_difference : Vector -> Vector -> option Quaternion.
Variable slerp : Quaternion -> Quaternion -> Q -> Quaternion.

(** What the unreached loop body would do for one mapped bone that resolves
    to a bone of the armature: with a landmark below the visibility threshold
    or no rotation (missing landmark, zero-length direction), no keyframe and
    [previous_rotations] unchanged; otherwise the rotation, interpolated from
    the previous one with weight 0.7 when there is one, is keyframed and
    stored. *)
Lemma unreached_bone_update (armature_name : string) (bones : list Bone)
    (frame_number : Z) (pose_landmarks : list Landmark)
    (name : string) (start_id end_id : Z) (previous_rotations : dict Quaternion)
    (resolved : string) (bone : Bone) :
  resolve_bone bones name = Some resolved ->
  find_bone bones resolved = Some bone ->
  let start_landmark := find_landmark pose_landmarks start_id in
  let end_landmark := find_landmark pose_landmarks end_id in
  let rest_dir := normalized (vector_sub (bone_tail bone) (bone_head bone)) in
  let bone_default_dir :=
    if length_is_zero rest_dir then mkVector 0 1 0 else rest_dir in
  let computed :=
    calculate_bone_rotation length_is_zero normalized rotation_difference
                            start_landmark end_landmark bone_default_dir in
  let update :=
    retarget_bone length_is_zero normalized rotation_difference slerp
                  armature_name bones frame_number pose_landmarks
                  (name, (start_id, end_id)) previous_rotations in
  (below_threshold start_landmark = true
   \/ below_threshold end_landmark = true
   \/ computed = None ->
   update = (None, previous_rotations))
  /\ (forall rotation,
        below_threshold start_landmark = false ->
        below_threshold end_landmark = false ->
        computed = Some rotation ->
        let smoothed :=
          match dict_get previous_rotations resolved with
          | Some prev_rot => slerp prev_rot rotation (7#10)
          | None => rotation
          end in
        update
        = (Some (BoneRotationQuaternion armature_name resolved frame_number
                                        smoothed),
           dict_set previous_rotations resolved smoothed)).
Proof.
  intros Hres Hbone start_landmark end_landmark rest_dir bone_default_dir
         computed update.
  unfold update, retarget_bone. rewrite Hres, Hbone.
  fold start_landmark end_landmark. fold rest_dir. fold bone_default_dir.
  fold computed.
  split.
  - intros [H | [H | H]].
    + now rewrite H.
    + rewrite H. now destruct (below_threshold start_landmark).
    + rewrite H. destruct (below_threshold start_landmark);
        [reflexivity | destruct (below_threshold end_landmark); reflexivity].
  - intros rotation Hs He Hc. rewrite Hs, He, Hc.
    destruct (dict_get previous_rotations resolved); reflexivity.
Qed.

(** The rotation [calculate_bone_rotation] returns before its unreached part:
    none for a missing landmark or a zero-length direction, otherwise the
    rotation from the normalized rest direction onto the normalized observed
    direction (the identity quaternion where [rotation_difference] raises). *)
Lemma calculate_bone_rotation_cases (s e : Landmark) (bone_default_dir : Vector) :
  let mp_vector :=
    mkVector (lm_x e - lm_x s) (lm_y e - lm_y s) (lm_z e - lm_z s) in
  let calc :=
    calculate_bone_rotation length_is_zero normalized rotation_difference in
  calc None (Some e) bone_default_dir = None
  /\ calc (Some s) None bone_default_dir = None
  /\ (length_is_zero mp_vector = true ->
      calc (Some s) (Some e) bone_default_dir = None)
  /\ (length_is_zero mp_vector = false ->
      calc (Some s) (Some e) bone_default_dir
      = Some (get (rotation_difference (normalized bone_default_dir)
                                       (normalized mp_vector))
                  (mkQuaternion 1 0 0 0))).
Proof.
  cbv zeta. unfold calculate_bone_rotation.
  split; [reflexivity|]. split; [reflexivity|]. split; intros ->.
  - reflexivity.
  - destruct (rotation_difference _ _); reflexivity.
Qed.

End UnreachedLoop.

End WorkerFacts.

(** ** The dataset built by the scanner *)

Module DatasetFacts.

Import Py PyFacts Scanner ScannerAux ScannerFacts DatasetAux.

(** *** One sample of camera motion per frame *)

Lemma process_frame_camera (inp : FrameInput) (s : State) :
  camera_motion (process_frame inp s)
  = camera_motion s
    ++ [mkCameraSample (frame_count s) (fi_timestamp_iso inp)
                       (fi_optical_flow_data inp)]
  /\ frame_count (process_frame inp s) = (frame_count s + 1)%Z.
Proof.
  unfold process_frame.
  destruct (frame_ranking _ _ _ _) as [actors fap].
  destruct (collect_face_infos _ _) as [infos m].
  split; reflexivity.
Qed.

Lemma process_frames_camera (frames : list FrameInput) :
  forall s : State,
    camera_motion (process_frames frames s)
    = camera_motion s ++ samples_from (frame_count s) frames
    /\ frame_count (process_frames frames s)
       = (frame_count s + Z.of_nat (List.length frames))%Z.
Proof.
  unfold process_frames.
  induction frames as [|inp rest IH]; intros s; cbn [fold_left samples_from].
  - rewrite app_nil_r. cbn. split; [reflexivity | lia].
  - destruct (IH (process_frame inp s)) as [Hc Hn].
    destruct (process_frame_camera inp s) as [Hc1 Hn1].
    rewrite Hc, Hn, Hc1, Hn1. split.
    + now rewrite <- app_assoc.
    + cbn [List.length]. lia.
Qed.

Lemma samples_from_numbers (frames : list FrameInput) :
  forall n : Z,
    map cs_frame_number (samples_from n frames)
    = map (fun i => (n + Z.of_nat i)%Z) (seq 0 (List.length frames))
    /\ map cs_optical_flow (samples_from n frames)
       = map fi_optical_flow_data frames.
Proof.
  induction frames as [|inp rest IH]; intros n; cbn; [split; reflexivity|].
  destruct (IH (n + 1)%Z) as [H1 H2]. rewrite H1, H2. split; [|reflexivity].
  f_equal; [f_equal; lia|].
  rewrite <- seq_shift, map_map. apply map_ext. intros i. lia.
Qed.

(** X1.  The camera motion recorded for a video of [T] frames holds exactly one
    sample per frame, numbered 0 .. T-1 in order, each carrying the optical
    flow of its frame; the frame counter ends at [T]. *)
Theorem camera_motion_contiguous :
  forall frames : list FrameInput,
    let s := process_frames frames initial_state in
    map cs_frame_number (camera_motion s)
    = map Z.of_nat (seq 0 (List.length frames))
    /\ map cs_optical_flow (camera_motion s) = map fi_optical_flow_data frames
    /\ frame_count s = Z.of_nat (List.length frames).
Proof.
  intros frames s.
  destruct (process_frames_camera frames initial_state) as [Hc Hn].
  fold s in Hc, Hn. cbn [camera_motion frame_count initial_state app] in Hc, Hn.
  destruct (samples_from_numbers frames 0) as [H1 H2].
  rewrite Hc, Hn, H1, H2. split; [|split; [reflexivity | lia]].
  apply map_ext. intros i. lia.
Qed.

(** *** Landmark extraction *)

Lemma enumerate_landmarks_spec (landmarks : list Landmark) :
  forall idx : nat,
    map ld_landmark_id (enumerate_landmarks idx landmarks)
    = seq idx (List.length landmarks)
    /\ map (fun d => mkLandmark (ld_x d) (ld_y d) (ld_z d) (ld_visibility d))
           (enumerate_landmarks idx landmarks)
       = landmarks.
Proof.
  induction landmarks as [|l rest IH]; intros idx; cbn; [split; reflexivity|].
  destruct (IH (S idx)) as [H1 H2]. rewrite H1, H2.
  split; [reflexivity|]. now destruct l.
Qed.

(** X2.  [extract_pose_landmarks] numbers the landmarks of a pose 0 .. n-1 in
    order, one dict per landmark, and keeps every coordinate and visibility:
    dropping the IDs gives the detection back.  The IDs are therefore
    distinct, and a pose of 33 landmarks gives 33 dicts with IDs 0 .. 32. *)
Theorem extract_pose_landmarks_numbering :
  forall pose_landmarks : list Landmark,
    let out := extract_pose_landmarks pose_landmarks in
    map ld_landmark_id out = seq 0 (List.length pose_landmarks)
    /\ map (fun d => mkLandmark (ld_x d) (ld_y d) (ld_z d) (ld_visibility d)) out
       = pose_landmarks
    /\ List.length out = List.length pose_landmarks
    /\ NoDup (map ld_landmark_id out).
Proof.
  intros l out.
  assert (H : map ld_landmark_id out = seq 0 (List.length l)
              /\ map (fun d => mkLandmark (ld_x d) (ld_y d) (ld_z d)
                                          (ld_visibility d)) out = l).
  { unfold out, extract_pose_landmarks. destruct l as [|x rest].
    - split; reflexivity.
    - apply enumerate_landmarks_spec. }
  destruct H as [H1 H2]. split; [exact H1|]. split; [exact H2|]. split.
  - rewrite <- (length_map ld_landmark_id), H1. apply length_seq.
  - rewrite H1. apply seq_NoDup.
Qed.

(** *** Normalisation of the mouth opening *)

(** X3.  With both lip points present and a maximum that is not negative: a
    vertical lip distance above the running maximum becomes the new maximum
    and gets the ratio 1; a distance that does not exceed a positive maximum
    leaves it unchanged and gets the ratio distance / maximum. *)
Theorem mouth_ratio_is_relative_to_running_maximum :
  forall (u l : Vec3) (m : Q),
    0 <= m ->
    let d := Qabs (v_y u - v_y l) in
    let r := calculate_mouth_open_ratio (Some u) (Some l) m in
    (m < d -> snd r = d /\ fst r == 1)
    /\ (d <= m -> 0 < m -> snd r = m /\ fst r == d / m).
Proof.
  intros u l m Hm d r. unfold r, calculate_mouth_open_ratio. fold d.
  split.
  - intros Hlt.
    assert (E : ltb m d = true) by (apply ltb_spec; exact Hlt).
    rewrite E. cbn [fst snd].
    assert (Hd : 0 < d) by (eapply Qle_lt_trans; eassumption).
    assert (E0 : ltb 0 d = true) by (apply ltb_spec; exact Hd).
    rewrite E0. split; [reflexivity|].
    assert (Hone : d / d == 1).
    { apply Qmult_inv_r. intros H0. rewrite H0 in Hd. discriminate. }
    unfold py_min. destruct (ltb 1 (d / d)) eqn:E1.
    + reflexivity.
    + exact Hone.
  - intros Hle Hpos.
    assert (E : ltb m d = false) by (apply ltb_false; exact Hle).
    rewrite E. cbn [fst snd].
    assert (E0 : ltb 0 m = true) by (apply ltb_spec; exact Hpos).
    rewrite E0. split; [reflexivity|].
    unfold py_min. destruct (ltb 1 (d / m)) eqn:E1; [|reflexivity].
    apply ltb_spec in E1. exfalso.
    apply (Qlt_not_le _ _ E1).
    apply Qle_shift_div_r; [exact Hpos|]. now rewrite Qmult_1_l.
Qed.

Lemma mouth_ratio_is_relative_to_running_maximum_witness :
  let d := Qabs (v_y (0, 4#10, 0) - v_y (0, 5#10, 0)) in
  let r := calculate_mouth_open_ratio (Some (0, 4#10, 0)) (Some (0, 5#10, 0))
                                      (5#100) in
  (5#100 < d -> snd r = d /\ fst r == 1)
  /\ (d <= 5#100 -> 0 < 5#100 -> snd r = 5#100 /\ fst r == d / (5#100)).
Proof.
  apply (mouth_ratio_is_relative_to_running_maximum
           (0, 4#10, 0) (0, 5#10, 0) (5#100)).
  discriminate.
Defined.

(** *** Nothing detected is lost or duplicated *)

Section Totals.

Variable size : ActorData -> nat.

Lemma total_set_present (d : dict ActorData) (k : string) (a v : ActorData) :
  dict_get d k = Some a ->
  (list_sum (map (fun e => size (snd e)) (dict_set d k v)) + size a
   = list_sum (map (fun e => size (snd e)) d) + size v)%nat.
Proof.
  induction d as [|[k' v'] rest IH]; cbn [dict_get dict_set]; [discriminate|].
  destruct (String.eqb_spec k k') as [->|Hne]; cbn [map list_sum fold_right snd].
  - intros H. injection H as ->. lia.
  - intros H. specialize (IH H). unfold list_sum in IH. lia.
Qed.

Lemma total_set_absent (d : dict ActorData) (k : string) (v : ActorData) :
  dict_get d k = None ->
  list_sum (map (fun e => size (snd e)) (dict_set d k v))
  = (list_sum (map (fun e => size (snd e)) d) + size v)%nat.
Proof.
  induction d as [|[k' v'] rest IH]; cbn [dict_get dict_set];
    [intros _; cbn; lia|].
  destruct (String.eqb_spec k k') as [->|Hne]; cbn [map list_sum fold_right snd];
    [discriminate|].
  intros H. specialize (IH H). unfold list_sum in IH. lia.
Qed.

Lemma total_ensure_actor (d : dict ActorData) (k : string) :
  size (mkActorData [] []) = 0%nat ->
  list_sum (map (fun e => size (snd e)) (ensure_actor d k))
  = list_sum (map (fun e => size (snd e)) d).
Proof.
  intros size_of_new_actor. unfold ensure_actor. destruct (dict_get d k) eqn:E; [reflexivity|].
  rewrite total_set_absent by exact E. lia.
Qed.

End Totals.

Lemma ensure_actor_present (d : dict ActorData) (k : string) :
  exists a, dict_get (ensure_actor d k) k = Some a
            /\ pose_frames a = pose_frames_of d k
            /\ mouth_frames a = mouth_frames_of d k.
Proof.
  unfold ensure_actor, pose_frames_of, mouth_frames_of.
  destruct (dict_get d k) as [a|] eqn:E.
  - exists a. rewrite E. auto.
  - exists (mkActorData [] []). rewrite dict_get_set_same. auto.
Qed.

Lemma totals_append_pose (d : dict ActorData) (k : string) (pf : PoseFrame) :
  total_pose_frames (append_pose_frame (ensure_actor d k) k pf)
  = S (total_pose_frames d)
  /\ total_mouth_frames (append_pose_frame (ensure_actor d k) k pf)
     = total_mouth_frames d.
Proof.
  destruct (ensure_actor_present d k) as [a [Ha _]].
  unfold append_pose_frame. rewrite Ha.
  pose proof (total_set_present (fun a => List.length (pose_frames a))
                (ensure_actor d k) k a
                (mkActorData (pose_frames a ++ [pf]) (mouth_frames a)) Ha) as Hp.
  pose proof (total_set_present (fun a => List.length (mouth_frames a))
                (ensure_actor d k) k a
                (mkActorData (pose_frames a ++ [pf]) (mouth_frames a)) Ha) as Hm.
  rewrite total_ensure_actor in Hp, Hm by reflexivity.
  cbn [pose_frames mouth_frames] in Hp, Hm. rewrite length_app in Hp.
  cbn [List.length] in Hp.
  unfold total_pose_frames, total_mouth_frames.
  split; lia.
Qed.

Lemma totals_append_mouth (d : dict ActorData) (k : string) (mf : MouthFrame) :
  total_pose_frames (append_mouth_frame (ensure_actor d k) k mf)
  = total_pose_frames d
  /\ total_mouth_frames (append_mouth_frame (ensure_actor d k) k mf)
     = S (total_mouth_frames d).
Proof.
  destruct (ensure_actor_present d k) as [a [Ha _]].
  unfold append_mouth_frame. rewrite Ha.
  pose proof (total_set_present (fun a => List.length (pose_frames a))
                (ensure_actor d k) k a
                (mkActorData (pose_frames a) (mouth_frames a ++ [mf])) Ha) as Hp.
  pose proof (total_set_present (fun a => List.length (mouth_frames a))
                (ensure_actor d k) k a
                (mkActorData (pose_frames a) (mouth_frames a ++ [mf])) Ha) as Hm.
  rewrite total_ensure_actor in Hp, Hm by reflexivity.
  cbn [pose_frames mouth_frames] in Hp, Hm. rewrite length_app in Hm.
  cbn [List.length] in Hm.
  unfold total_pose_frames, total_mouth_frames.
  split; lia.
Qed.

Lemma totals_assign_poses fc ts cs : forall idx actors fap,
  total_pose_frames (fst (assign_poses fc ts idx cs actors fap))
  = (total_pose_frames actors + List.length cs)%nat
  /\ total_mouth_frames (fst (assign_poses fc ts idx cs actors fap))
     = total_mouth_frames actors.
Proof.
  induction cs as [|[cx lm] rest IH]; intros idx actors fap; cbn [assign_poses].
  - cbn [fst List.length]. split; lia.
  - match goal with
    | |- context [assign_poses fc ts (S idx) rest ?a ?f] =>
        destruct (IH (S idx) a f) as [Hp Hm]
    end.
    rewrite Hp, Hm.
    match goal with
    | |- context [append_pose_frame (ensure_actor actors ?k) ?k ?pf] =>
        destruct (totals_append_pose actors k pf) as [Hp1 Hm1]
    end.
    rewrite Hp1, Hm1. cbn [List.length]. split; lia.
Qed.

Lemma totals_assign_faces fc ts fap infos : forall actors,
  total_pose_frames (assign_faces fc ts fap infos actors)
  = total_pose_frames actors
  /\ total_mouth_frames (assign_faces fc ts fap infos actors)
     = (total_mouth_frames actors + List.length infos)%nat.
Proof.
  induction infos as [|info rest IH]; intros actors; cbn [assign_faces].
  - cbn [fst List.length]. split; lia.
  - match goal with
    | |- context [assign_faces fc ts fap rest ?a] =>
        destruct (IH a) as [Hp Hm]
    end.
    rewrite Hp, Hm.
    match goal with
    | |- context [append_mouth_frame (ensure_actor actors ?k) ?k ?mf] =>
        destruct (totals_append_mouth actors k mf) as [Hp1 Hm1]
    end.
    rewrite Hp1, Hm1. cbn [List.length]. split; lia.
Qed.

Lemma pose_candidates_length (poses : list (list Landmark)) :
  List.length (pose_candidates poses) = List.length (non_empty poses).
Proof.
  unfold non_empty. induction poses as [|p rest IH]; cbn; [reflexivity|].
  destruct p; cbn; now rewrite IH.
Qed.

Lemma face_anchor_of_detection (face : list Landmark) (m : Q) :
  face_anchor (fst (extract_face_landmarks face m)) = None <-> face = [].
Proof.
  split.
  - unfold face_anchor, extract_face_landmarks.
    cbn [fst upper_lip_center lower_lip_center all_468_landmarks].
    destruct face as [|x rest]; [reflexivity|].
    cbn [enumerate_landmarks].
    destruct (if (UPPER_LIP_CENTER_ID <? _)%nat then _ else None);
      [destruct (if (LOWER_LIP_CENTER_ID <? _)%nat then _ else None)|];
      discriminate.
  - intros ->. reflexivity.
Qed.

Lemma collect_face_infos_length (faces : list (list Landmark)) : forall m,
  List.length (fst (collect_face_infos faces m)) = List.length (non_empty faces).
Proof.
  unfold non_empty.
  induction faces as [|face rest IH]; intros m; cbn [collect_face_infos filter].
  - reflexivity.
  - pose proof (face_anchor_of_detection face m) as Hanchor.
    destruct (extract_face_landmarks face m) as [fd m1]. cbn [fst] in Hanchor.
    specialize (IH m1).
    destruct (collect_face_infos rest m1) as [infos m2]. cbn [fst] in IH.
    destruct (face_anchor fd) eqn:E.
    + destruct face as [|x r].
      * destruct Hanchor as [_ H]. specialize (H eq_refl). discriminate.
      * cbn [fst List.length]. now rewrite IH.
    + destruct Hanchor as [H _]. rewrite (H eq_refl). cbn [fst]. exact IH.
Qed.

(** The effect of one frame on the totals. *)
Lemma process_frame_totals (inp : FrameInput) (s : State) :
  total_pose_frames (actors_data (process_frame inp s))
  = (total_pose_frames (actors_data s)
     + List.length (non_empty (fi_pose_landmarks_list inp)))%nat
  /\ total_mouth_frames (actors_data (process_frame inp s))
     = (total_mouth_frames (actors_data s)
        + List.length (non_empty (fi_faces inp)))%nat
  /\ max_actors_detected (process_frame inp s)
     = Nat.max (max_actors_detected s)
               (List.length (non_empty (fi_pose_landmarks_list inp))).
Proof.
  unfold process_frame.
  pose proof (totals_assign_poses (frame_count s) (fi_timestamp_iso inp)
                (sort_by_key (pose_candidates (fi_pose_landmarks_list inp)))
                0 (actors_data s) []) as [Hp Hm].
  pose proof (assign_poses_ranked (frame_count s) (fi_timestamp_iso inp)
                (sort_by_key (pose_candidates (fi_pose_landmarks_list inp)))
                0 (actors_data s) [] eq_refl) as Hfap.
  assert (Hlen : List.length (sort_by_key (pose_candidates (fi_pose_landmarks_list inp)))
                 = List.length (non_empty (fi_pose_landmarks_list inp))).
  { rewrite <- pose_candidates_length. symmetry.
    apply Permutation_length, sort_by_key_perm. }
  unfold frame_ranking.
  destruct (assign_poses _ _ _ _ _ _) as [actors fap].
  cbn [fst snd] in Hp, Hm, Hfap.
  pose proof (collect_face_infos_length (fi_faces inp) (max_mouth_distance s))
    as Hinfos.
  destruct (collect_face_infos _ _) as [infos m]. cbn [fst] in Hinfos.
  cbn [actors_data max_actors_detected].
  destruct (totals_assign_faces (frame_count s) (fi_timestamp_iso inp) fap infos
                                actors) as [Hp2 Hm2].
  rewrite Hp2, Hm2, Hp, Hm, Hinfos, Hlen. split; [reflexivity|].
  split; [reflexivity|].
  f_equal. rewrite Hfap. cbn [app].
  rewrite <- (length_map fst), ranked_keys, length_map, length_seq. exact Hlen.
Qed.

(** X4.  Over a whole video: the dataset holds exactly one pose frame per
    non-empty pose detection and one mouth frame per non-empty face
    detection, and [max_actors_detected] is the largest number of non-empty
    poses seen in one frame. *)
Theorem dataset_counts_detections :
  forall frames : list FrameInput,
    let s := process_frames frames initial_state in
    total_pose_frames (actors_data s)
    = list_sum (map (fun inp => List.length (non_empty (fi_pose_landmarks_list inp)))
                    frames)
    /\ total_mouth_frames (actors_data s)
       = list_sum (map (fun inp => List.length (non_empty (fi_faces inp))) frames)
    /\ max_actors_detected s
       = list_max (map (fun inp => List.length (non_empty (fi_pose_landmarks_list inp)))
                       frames).
Proof.
  intros frames s.
  assert (H : forall s0,
             total_pose_frames (actors_data (process_frames frames s0))
             = (total_pose_frames (actors_data s0)
                + list_sum (map (fun inp => List.length
                                   (non_empty (fi_pose_landmarks_list inp))) frames))%nat
             /\ total_mouth_frames (actors_data (process_frames frames s0))
                = (total_mouth_frames (actors_data s0)
                   + list_sum (map (fun inp => List.length (non_empty (fi_faces inp)))
                                   frames))%nat
             /\ max_actors_detected (process_frames frames s0)
                = Nat.max (max_actors_detected s0)
                    (list_max (map (fun inp => List.length
                                      (non_empty (fi_pose_landmarks_list inp))) frames))).
  { unfold process_frames.
    induction frames as [|inp rest IH]; intros s0;
      cbn [fold_left map list_sum list_max fold_right].
    - repeat split; lia.
    - destruct (IH (process_frame inp s0)) as [Hp [Hm Hx]].
      destruct (process_frame_totals inp s0) as [Hp1 [Hm1 Hx1]].
      rewrite Hp, Hm, Hx, Hp1, Hm1, Hx1.
      unfold list_sum, list_max. repeat split; lia. }
  destruct (H initial_state) as [Hp [Hm Hx]]. fold s in Hp, Hm, Hx.
  rewrite Hp, Hm, Hx.
  change (total_pose_frames (actors_data initial_state)) with 0%nat.
  change (total_mouth_frames (actors_data initial_state)) with 0%nat.
  change (max_actors_detected initial_state) with 0%nat.
  repeat split; lia.
Qed.

(** *** Frame numbers and ratios stored per actor *)

Lemma strongly_sorted_append (l : list Z) (x : Z) :
  StronglySorted Z.lt l -> Forall (fun k => (k < x)%Z) l ->
  StronglySorted Z.lt (l ++ [x]).
Proof.
  induction 1 as [|a l Hs IH Ha]; intros Hall; cbn.
  - repeat constructor.
  - inversion Hall; subst. constructor; [now apply IH|].
    apply Forall_app. split; [exact Ha | now repeat constructor].
Qed.

Lemma sorted_append (l : list Z) (x : Z) :
  Sorted Z.le l -> Forall (fun k => (k <= x)%Z) l -> Sorted Z.le (l ++ [x]).
Proof.
  induction 1 as [|a l Hs IH Ha]; intros Hall; cbn.
  - repeat constructor.
  - inversion Hall; subst. constructor; [now apply IH|].
    destruct Ha as [|b l' Hab]; cbn; constructor; assumption.
Qed.

Lemma actor_well_formed_weaken (n n' : Z) (a : ActorData) :
  (n <= n')%Z -> actor_well_formed n a -> actor_well_formed n' a.
Proof.
  intros Hle [H1 [H2 [H3 H4]]]. repeat split; try assumption.
  - eapply Forall_impl; [|exact H2]. cbn. intros k Hk. lia.
  - eapply Forall_impl; [|exact H4]. cbn. intros mf [Hk Hr]. split; [lia | exact Hr].
Qed.

Lemma actor_well_formed_new (n : Z) : actor_well_formed n (mkActorData [] []).
Proof. repeat split; constructor. Qed.

Lemma ranked_frame_number fc ts cs : forall idx id pf,
  In (id, pf) (ranked fc ts idx cs) -> pf_frame_number pf = fc.
Proof.
  induction cs as [|[cx lm] rest IH]; intros idx id pf Hin; cbn in Hin.
  - contradiction.
  - destruct Hin as [H|H]; [now inversion H | eapply IH, H].
Qed.

Lemma assign_poses_untouched fc ts cs : forall idx actors fap id,
  ~ In id (map fst (ranked fc ts idx cs)) ->
  dict_get (fst (assign_poses fc ts idx cs actors fap)) id = dict_get actors id.
Proof.
  induction cs as [|[cx lm] rest IH]; intros idx actors fap id Hnin;
    cbn [assign_poses ranked map fst] in *.
  - reflexivity.
  - rewrite IH by (intros H; apply Hnin; now right).
    apply append_after_ensure_other. intros Heq. apply Hnin. now left.
Qed.

(** The pose frames of an actor, with a frame that is well formed so far,
    stay well formed when the pose frame of the current frame is appended. *)
Lemma well_formed_after_pose (fc : Z) (actors : dict ActorData) (id : string)
    (pf : PoseFrame) :
  (0 <= fc)%Z ->
  dataset_well_formed fc actors ->
  pf_frame_number pf = fc ->
  actor_well_formed (fc + 1)
    (mkActorData (pose_frames_of actors id ++ [pf]) (mouth_frames_of actors id)).
Proof.
  intros Hfc Hwf Hpf.
  assert (Hold : actor_well_formed fc
                   (mkActorData (pose_frames_of actors id) (mouth_frames_of actors id))).
  { unfold pose_frames_of, mouth_frames_of.
    destruct (dict_get actors id) as [a|] eqn:E.
    - destruct (Hwf id a E) as [H1 [H2 [H3 H4]]]. repeat split; assumption.
    - apply actor_well_formed_new. }
  destruct Hold as [H1 [H2 [H3 H4]]]. cbn [pose_frames mouth_frames] in *.
  repeat split; cbn [pose_frames mouth_frames].
  - rewrite map_app. cbn [map]. rewrite Hpf.
    apply strongly_sorted_append; [exact H1|].
    eapply Forall_impl; [|exact H2]. cbn. intros k Hk. lia.
  - rewrite map_app. apply Forall_app. split.
    + eapply Forall_impl; [|exact H2]. cbn. intros k Hk. lia.
    + cbn [map]. rewrite Hpf. repeat constructor; lia.
  - exact H3.
  - eapply Forall_impl; [|exact H4]. cbn. intros mf [Hk Hr]. split; [lia | exact Hr].
Qed.

Lemma well_formed_after_poses fc ts cs (actors : dict ActorData) fap :
  (0 <= fc)%Z ->
  dataset_well_formed fc actors ->
  dataset_well_formed (fc + 1) (fst (assign_poses fc ts 0 cs actors fap)).
Proof.
  intros Hfc Hwf id a Hget.
  destruct (in_dec string_dec id (map fst (ranked fc ts 0 cs))) as [Hin|Hnin].
  - apply in_map_iff in Hin. destruct Hin as [[id' pf] [Hid Hin]].
    cbn [fst] in Hid. subst id'.
    rewrite (assign_poses_actors fc ts cs 0 actors fap id pf Hin) in Hget.
    injection Hget as <-.
    apply well_formed_after_pose; try assumption.
    eapply ranked_frame_number, Hin.
  - rewrite assign_poses_untouched in Hget by exact Hnin.
    eapply actor_well_formed_weaken; [|eapply Hwf, Hget]. lia.
Qed.

Lemma well_formed_after_faces fc ts fap (infos : list FaceInfo) :
  (0 <= fc)%Z ->
  Forall (fun info => 0 <= face_mouth_open_ratio info <= 1) infos ->
  forall actors,
    dataset_well_formed (fc + 1) actors ->
    dataset_well_formed (fc + 1) (assign_faces fc ts fap infos actors).
Proof.
  intros Hfc Hratios.
  induction Hratios as [|info rest Hr Hrest IH]; intros actors Hwf;
    cbn [assign_faces]; [exact Hwf|].
  apply IH. intros id a Hget.
  set (k := associate_face fap (face_center_x info)) in *.
  destruct (string_dec k id) as [<-|Hne].
  - rewrite append_mouth_after_ensure in Hget. injection Hget as <-.
    assert (Hold : actor_well_formed (fc + 1)
                     (mkActorData (pose_frames_of actors k) (mouth_frames_of actors k))).
    { unfold pose_frames_of, mouth_frames_of.
      destruct (dict_get actors k) as [a|] eqn:E.
      - destruct (Hwf k a E) as [H1 [H2 [H3 H4]]]. repeat split; assumption.
      - apply actor_well_formed_new. }
    destruct Hold as [H1 [H2 [H3 H4]]]. cbn [pose_frames mouth_frames] in *.
    repeat split; cbn [pose_frames mouth_frames]; try assumption.
    + rewrite map_app. cbn [map mf_frame_number].
      apply sorted_append; [exact H3|].
      apply Forall_map. eapply Forall_impl; [|exact H4].
      cbn. intros mf [Hk _]. lia.
    + apply Forall_app. split; [exact H4|].
      constructor; [|constructor]. cbn [mf_frame_number mf_mouth_open_ratio].
      split; [lia | exact Hr].
  - rewrite append_mouth_after_ensure_other in Hget by exact Hne.
    eapply Hwf, Hget.
Qed.

Lemma process_frame_well_formed (inp : FrameInput) (s : State) :
  (0 <= frame_count s)%Z ->
  dataset_well_formed (frame_count s) (actors_data s) ->
  dataset_well_formed (frame_count (process_frame inp s))
                      (actors_data (process_frame inp s)).
Proof.
  intros Hfc Hwf.
  destruct (process_frame_camera inp s) as [_ Hn]. rewrite Hn.
  unfold process_frame.
  pose proof (well_formed_after_poses (frame_count s) (fi_timestamp_iso inp)
                (sort_by_key (pose_candidates (fi_pose_landmarks_list inp)))
                (actors_data s) [] Hfc Hwf) as Hposes.
  unfold frame_ranking.
  destruct (assign_poses _ _ _ _ _ _) as [actors fap]. cbn [fst] in Hposes.
  pose proof (collect_face_infos_invariant (fi_faces inp) (max_mouth_distance s))
    as [_ Hratios].
  destruct (collect_face_infos _ _) as [infos m]. cbn [fst] in Hratios.
  cbn [actors_data].
  now apply well_formed_after_faces.
Qed.

(** X5.  After any number of frames, for every actor of the dataset: the pose
    frames have strictly increasing frame numbers (at most one pose per actor
    and frame), the mouth frames have non-decreasing frame numbers, every
    frame number is one of the frames processed (0 <= n < frame count, the
    range of the camera samples), and every mouth ratio lies in [0, 1]. *)
Theorem dataset_frames_well_formed :
  forall frames : list FrameInput,
    let s := process_frames frames initial_state in
    dataset_well_formed (frame_count s) (actors_data s).
Proof.
  intros frames.
  assert (H : forall s0,
             (0 <= frame_count s0)%Z ->
             dataset_well_formed (frame_count s0) (actors_data s0) ->
             (0 <= frame_count (process_frames frames s0))%Z
             /\ dataset_well_formed (frame_count (process_frames frames s0))
                                    (actors_data (process_frames frames s0))).
  { unfold process_frames.
    induction frames as [|inp rest IH]; intros s0 Hfc Hwf; cbn [fold_left].
    - split; assumption.
    - apply IH.
      + destruct (process_frame_camera inp s0) as [_ Hn]. rewrite Hn. lia.
      + now apply process_frame_well_formed. }
  apply H.
  - cbn. lia.
  - intros id a Hget. discriminate.
Qed.

(** *** Ties in the ranking *)

Lemma insert_by_key_with_key {A} (k : Q) (item : Q * A) (l : list (Q * A)) :
  with_key k (insert_by_key item l) = with_key k (item :: l).
Proof.
  unfold with_key. induction l as [|y rest IH]; [reflexivity|].
  cbn [insert_by_key]. destruct (ltb (fst y) (fst item)) eqn:Hlt; [|reflexivity].
  cbn [filter] in *. rewrite IH.
  destruct (Qeq_bool (fst y) k) eqn:Hy; [|reflexivity].
  destruct (Qeq_bool (fst item) k) eqn:Hi; [|reflexivity].
  apply ltb_spec in Hlt. apply Qeq_bool_iff in Hy, Hi.
  rewrite Hy, Hi in Hlt. now apply Qlt_irrefl in Hlt.
Qed.

(** X6.  Poses whose anchors are equal keep their detection order in the ranking
    of a frame: for every anchor value, the sorted candidates with that
    value are the unsorted ones with that value, in the same order.  So of
    two poses at the same horizontal position the one detected first gets
    the smaller actor ID. *)
Theorem ranking_keeps_detection_order_on_ties :
  forall (k : Q) (pose_landmarks_list : list (list Landmark)),
    with_key k (sort_by_key (pose_candidates pose_landmarks_list))
    = with_key k (pose_candidates pose_landmarks_list).
Proof.
  intros k detections.
  induction (pose_candidates detections) as [|item rest IH]; [reflexivity|].
  cbn [sort_by_key]. rewrite insert_by_key_with_key.
  unfold with_key in *. cbn [filter]. now rewrite IH.
Qed.


End DatasetFacts.


(** ** EXO_03_BLENDER_WORKER.py: lip sync, camera and the variant loop *)

Module ForgeFacts.

Import Py PyFacts Worker WorkerAux WorkerFacts Forge ForgeAux.

(** *** Continuous lip sync *)

Lemma mouth_frames_loop_run (mesh key : string) (mouth_frames : list MouthFrame) :
  forall w : World,
    result (mouth_frames_loop mesh key mouth_frames w) = inl tt
    /\ emitted (mouth_frames_loop mesh key mouth_frames w)
       = map (mouth_keyframe mesh key) mouth_frames.
Proof.
  induction mouth_frames as [|mf rest IH]; intros w; cbn [mouth_frames_loop map].
  - split; reflexivity.
  - unfold frame_set. rewrite bind_modify, bind_emit. cbn [result emitted].
    match goal with
    | |- context [mouth_frames_loop mesh key rest ?w0] =>
        destruct (IH w0) as [Hr He]
    end.
    rewrite Hr, He. split; reflexivity.
Qed.

(** X7.  Without mouth cues (key absent or list empty) and with a mouth shape key
    at hand, [apply_lip_sync] completes and inserts one keyframe per mouth
    frame of actor "0", in order, at the frame's number with the frame's
    ratio (0 for an absent number or ratio); the mouth frames of the other
    actors give no keyframe. *)
Theorem lip_sync_falls_back_to_actor0 :
  forall (w : World) (mission : MissionData) (avatar : SceneObject)
         (key : string),
    mission_data w = Some mission ->
    find_avatar_mesh (scene_objects w) = Some avatar ->
    find_mouth_shape_key (get (obj_key_blocks avatar) []) = Some key ->
    get (md_mouthCues mission) [] = [] ->
    result (apply_lip_sync w) = inl tt
    /\ emitted (apply_lip_sync w)
       = map (mouth_keyframe (obj_name avatar) key)
             (mouth_frames_of_actor0 mission)
    /\ forall frame,
         curve_value (obj_name avatar) key frame (emitted (apply_lip_sync w))
         <> None
         <-> In frame (map (fun mf => get (mf_frame_number mf) 0%Z)
                           (mouth_frames_of_actor0 mission)).
Proof.
  intros w mission avatar key Hm Ha Hk Hc.
  assert (Hrun : result (apply_lip_sync w) = inl tt
                 /\ emitted (apply_lip_sync w)
                    = map (mouth_keyframe (obj_name avatar) key)
                          (mouth_frames_of_actor0 mission)).
  { unfold apply_lip_sync. rewrite bind_read, Hm, Ha, Hk, Hc.
    apply mouth_frames_loop_run. }
  destruct Hrun as [Hr He]. split; [exact Hr|]. split; [exact He|].
  intros frame. rewrite He. clear.
  induction (mouth_frames_of_actor0 mission) as [|mf rest IH]; cbn [map curve_value].
  - split; [congruence | intros []].
  - destruct (curve_value (obj_name avatar) key frame
                (map (mouth_keyframe (obj_name avatar) key) rest)) as [v|] eqn:E.
    + split; [intros _; right; apply IH; congruence | congruence].
    + unfold mouth_keyframe at 1. rewrite !String.eqb_refl. cbn [andb].
      destruct (Z.eqb_spec (get (mf_frame_number mf) 0%Z) frame) as [Heq|Hne].
      * split; [intros _; left; exact Heq | congruence].
      * split; [congruence|].
        intros [Heq|Hin]; [contradiction|]. apply IH in Hin. congruence.
Qed.

Lemma lip_sync_falls_back_to_actor0_witness :
  result (apply_lip_sync fallback_world) = inl tt
  /\ emitted (apply_lip_sync fallback_world)
     = [ ShapeKeyValue "EXO_Avatar_0" "MouthOpen" 0 (1#4);
         ShapeKeyValue "EXO_Avatar_0" "MouthOpen" 2 1;
         ShapeKeyValue "EXO_Avatar_0" "MouthOpen" 0 0 ].
Proof.
  destruct (lip_sync_falls_back_to_actor0 fallback_world
              (mkMissionData None
                 (Some [ ("0"%string,
                          mkActorData (Some [])
                            (Some [ mkMouthFrame (Some 0%Z) (Some (1#4));
                                    mkMouthFrame (Some 2%Z) (Some 1);
                                    mkMouthFrame None None ]));
                         ("1"%string,
                          mkActorData (Some [])
                            (Some [ mkMouthFrame (Some 1%Z) (Some (1#2)) ])) ])
                 (Some []))
              (mkSceneObject "MESH" "EXO_Avatar_0"
                 (Some [ "Basis"; "MouthOpen" ]%string))
              "MouthOpen" eq_refl eq_refl eq_refl eq_refl) as [Hr [He _]].
  split; [exact Hr | exact He].
Defined.

(** *** The mouth shape key *)

Lemma in_key_blocks_spec (key_blocks : list string) (name : string) :
  in_key_blocks key_blocks name = true <-> In name key_blocks.
Proof.
  unfold in_key_blocks. rewrite existsb_exists. split.
  - intros [x [Hin Heq]]. apply String.eqb_eq in Heq. now subst.
  - intros Hin. exists name. split; [exact Hin | apply String.eqb_refl].
Qed.

Lemma find_all_false {A} (f : A -> bool) (l : list A) :
  (forall x, In x l -> f x = false) -> find f l = None.
Proof.
  induction l as [|x rest IH]; intros H; cbn [find]; [reflexivity|].
  rewrite (H x (or_introl eq_refl)). apply IH. intros y Hy. apply H. now right.
Qed.

Lemma find_first_true {A} (f : A -> bool) (before : list A) (x : A)
    (after : list A) :
  (forall y, In y before -> f y = false) -> f x = true ->
  find f (before ++ x :: after) = Some x.
Proof.
  induction before as [|y rest IH]; intros Hb Hx; cbn [app find].
  - now rewrite Hx.
  - rewrite (Hb y (or_introl eq_refl)). apply IH; [|exact Hx].
    intros z Hz. apply Hb. now right.
Qed.

Lemma mouth_key_found (key_blocks : list string) (name : string) :
  find_mouth_shape_key key_blocks = Some name ->
  In name key_blocks /\ is_mouth_key_name name.
Proof.
  unfold find_mouth_shape_key, is_mouth_key_name.
  destruct (find (in_key_blocks key_blocks) possible_names) as [n|] eqn:E.
  - intros H. injection H as ->. apply find_some in E as [Hin Hkb].
    apply in_key_blocks_spec in Hkb. auto.
  - intros H. apply find_some in H as [Hin Hf].
    apply orb_true_iff in Hf. tauto.
Qed.

Lemma mouth_key_missing (key_blocks : list string) :
  find_mouth_shape_key key_blocks = None
  <-> forall name, In name key_blocks -> ~ is_mouth_key_name name.
Proof.
  split.
  - unfold find_mouth_shape_key, is_mouth_key_name.
    destruct (find (in_key_blocks key_blocks) possible_names) as [n|] eqn:E;
      [discriminate|].
    intros H name Hin [Hp|Hf].
    + pose proof (find_none _ _ E name Hp) as Hk.
      apply in_key_blocks_spec in Hin. congruence.
    + pose proof (find_none _ _ H name Hin) as Hk. cbv beta in Hk.
      apply orb_false_iff in Hk. destruct Hk as [H1 H2].
      destruct Hf; congruence.
  - intros H. destruct (find_mouth_shape_key key_blocks) as [name|] eqn:E;
      [|reflexivity].
    apply mouth_key_found in E as [Hin Hm]. now apply H in Hin.
Qed.

(** X8.  The mouth shape key is chosen among the key blocks of the mesh.  A name is
    chosen only if it is one of the names searched for or contains "mouth" or
    "jaw" in any case, and none is chosen exactly when no key block has such a
    name.  The names searched for come first, in their own order: the first of
    them that the mesh has is chosen, wherever it stands among the key blocks
    and whatever other key blocks there are. *)
Theorem mouth_shape_key_choice :
  forall key_blocks : list string,
    (forall name,
        find_mouth_shape_key key_blocks = Some name ->
        In name key_blocks /\ is_mouth_key_name name)
    /\ (find_mouth_shape_key key_blocks = None
        <-> forall name, In name key_blocks -> ~ is_mouth_key_name name)
    /\ (forall before name after,
          possible_names = before ++ name :: after ->
          In name key_blocks ->
          (forall other, In other before -> ~ In other key_blocks) ->
          find_mouth_shape_key key_blocks = Some name)
    /\ find_mouth_shape_key [ "Basis"; "jawDrop"; "Mouth_Open"; "O" ]%string
       = Some "O"%string
    /\ find_mouth_shape_key [ "Basis"; "JAW_drop"; "Smile" ]%string
       = Some "JAW_drop"%string.
Proof.
  intros key_blocks. split; [apply mouth_key_found|].
  split; [apply mouth_key_missing|].
  split; [|split; reflexivity].
  intros before name after Hp Hin Hb. unfold find_mouth_shape_key.
  rewrite Hp, find_first_true; [reflexivity| |now apply in_key_blocks_spec].
  intros y Hy. destruct (in_key_blocks key_blocks y) eqn:E; [|reflexivity].
  apply in_key_blocks_spec in E. now apply Hb in Hy.
Qed.

(** *** Lip sync without a target *)

Lemma no_avatar_mesh (objects : list SceneObject) :
  (forall obj, In obj objects -> ~ is_avatar_mesh obj) ->
  find_avatar_mesh objects = None.
Proof.
  intros H. unfold find_avatar_mesh. apply find_all_false.
  intros obj Hin. specialize (H obj Hin). unfold is_avatar_mesh in H.
  destruct (String.eqb_spec (obj_type obj) "MESH") as [Ht|Ht]; [|reflexivity].
  destruct (String.prefix "EXO_Avatar_" (obj_name obj)) eqn:Hp; [|reflexivity].
  destruct (obj_key_blocks obj) as [kb|] eqn:Hk; [|reflexivity].
  exfalso. apply H. repeat split; auto. congruence.
Qed.

(** X9.  When no object of the scene is a mesh named [EXO_Avatar_...] with shape
    keys, or when the first such mesh has no key block accepted as a mouth
    key, [apply_lip_sync] inserts no keyframe and leaves the state as it is;
    it returns normally on a loaded mission and raises [RuntimeError] when no
    mission is loaded. *)
Theorem lip_sync_skipped_without_mouth_key :
  forall w : World,
    (forall obj, In obj (scene_objects w) -> ~ is_avatar_mesh obj)
    \/ (exists avatar,
          find_avatar_mesh (scene_objects w) = Some avatar
          /\ forall name, In name (get (obj_key_blocks avatar) []) ->
                          ~ is_mouth_key_name name) ->
    apply_lip_sync w
    = mkOutcome (match mission_data w with
                 | Some _ => inl tt
                 | None => inr RuntimeError
                 end) w [].
Proof.
  intros w H. unfold apply_lip_sync. rewrite bind_read.
  destruct (mission_data w) as [mission|]; [|reflexivity].
  destruct H as [H|[avatar [Ha Hk]]].
  - now rewrite (no_avatar_mesh _ H).
  - rewrite Ha. apply mouth_key_missing in Hk. now rewrite Hk.
Qed.

Lemma lip_sync_skipped_without_mouth_key_witness :
  apply_lip_sync
    (mkWorld (Some (mkMissionData None None (Some [cue_C]))) None 1 None []
             [ mkSceneObject "MESH" "EXO_Avatar_0" None;
               mkSceneObject "MESH" "EXO_Avatar_1"
                 (Some [ "Basis"; "Smile" ]%string) ]
             30 0 None "OBJECT")
  = mkOutcome (inl tt)
      (mkWorld (Some (mkMissionData None None (Some [cue_C]))) None 1 None []
               [ mkSceneObject "MESH" "EXO_Avatar_0" None;
                 mkSceneObject "MESH" "EXO_Avatar_1"
                   (Some [ "Basis"; "Smile" ]%string) ]
               30 0 None "OBJECT")
      [].
Proof.
  apply (lip_sync_skipped_without_mouth_key
           (mkWorld (Some (mkMissionData None None (Some [cue_C]))) None 1 None []
                    [ mkSceneObject "MESH" "EXO_Avatar_0" None;
                      mkSceneObject "MESH" "EXO_Avatar_1"
                        (Some [ "Basis"; "Smile" ]%string) ]
                    30 0 None "OBJECT")).
  right. exists (mkSceneObject "MESH" "EXO_Avatar_1"
                   (Some [ "Basis"; "Smile" ]%string)).
  split; [reflexivity|].
  intros name Hin. cbn in Hin.
  destruct Hin as [<-|[<-|[]]];
    (intros [Hp|[Hf|Hf]];
     [ cbn in Hp; repeat (destruct Hp as [Hp|Hp]; [discriminate|]); exact Hp
     | vm_compute in Hf; discriminate
     | vm_compute in Hf; discriminate ]).
Defined.


(** *** Camera variants *)

(** X10.  The intensity of a variant depends on the variant number modulo 3 only:
    1.0, 0.7 and 1.5 for the remainders 0, 1 and 2, also for a negative
    number; so it repeats every three variants and stays within
    [0.7, 1.5]. *)
Theorem intensity_of_variant_cycle :
  forall variant_id : Z,
    ((variant_id mod 3 = 0)%Z /\ intensity_of_variant variant_id == 1
     \/ (variant_id mod 3 = 1)%Z /\ intensity_of_variant variant_id = 7#10
     \/ (variant_id mod 3 = 2)%Z /\ intensity_of_variant variant_id = 15#10)
    /\ intensity_of_variant (variant_id + 3) = intensity_of_variant variant_id
    /\ 7#10 <= intensity_of_variant variant_id <= 15#10.
Proof.
  intros v.
  assert (Hcases :
            (v mod 3 = 0)%Z /\ intensity_of_variant v == 1
            \/ (v mod 3 = 1)%Z /\ intensity_of_variant v = 7#10
            \/ (v mod 3 = 2)%Z /\ intensity_of_variant v = 15#10).
  { unfold intensity_of_variant.
    pose proof (Z.mod_pos_bound v 3 eq_refl) as Hb.
    destruct (Z.eqb_spec (v mod 3) 1) as [H1|H1]; [auto|].
    destruct (Z.eqb_spec (v mod 3) 2) as [H2|H2]; [auto|].
    left. assert (H0 : (v mod 3 = 0)%Z) by lia.
    split; [exact H0|]. rewrite H0. reflexivity. }
  split; [exact Hcases|]. split.
  - unfold intensity_of_variant.
    replace ((v + 3) mod 3)%Z with (v mod 3)%Z; [reflexivity|].
    replace (v + 3)%Z with (v + 1 * 3)%Z by lia.
    now rewrite Z.mod_add.
  - destruct Hcases as [[_ H]|[[_ H]|[_ H]]]; rewrite H; split;
      unfold Qle; cbn; lia.
Qed.

Lemma camera_trace_no_flow (I : Q) (bl br : Vector) (data : list FrameData)
    (acc : Accumulators) :
  (forall s, In s data -> fd_optical_flow s = None) ->
  camera_trace I bl br data acc = [].
Proof.
  induction data as [|fd rest IH]; intros H; cbn [camera_trace]; [reflexivity|].
  rewrite (H fd (or_introl eq_refl)). apply IH. intros s Hs. apply H. now right.
Qed.

(** The camera that a run of the camera loop leaves is posed as its last
    keyframes say. *)
Lemma camera_loop_final (bl br : Vector) (data : list FrameData) :
  forall (acc : Accumulators) (w : World) (c : Camera),
    camera w = Some c ->
    let o := camera_loop bl br data acc w in
    camera (world o) = Some (pose_after c (emitted o)).
Proof.
  induction data as [|fd rest IH]; intros acc w c Hc.
  - cbn. exact Hc.
  - destruct (fd_optical_flow fd) as [fl|] eqn:Hfl.
    + rewrite (camera_loop_step bl br fd rest acc w c fl Hc Hfl).
      cbv zeta. cbn [result world emitted].
      match goal with
      | |- context [camera_loop bl br rest ?a ?w0] =>
          pose proof (IH a w0 _ eq_refl) as Hfinal
      end.
      cbv zeta in Hfinal. rewrite Hfinal. reflexivity.
    + cbn [camera_loop]. rewrite Hfl. now apply (IH acc w c).
Qed.

(** The state a whole call leaves on a loaded mission with a camera. *)
Lemma apply_camera_animation_state (variant_id : Z) (w : World)
    (mission : MissionData) (cam : Camera) :
  mission_data w = Some mission ->
  camera w = Some cam ->
  let o := apply_camera_animation variant_id w in
  camera (world o) = Some (pose_after cam (emitted o))
  /\ camera_intensity (world o) = intensity_of_variant variant_id
  /\ mission_data (world o) = Some mission.
Proof.
  intros Hm Hc. unfold apply_camera_animation.
  rewrite bind_read, Hm, Hc.
  unfold set_camera_intensity. rewrite bind_modify. cbv beta.
  destruct (get (md_camera mission) []) as [|fd rest] eqn:Hdata.
  - cbn. auto.
  - match goal with
    | |- context [camera_loop ?bl ?br ?d ?a ?w0] =>
        destruct (camera_loop_run bl br d a w0 cam Hc) as [_ [_ [Hi [Hmd _]]]];
        pose proof (camera_loop_final bl br d a w0 cam Hc) as Hfinal
    end.
    cbv zeta in *. cbn [camera_intensity mission_data] in Hi, Hmd.
    split; [exact Hfinal|]. split; [exact Hi|]. rewrite Hmd. exact Hm.
Qed.

(** X11.  A call of [apply_camera_animation] leaves the camera posed as the last
    keyframes it inserted say, records the variant's intensity and keeps the
    mission.  When no camera sample carries optical flow (the key absent, the
    list empty, or every sample without flow) it inserts no keyframe and the
    camera stays where it was. *)
Theorem camera_left_at_last_keyframes :
  forall (variant_id : Z) (w : World) (mission : MissionData) (cam : Camera),
    mission_data w = Some mission ->
    camera w = Some cam ->
    let o := apply_camera_animation variant_id w in
    camera (world o) = Some (pose_after cam (emitted o))
    /\ camera_intensity (world o) = intensity_of_variant variant_id
    /\ mission_data (world o) = Some mission
    /\ ((forall s, In s (get (md_camera mission) []) ->
                   fd_optical_flow s = None) ->
        result o = inl tt /\ emitted o = [] /\ camera (world o) = Some cam).
Proof.
  intros v w mission cam Hm Hc o.
  destruct (apply_camera_animation_state v w mission cam Hm Hc)
    as [Hfinal [Hi Hmd]].
  fold o in Hfinal, Hi, Hmd.
  split; [exact Hfinal|]. split; [exact Hi|]. split; [exact Hmd|].
  intros Hnone.
  destruct (apply_camera_animation_run v w mission cam Hm Hc) as [Hr He].
  fold o in Hr, He.
  assert (Hempty : emitted o = []).
  { rewrite He. unfold camera_keyframes. now apply camera_trace_no_flow. }
  split; [exact Hr|]. split; [exact Hempty|].
  rewrite Hfinal, Hempty. reflexivity.
Qed.

Lemma camera_left_at_last_keyframes_witness :
  camera (world (apply_camera_animation 0 example_world))
  = Some (pose_after example_camera
            (emitted (apply_camera_animation 0 example_world))).
Proof.
  exact (proj1 (camera_left_at_last_keyframes 0 example_world example_mission
                  example_camera eq_refl eq_refl)).
Defined.

(** X12.  Variants run one after the other on the same scene are not independent:
    a call that follows another one takes the pose the first call left, that
    of its last keyframes, as its base pose.  Its keyframes are those the
    call inserts on any worker with the same camera samples whose camera
    stands at that pose. *)
Theorem camera_variants_chain :
  forall (v1 v2 : Z) (w w' : World) (mission mission' : MissionData)
         (cam : Camera),
    mission_data w = Some mission ->
    camera w = Some cam ->
    mission_data w' = Some mission' ->
    md_camera mission' = md_camera mission ->
    camera w' = Some (pose_after cam (emitted (apply_camera_animation v1 w))) ->
    result (apply_camera_animation v2 (world (apply_camera_animation v1 w)))
    = inl tt
    /\ emitted (apply_camera_animation v2 (world (apply_camera_animation v1 w)))
       = emitted (apply_camera_animation v2 w').
Proof.
  intros v1 v2 w w' mission mission' cam Hm Hc Hm' Hsame Hc'.
  destruct (apply_camera_animation_state v1 w mission cam Hm Hc)
    as [Hfinal [_ Hmd]].
  cbv zeta in Hfinal, Hmd.
  destruct (apply_camera_animation_run v2 _ mission _ Hmd Hfinal) as [Hr He].
  destruct (apply_camera_animation_run v2 w' mission' _ Hm' Hc') as [_ He'].
  split; [exact Hr|]. rewrite He, He', Hsame. reflexivity.
Qed.

Lemma camera_variants_chain_witness :
  result (apply_camera_animation 1
            (world (apply_camera_animation 0 example_world))) = inl tt
  /\ emitted (apply_camera_animation 1
                (world (apply_camera_animation 0 example_world)))
     = emitted (apply_camera_animation 1
                  (mkWorld (Some example_mission)
                     (Some (pose_after example_camera
                              (emitted (apply_camera_animation 0 example_world))))
                     1 None [] [] 30 0 None "OBJECT")).
Proof.
  apply (camera_variants_chain 0 1 example_world
           (mkWorld (Some example_mission)
              (Some (pose_after example_camera
                       (emitted (apply_camera_animation 0 example_world))))
              1 None [] [] 30 0 None "OBJECT")
           example_mission example_mission example_camera);
    reflexivity.
Defined.


(** *** Intensity scales the camera path *)

Lemma accumulate_scaled (I1 I2 c : Q) (acc1 acc2 : Accumulators)
    (fl : OpticalFlow) :
  I2 == c * I1 ->
  cumulative_x acc2 == c * cumulative_x acc1 ->
  cumulative_y acc2 == c * cumulative_y acc1 ->
  cumulative_z acc2 == c * cumulative_z acc1 ->
  cumulative_rot_x acc2 == c * cumulative_rot_x acc1 ->
  cumulative_rot_y acc2 == c * cumulative_rot_y acc1 ->
  let acc1' := accumulate I1 acc1 fl in
  let acc2' := accumulate I2 acc2 fl in
  cumulative_x acc2' == c * cumulative_x acc1'
  /\ cumulative_y acc2' == c * cumulative_y acc1'
  /\ cumulative_z acc2' == c * cumulative_z acc1'
  /\ cumulative_rot_x acc2' == c * cumulative_rot_x acc1'
  /\ cumulative_rot_y acc2' == c * cumulative_rot_y acc1'.
Proof.
  intros HI Hx Hy Hz Hrx Hry. unfold accumulate.
  cbn [cumulative_x cumulative_y cumulative_z cumulative_rot_x cumulative_rot_y].
  rewrite Hx, Hy, Hz, Hrx, Hry, HI.
  repeat split; ring.
Qed.

Lemma camera_trace_scaled (I1 I2 c : Q) (bl br : Vector) :
  I2 == c * I1 ->
  forall (data : list FrameData) (acc1 acc2 : Accumulators),
    cumulative_x acc2 == c * cumulative_x acc1 ->
    cumulative_y acc2 == c * cumulative_y acc1 ->
    cumulative_z acc2 == c * cumulative_z acc1 ->
    cumulative_rot_x acc2 == c * cumulative_rot_x acc1 ->
    cumulative_rot_y acc2 == c * cumulative_rot_y acc1 ->
    Forall2 (keyframe_scaled c (mkCamera bl br))
            (camera_trace I1 bl br data acc1)
            (camera_trace I2 bl br data acc2).
Proof.
  intros HI. induction data as [|fd rest IH];
    intros acc1 acc2 Hx Hy Hz Hrx Hry; cbn [camera_trace]; [constructor|].
  destruct (fd_optical_flow fd) as [fl|]; [|now apply IH].
  destruct (accumulate_scaled I1 I2 c acc1 acc2 fl HI Hx Hy Hz Hrx Hry)
    as [Hx' [Hy' [Hz' [Hrx' Hry']]]].
  cbv zeta in *.
  constructor; [|constructor; [|now apply IH]].
  - cbn [keyframe_scaled location]. split; [reflexivity|].
    unfold offset_scaled, new_location. cbn [vx vy vz].
    rewrite Hx', Hy', Hz'. repeat split; ring.
  - cbn [keyframe_scaled rotation_euler]. split; [reflexivity|].
    unfold offset_scaled, new_rotation. cbn [vx vy vz].
    rewrite Hrx', Hry'. repeat split; ring.
Qed.

(** X13.  The camera path scales with the intensity.  On the same samples and from
    the same base pose, two variants whose intensities are in the ratio [c]
    insert keyframes at the same frames, and every offset from the base pose
    (location x, y, z and rotation x, y) of the second is [c] times that of
    the first; the roll keeps its base value. *)
Theorem camera_offsets_scale_with_intensity :
  forall (v1 v2 : Z) (w1 w2 : World) (mission1 mission2 : MissionData)
         (cam : Camera) (c : Q),
    mission_data w1 = Some mission1 ->
    mission_data w2 = Some mission2 ->
    md_camera mission1 = md_camera mission2 ->
    camera w1 = Some cam ->
    camera w2 = Some cam ->
    intensity_of_variant v2 == c * intensity_of_variant v1 ->
    Forall2 (keyframe_scaled c cam)
            (emitted (apply_camera_animation v1 w1))
            (emitted (apply_camera_animation v2 w2)).
Proof.
  intros v1 v2 w1 w2 m1 m2 cam c Hm1 Hm2 Hsame Hc1 Hc2 HI.
  destruct (apply_camera_animation_run v1 w1 m1 cam Hm1 Hc1) as [_ He1].
  destruct (apply_camera_animation_run v2 w2 m2 cam Hm2 Hc2) as [_ He2].
  rewrite He1, He2, Hsame. unfold camera_keyframes.
  destruct cam as [bl br]. cbn [location rotation_euler].
  apply camera_trace_scaled; [exact HI|..]; cbn; ring.
Qed.

Lemma camera_offsets_scale_with_intensity_witness :
  Forall2 (keyframe_scaled (3#2) example_camera)
          (emitted (apply_camera_animation 0 example_world))
          (emitted (apply_camera_animation 2 example_world_later)).
Proof.
  apply (camera_offsets_scale_with_intensity 0 2 example_world
           example_world_later example_mission example_mission example_camera
           (3#2));
    reflexivity.
Defined.

(** *** The variant loop *)

Section RunFacts.

Variables setup_scene import_assets setup_camera setup_lighting
          load_mission_data : M unit.
Variable render_video : Z -> M string.
Variable post_prod_ghost : string -> Z -> M string.

Lemma variant_loop_fails (variant_id : Z) (rest : list Z) (w : World) :
  variant_loop render_video post_prod_ghost (variant_id :: rest) w
  = mkOutcome (match result (apply_animation w) with
               | inl _ => inl tt
               | inr e => inr e
               end)
              (world (apply_animation w)) [].
Proof.
  destruct (apply_animation_never_completes w) as [e [Hr He]].
  cbn [variant_loop]. unfold bind at 1.
  rewrite Hr, He. reflexivity.
Qed.

(** Without the mission file, [run] returns [False] at once. *)
Lemma run_without_mission_file (num_variantes : Z) (w : World) :
  run false setup_scene import_assets setup_camera setup_lighting
      load_mission_data render_video post_prod_ghost num_variantes w
  = mkOutcome (inl false) w [].
Proof. reflexivity. Qed.

(** With the mission file, [run] is the set-up, then the loop, then the
    success flag. *)
Lemma run_with_mission_file (num_variantes : Z) (w : World) :
  run true setup_scene import_assets setup_camera setup_lighting
      load_mission_data render_video post_prod_ghost num_variantes w
  = bind (set_up setup_scene import_assets setup_camera setup_lighting
                 load_mission_data)
         (fun _ => bind (variant_loop render_video post_prod_ghost
                                      (py_range 0 num_variantes))
                        (fun _ => ret true)) w.
Proof.
  unfold run, set_up. cbn [negb].
  generalize (variant_loop render_video post_prod_ghost
                           (py_range 0 num_variantes)).
  intros loop. unfold bind.
  destruct (setup_scene w) as [[u1|e1] w1 k1]; cbn [result world emitted];
    [|reflexivity].
  destruct (import_assets w1) as [[u2|e2] w2 k2]; cbn [result world emitted];
    [|reflexivity].
  destruct (setup_camera w2) as [[u3|e3] w3 k3]; cbn [result world emitted];
    [|reflexivity].
  destruct (setup_lighting w3) as [[u4|e4] w4 k4]; cbn [result world emitted];
    [|reflexivity].
  destruct (load_mission_data w4) as [[u5|e5] w5 k5];
    cbn [result world emitted]; [|reflexivity].
  destruct (loop w5) as [[u6|e6] w6 k6]; cbn [result world emitted];
    rewrite <- ?app_assoc; reflexivity.
Qed.

(** With the mission file and a set-up that completes, one variant or more
    makes [run] raise what [apply_animation] raises, with nothing inserted
    after the set-up. *)
Lemma run_stops_at_animation (num_variantes : Z) (w : World) :
  let after_set_up :=
    set_up setup_scene import_assets setup_camera setup_lighting
           load_mission_data w in
  result after_set_up = inl tt ->
  (0 < num_variantes)%Z ->
  exists e,
    result (apply_animation (world after_set_up)) = inr e
    /\ run true setup_scene import_assets setup_camera setup_lighting
           load_mission_data render_video post_prod_ghost num_variantes w
       = mkOutcome (inr e) (world (apply_animation (world after_set_up)))
                   (emitted after_set_up).
Proof.
  intros after_set_up. subst after_set_up. intros Hset Hn.
  rewrite run_with_mission_file.
  match goal with
  | |- context [apply_animation ?w0] =>
      destruct (apply_animation_never_completes w0) as [e [Hr He]]
  end.
  exists e. split; [exact Hr|].
  unfold bind at 1. rewrite Hset. unfold py_range.
  destruct (Z.to_nat (num_variantes - 0)) as [|k] eqn:Hk; [lia|].
  cbn [seq map]. unfold bind. rewrite variant_loop_fails.
  cbn [result world emitted]. rewrite Hr. cbn [result world emitted].
  now rewrite app_nil_r.
Qed.

End RunFacts.

(** X14.  [run] never reaches rendering, and for one variant or more it never
    returns [True].  Without the mission file it returns [False] at once,
    having done nothing.  With the mission file it runs the five set-up
    calls; if one of them raises, [run] raises that exception.  If the set-up
    completes, then for one variant or more the first step of the first
    iteration, [apply_animation], raises: [run] raises that exception,
    whatever rendering and post-production would do, and nothing is inserted
    after the set-up, no lip sync or camera animation being applied; for no
    variant at all the loop does nothing and [run] returns [True]. *)
Theorem run_never_reaches_rendering :
  forall (mission_ready_exists : bool)
         (setup_scene import_assets setup_camera setup_lighting
          load_mission_data : M unit)
         (render_video : Z -> M string)
         (post_prod_ghost : string -> Z -> M string)
         (num_variantes : Z) (w : World),
    let the_set_up :=
      set_up setup_scene import_assets setup_camera setup_lighting
             load_mission_data in
    let the_run :=
      run mission_ready_exists setup_scene import_assets setup_camera
          setup_lighting load_mission_data render_video post_prod_ghost
          num_variantes w in
    (mission_ready_exists = false -> the_run = mkOutcome (inl false) w [])
    /\ (mission_ready_exists = true ->
        forall e,
          result (the_set_up w) = inr e ->
          the_run = mkOutcome (inr e) (world (the_set_up w))
                              (emitted (the_set_up w)))
    /\ (mission_ready_exists = true ->
        result (the_set_up w) = inl tt ->
        (0 < num_variantes)%Z ->
        exists e,
          result (apply_animation (world (the_set_up w))) = inr e
          /\ the_run
             = mkOutcome (inr e)
                         (world (apply_animation (world (the_set_up w))))
                         (emitted (the_set_up w)))
    /\ (mission_ready_exists = true ->
        result (the_set_up w) = inl tt ->
        (num_variantes <= 0)%Z ->
        the_run = mkOutcome (inl true) (world (the_set_up w))
                            (emitted (the_set_up w)))
    /\ ((0 < num_variantes)%Z -> result the_run <> inl true).
Proof.
  intros ready s1 s2 s3 s4 s5 render post n w the_set_up the_run.
  assert (Hfail : ready = true -> forall e,
             result (the_set_up w) = inr e ->
             the_run = mkOutcome (inr e) (world (the_set_up w))
                                 (emitted (the_set_up w))).
  { intros -> e He. unfold the_run. rewrite run_with_mission_file.
    fold the_set_up. unfold bind at 1. rewrite He. reflexivity. }
  assert (Hstop : ready = true -> result (the_set_up w) = inl tt ->
             (0 < n)%Z ->
             exists e,
               result (apply_animation (world (the_set_up w))) = inr e
               /\ the_run
                  = mkOutcome (inr e)
                      (world (apply_animation (world (the_set_up w))))
                      (emitted (the_set_up w))).
  { intros -> Hset Hn.
    exact (run_stops_at_animation s1 s2 s3 s4 s5 render post n w Hset Hn). }
  split; [|split; [|split; [|split]]].
  - intros ->. apply run_without_mission_file.
  - exact Hfail.
  - exact Hstop.
  - intros -> Hset Hn. unfold the_run. rewrite run_with_mission_file.
    fold the_set_up. unfold bind at 1. rewrite Hset. unfold py_range.
    replace (Z.to_nat (n - 0)) with 0%nat by lia.
    cbn [seq map variant_loop]. rewrite bind_ret.
    unfold ret. cbn [result world emitted]. now rewrite app_nil_r.
  - intros Hn. destruct ready.
    + destruct (result (the_set_up w)) as [[]|e] eqn:Hset.
      * destruct (Hstop eq_refl eq_refl Hn) as [e [_ ->]]. discriminate.
      * rewrite (Hfail eq_refl e eq_refl). discriminate.
    + unfold the_run. rewrite run_without_mission_file. discriminate.
Qed.

Lemma run_never_reaches_rendering_witness :
  (result (run true (ret tt) (ret tt) (ret tt) (ret tt) (ret tt)
               (fun _ => ret "rendered"%string) (fun path _ => ret path)
               2 (retarget_world []))
   = inr TypeError
   /\ emitted (run true (ret tt) (ret tt) (ret tt) (ret tt) (ret tt)
                   (fun _ => ret "rendered"%string) (fun path _ => ret path)
                   2 (retarget_world []))
      = [])
  /\ result (run true (ret tt) failing_import (ret tt) (ret tt) (ret tt)
                 (fun _ => ret "rendered"%string) (fun path _ => ret path)
                 2 (retarget_world []))
     = inr RuntimeError.
Proof.
  split.
  - destruct (proj1 (proj2 (proj2 (run_never_reaches_rendering
                       true (ret tt) (ret tt) (ret tt) (ret tt) (ret tt)
                       (fun _ => ret "rendered"%string) (fun path _ => ret path)
                       2 (retarget_world []))))
                eq_refl eq_refl eq_refl) as [e [Ha Hrun]].
    vm_compute in Ha. injection Ha as <-. rewrite Hrun.
    split; reflexivity.
  - rewrite (proj1 (proj2 (run_never_reaches_rendering
                       true (ret tt) failing_import (ret tt) (ret tt) (ret tt)
                       (fun _ => ret "rendered"%string) (fun path _ => ret path)
                       2 (retarget_world [])))
                eq_refl RuntimeError eq_refl).
    reflexivity.
Defined.

(** *** The frame range of the render *)

Lemma py_max_of_spec (first : Z) (others : list Z) :
  (forall x, In x (first :: others) -> (x <= py_max_of first others)%Z)
  /\ In (py_max_of first others) (first :: others).
Proof.
  unfold py_max_of. revert first.
  induction others as [|y rest IH]; intros first; cbn [fold_left].
  - split; [|now left]. intros x [<-|[]]. lia.
  - destruct (IH (if (first <? y)%Z then y else first)) as [Hle Hin].
    split.
    + intros x Hx.
      assert (Hm : (first <= (if (first <? y)%Z then y else first))%Z
                   /\ (y <= (if (first <? y)%Z then y else first))%Z)
        by (destruct (Z.ltb_spec first y); lia).
      destruct Hx as [<-|[<-|Hx]].
      * pose proof (Hle _ (or_introl eq_refl)). lia.
      * pose proof (Hle _ (or_introl eq_refl)). lia.
      * apply Hle. now right.
    + destruct Hin as [Hin|Hin]; [|right; now right].
      rewrite <- Hin. destruct (first <? y)%Z; [right; now left | now left].
Qed.

(** X15.  [render_video] sets the last frame of the scene to the least frame
    number that is no less than the duration of the audio and greater than
    every frame number under ['motion'] (an entry without number counts as
    frame 0); without motion entries it is the audio duration, and 1 when
    that is smaller. *)
Theorem scene_end_frame_covers :
  forall (audio_duration_frames : Z) (motion_data : list (option Z)),
    let scene_end := scene_end_frame audio_duration_frames motion_data in
    (audio_duration_frames <= scene_end)%Z
    /\ (forall frame, In frame motion_data -> (get frame 0 < scene_end)%Z)
    /\ (forall bound : Z,
          (audio_duration_frames <= bound)%Z ->
          (forall frame, In frame motion_data -> (get frame 0 < bound)%Z) ->
          (motion_data = [] -> (1 <= bound)%Z) ->
          (scene_end <= bound)%Z)
    /\ (motion_data = [] -> scene_end = Z.max audio_duration_frames 1).
Proof.
  intros audio motion scene_end.
  assert (Hend : scene_end = Z.max audio (motion_end_frame motion)).
  { unfold scene_end, scene_end_frame, py_max_of. cbn [fold_left].
    destruct (Z.ltb_spec audio (motion_end_frame motion)); lia. }
  assert (Hmotion :
            (motion = [] /\ motion_end_frame motion = 1%Z)
            \/ ((forall frame, In frame motion ->
                               (get frame 0 < motion_end_frame motion)%Z)
                /\ exists frame, In frame motion
                                 /\ motion_end_frame motion = (get frame 0 + 1)%Z)).
  { unfold motion_end_frame. destruct motion as [|f rest]; [left; auto|right].
    cbn [map].
    destruct (py_max_of_spec (get f 0%Z) (map (fun frame => get frame 0%Z) rest))
      as [Hle Hin].
    split.
    - intros frame Hf.
      assert (H : In (get frame 0%Z)
                     (get f 0%Z :: map (fun frame => get frame 0%Z) rest)).
      { destruct Hf as [<-|Hf]; [now left|right].
        apply in_map_iff. now exists frame. }
      apply Hle in H. lia.
    - destruct Hin as [Hin|Hin].
      + exists f. split; [now left|]. now rewrite <- Hin.
      + apply in_map_iff in Hin as [frame [Heq Hin]].
        exists frame. split; [now right|]. now rewrite Heq. }
  rewrite Hend. split; [lia|]. split; [|split].
  - intros frame Hf. destruct Hmotion as [[-> _]|[Hlt _]]; [destruct Hf|].
    apply Hlt in Hf. lia.
  - intros bound Ha Hb H1.
    destruct Hmotion as [[Hnil ->]|[_ [frame [Hin ->]]]].
    + specialize (H1 Hnil). lia.
    + apply Hb in Hin. lia.
  - intros ->. reflexivity.
Qed.

(** *** Output file names *)

Lemma string_length_append (s t : string) :
  String.length (s ++ t) = (String.length s + String.length t)%nat.
Proof. induction s as [|c s IH]; cbn; [reflexivity | now rewrite IH]. Qed.

Lemma append_cancel_r (s t u : string) : (s ++ u = t ++ u)%string -> s = t.
Proof.
  revert t. induction s as [|c s IH]; intros [|d t] H; cbn in H.
  - reflexivity.
  - apply (f_equal String.length) in H. cbn in H.
    rewrite string_length_append in H. lia.
  - apply (f_equal String.length) in H. cbn in H.
    rewrite string_length_append in H. lia.
  - injection H as -> H. f_equal. now apply IH.
Qed.

Lemma digits_of_padded (k : nat) (n : nat) :
  option_map Nat.of_uint
    (NilEmpty.uint_of_string
       (string_of_list_ascii (repeat "0"%char k) ++ str n))
  = Some n.
Proof.
  induction k as [|k IH].
  - cbn [repeat string_of_list_ascii String.append]. unfold str.
    rewrite NilEmpty.usu. cbn [option_map].
    now rewrite DecimalNat.Unsigned.of_to.
  - cbn [repeat string_of_list_ascii String.append NilEmpty.uint_of_string].
    destruct (NilEmpty.uint_of_string
                (string_of_list_ascii (repeat "0"%char k) ++ str n))
      as [d|]; [|discriminate].
    cbn in IH |- *. exact IH.
Qed.

Lemma format_03d_inj (a b : Z) :
  (0 <= a)%Z -> (0 <= b)%Z -> format_03d a = format_03d b -> a = b.
Proof.
  intros Ha Hb H. unfold format_03d in H.
  replace (a <? 0)%Z with false in H by (symmetry; apply Z.ltb_ge; lia).
  replace (b <? 0)%Z with false in H by (symmetry; apply Z.ltb_ge; lia).
  cbn [String.append String.length Nat.add] in H.
  apply (f_equal (fun s => option_map Nat.of_uint (NilEmpty.uint_of_string s)))
    in H.
  rewrite !digits_of_padded in H. injection H as H. lia.
Qed.

(** X16.  Distinct variants get distinct output files: for variant numbers from 0
    on, the file names of two different variants differ.  The number is
    written with at least three digits, and with all its digits when it has
    more. *)
Theorem output_filename_distinct :
  forall a b : Z,
    (0 <= a)%Z -> (0 <= b)%Z -> a <> b ->
    output_filename a <> output_filename b.
Proof.
  intros a b Ha Hb Hne H. apply Hne. unfold output_filename in H.
  cbn [String.append] in H.
  repeat match type of H with
         | String ?c _ = String ?c _ => injection H as H
         end.
  apply append_cancel_r in H. now apply format_03d_inj.
Qed.

Lemma output_filename_distinct_witness :
  output_filename 7 = "EXO_MISSION_007.mp4"%string
  /\ output_filename 1234 = "EXO_MISSION_1234.mp4"%string
  /\ output_filename 7 <> output_filename 1234.
Proof.
  split; [reflexivity|]. split; [reflexivity|].
  apply (output_filename_distinct 7 1234); lia.
Defined.


End ForgeFacts.


(** ** EXO_01_VALIDATOR.py against the scanner's data *)

Module ValidatorFacts.

Import Py PyFacts Scanner ScannerFacts Doc ScannerOutput Validator ValidatorAux.

(** *** The mouth ratio *)

(** The three cases of a ratio. *)
Lemma classic_ratio (ratio : JSON) :
  accepted_ratio ratio
  \/ beyond_float_range ratio
  \/ (~ accepted_ratio ratio /\ ~ beyond_float_range ratio).
Proof.
  destruct ratio as [| b | q | [| |] | s | items | entries];
    cbn [accepted_ratio beyond_float_range];
    try (left; exact I);
    try (right; right; split; exact (fun H => H)).
  destruct (round_binary64 q) as [x|] eqn:Hr.
  - destruct (ltb q 0) eqn:E0.
    + right. right. apply ltb_spec in E0. split; [|discriminate].
      intros [H0 _]. now apply (Qlt_not_le _ _ E0).
    + destruct (ltb 1 q) eqn:E1.
      * right. right. apply ltb_spec in E1. split; [|discriminate].
        intros [_ H1]. now apply (Qlt_not_le _ _ E1).
      * left. apply ltb_false in E0, E1. tauto.
  - right. left. reflexivity.
Qed.

Lemma mouth_ratio_accepted (ratio frame_num : JSON) (log : Log) :
  accepted_ratio ratio ->
  validate_mouth_open_ratio ratio frame_num log = (inl true, log).
Proof.
  destruct ratio as [| b | q | [| |] | s | items | entries];
    cbn [accepted_ratio]; intros H; try contradiction.
  - destruct b; reflexivity.
  - destruct H as [H0 H1].
    unfold validate_mouth_open_ratio.
    cbn [is_number negb less_than greater_than number_value].
    replace (ltb q 0) with false by (symmetry; now apply ltb_false).
    replace (ltb 1 q) with false by (symmetry; now apply ltb_false).
    reflexivity.
  - reflexivity.
Qed.

Lemma mouth_ratio_overflow (ratio frame_num : JSON) (log : Log) :
  beyond_float_range ratio ->
  validate_mouth_open_ratio ratio frame_num log = (inr PyOverflowError, log).
Proof.
  destruct ratio as [| b | q | x | s | items | entries];
    cbn [beyond_float_range]; intros H; try contradiction.
  assert (Hout : ltb q 0 || ltb 1 q = true).
  { destruct (ltb q 0) eqn:E0; [reflexivity|].
    destruct (ltb 1 q) eqn:E1; [reflexivity|].
    apply ltb_false in E0, E1. exfalso.
    now apply (round_binary64_unit q (conj E0 E1)). }
  unfold validate_mouth_open_ratio.
  cbn [is_number negb less_than greater_than number_value].
  rewrite Hout. unfold bind, lift, format_4f. rewrite H. reflexivity.
Qed.

Lemma mouth_ratio_rejected (ratio frame_num : JSON) (log : Log) :
  ~ accepted_ratio ratio ->
  ~ beyond_float_range ratio ->
  exists message,
    validate_mouth_open_ratio ratio frame_num log
    = (inl false,
       mkLog (errors log ++ [message]) (warnings log) (success_count log)).
Proof.
  destruct ratio as [| b | q | [| |] | s | items | entries];
    cbn [accepted_ratio beyond_float_range]; intros Hout Hfloat;
    try (exfalso; apply Hout; exact I);
    try (eexists; reflexivity).
  exists (MouthRatioOutOfRange frame_num).
  assert (Hq : ltb q 0 || ltb 1 q = true).
  { destruct (ltb q 0) eqn:E0; [reflexivity|].
    destruct (ltb 1 q) eqn:E1; [reflexivity|].
    apply ltb_false in E0, E1. tauto. }
  unfold validate_mouth_open_ratio.
  cbn [is_number negb less_than greater_than number_value].
  rewrite Hq. unfold bind, lift, format_4f.
  destruct (round_binary64 q); [reflexivity | congruence].
Qed.

(** X17.  [validate_mouth_open_ratio] accepts, logging nothing, exactly the
    numbers between 0 and 1 inclusive (a boolean counts as the number 0 or
    1) and the float NaN, which no comparison rejects.  On an [int] beyond
    the float range it raises [OverflowError] while it formats the message,
    and logs nothing.  On any other value ([None], a string, a list, an
    object, a finite number outside the interval, an infinity) it returns
    [False] and logs exactly one error.  The three cases exclude each other,
    so the method raises on the out-of-range [int] only. *)
Theorem mouth_ratio_validation :
  forall (ratio frame_num : JSON) (log : Log),
    (accepted_ratio ratio ->
     validate_mouth_open_ratio ratio frame_num log = (inl true, log))
    /\ (beyond_float_range ratio ->
        validate_mouth_open_ratio ratio frame_num log
        = (inr PyOverflowError, log))
    /\ (~ accepted_ratio ratio -> ~ beyond_float_range ratio ->
        exists message,
          validate_mouth_open_ratio ratio frame_num log
          = (inl false,
             mkLog (errors log ++ [message]) (warnings log)
                   (success_count log)))
    /\ (accepted_ratio ratio -> ~ beyond_float_range ratio)
    /\ ((exists e, fst (validate_mouth_open_ratio ratio frame_num log) = inr e)
        <-> beyond_float_range ratio)
    /\ validate_mouth_open_ratio (JNum (inject_Z (10 ^ 400))) frame_num log
       = (inr PyOverflowError, log)
    /\ validate_mouth_open_ratio (JNonFinite NaN) frame_num log
       = (inl true, log).
Proof.
  intros ratio fn log.
  assert (Hexcl : accepted_ratio ratio -> ~ beyond_float_range ratio).
  { destruct ratio as [| b | q | x | s | items | entries];
      cbn [accepted_ratio beyond_float_range];
      try (intros _ H; exact H);
      try (intros H; exact (False_ind _ H)).
    apply round_binary64_unit. }
  split; [apply mouth_ratio_accepted|].
  split; [apply mouth_ratio_overflow|].
  split; [apply mouth_ratio_rejected|].
  split; [exact Hexcl|].
  split; [|split].
  - split.
    + intros [e He].
      destruct (classic_ratio ratio) as [Ha | [Hb | [Hna Hnb]]].
      * rewrite (mouth_ratio_accepted ratio fn log Ha) in He. discriminate.
      * exact Hb.
      * destruct (mouth_ratio_rejected ratio fn log Hna Hnb) as [m Hm].
        rewrite Hm in He. discriminate.
    + intros Hb. exists PyOverflowError.
      now rewrite (mouth_ratio_overflow ratio fn log Hb).
  - apply mouth_ratio_overflow. vm_compute. reflexivity.
  - reflexivity.
Qed.

(** *** Scanner datasets *)

(** X18.  The validator rejects every dataset the scanner writes.  Whatever the
    video gave, the document of [save_output] has neither ["session_id"] nor
    ["timestamp"] nor ["frames"] at its top level: validation returns
    [False] with exactly these two errors and the warning that no frame was
    found, and looks at no frame, actor or camera sample. *)
Theorem validator_rejects_scanner_dataset :
  forall (video_metadata : dict JSON) (s : State) (audio_transcription : JSON)
         (generated_at : string) (log : Log),
    validate_json_structure
      (save_output video_metadata s audio_transcription generated_at) log
    = (inl false,
       mkLog (errors log ++ [ TopKeyMissing "session_id";
                              TopKeyMissing "timestamp" ])
             (warnings log ++ [ NoFrames ])
             (success_count log)).
Proof.
  intros vm s audio gen log.
  unfold validate_json_structure, save_output, bind, lift, log_error,
    log_warning, ret.
  cbn. rewrite <- app_assoc. reflexivity.
Qed.

(** *** What the extractors build *)

Lemma lip_accepted (lip : option Vec3) (landmark_id : nat) (expected : Z)
    (message : Message) (log : Log) :
  expected = Z.of_nat landmark_id ->
  check_lip (lip_json lip landmark_id) expected message log = (inl true, log).
Proof.
  intros ->. destruct lip as [v|]; [|reflexivity].
  unfold check_lip, lip_json, bind, lift. cbn [truthy py_get dict_get].
  cbn [String.eqb Ascii.eqb Bool.eqb andb].
  unfold differs_from_int, int_json. cbn [number_value].
  replace (Qeq_bool (inject_Z (Z.of_nat landmark_id))
                    (inject_Z (Z.of_nat landmark_id))) with true
    by (symmetry; apply Qeq_bool_iff; reflexivity).
  reflexivity.
Qed.

(** X19.  The face check accepts every dict that [extract_face_landmarks] builds,
    from any detection (also one with fewer than 15 landmarks, or none) and
    at any value of the running maximum: it returns [True] and logs
    nothing. *)
Theorem validator_accepts_extracted_faces :
  forall (face_landmarks : list Landmark) (max_mouth_distance : Q)
         (frame_num : JSON) (log : Log),
    validate_face_landmarks
      (face_data_json (fst (extract_face_landmarks face_landmarks
                                                   max_mouth_distance)))
      frame_num log
    = (inl true, log).
Proof.
  intros face m fn log.
  unfold extract_face_landmarks. cbn [fst].
  set (upper := if (UPPER_LIP_CENTER_ID <? List.length face)%nat
                then option_map landmark_array
                                (nth_error face UPPER_LIP_CENTER_ID)
                else None).
  set (lower := if (LOWER_LIP_CENTER_ID <? List.length face)%nat
                then option_map landmark_array
                                (nth_error face LOWER_LIP_CENTER_ID)
                else None).
  pose proof (ratio_in_unit_interval upper lower m) as Hratio.
  set (ratio := fst (calculate_mouth_open_ratio upper lower m)) in *.
  unfold validate_face_landmarks, face_data_json.
  cbn [truthy negb upper_lip_center lower_lip_center mouth_open_ratio
       all_468_landmarks].
  unfold bind at 1.
  replace (check_face_keys fn _ required_face_keys log) with (@inl bool pyexn true, log)
    by reflexivity.
  cbn [negb]. unfold bind at 1, lift at 1.
  cbn [py_getitem dict_get String.eqb Ascii.eqb Bool.eqb andb].
  unfold bind at 1.
  rewrite (mouth_ratio_accepted (JNum ratio) fn log Hratio).
  cbn [negb]. unfold bind at 1, lift at 1.
  cbn [py_get dict_get String.eqb Ascii.eqb Bool.eqb andb].
  unfold bind at 1.
  rewrite (lip_accepted upper UPPER_LIP_CENTER_ID 13 (UpperLipId fn) log eq_refl).
  cbn [negb]. unfold bind at 1, lift at 1.
  cbn [py_get dict_get String.eqb Ascii.eqb Bool.eqb andb].
  apply (lip_accepted lower LOWER_LIP_CENTER_ID 14 (LowerLipId fn) log eq_refl).
Qed.

Lemma pose_landmarks_have_keys (frame_num : JSON) (landmarks : list LandmarkDict) :
  forall (idx : nat) (log : Log),
    check_landmarks frame_num idx (map pose_landmark_json landmarks) log
    = (inl true, log).
Proof.
  induction landmarks as [|l rest IH]; intros idx log; [reflexivity|].
  cbn [map check_landmarks]. unfold bind at 1.
  replace (check_landmark_keys frame_num idx (pose_landmark_json l)
             required_landmark_keys log)
    with (@inl bool pyexn true, log) by reflexivity.
  apply IH.
Qed.

Lemma enumerate_landmarks_length (landmarks : list Landmark) :
  forall idx, List.length (enumerate_landmarks idx landmarks)
              = List.length landmarks.
Proof.
  induction landmarks as [|l rest IH]; intros idx; cbn; [reflexivity|].
  now rewrite IH.
Qed.

(** X20.  The pose check accepts the dict that [extract_pose_landmarks] builds
    exactly when the detection has 33 landmarks.  With any other number of
    landmarks, none included, it returns [False] and logs one error that
    carries the number found. *)
Theorem validator_accepts_poses_of_33_landmarks :
  forall (pose_landmarks : list Landmark) (frame_num : JSON) (log : Log),
    validate_pose_landmarks
      (pose_data_json (extract_pose_landmarks pose_landmarks)) frame_num log
    = if (List.length pose_landmarks =? 33)%nat
      then (inl true, log)
      else (inl false,
            mkLog (errors log
                   ++ [ PoseCount frame_num (List.length pose_landmarks) ])
                  (warnings log) (success_count log)).
Proof.
  intros pose fn log.
  assert (Hlen : List.length (extract_pose_landmarks pose) = List.length pose).
  { unfold extract_pose_landmarks. destruct pose; [reflexivity|].
    apply enumerate_landmarks_length. }
  unfold validate_pose_landmarks, pose_data_json.
  cbn [truthy negb]. unfold bind at 1, lift at 1.
  cbn [py_get dict_get String.eqb Ascii.eqb Bool.eqb andb].
  rewrite length_map, Hlen.
  destruct (List.length pose =? 33)%nat; cbn [negb].
  - apply pose_landmarks_have_keys.
  - reflexivity.
Qed.


(** *** What a positive result means *)

Lemma extends_refl (log : Log) : extends log log.
Proof.
  repeat split; try (exists []; now rewrite app_nil_r). apply Nat.le_refl.
Qed.

Lemma extends_trans (a b c : Log) : extends a b -> extends b c -> extends a c.
Proof.
  intros [[e1 He1] [[w1 Hw1] Hs1]] [[e2 He2] [[w2 Hw2] Hs2]].
  repeat split.
  - exists (e1 ++ e2). now rewrite He2, He1, app_assoc.
  - exists (w1 ++ w2). now rewrite Hw2, Hw1, app_assoc.
  - now apply Nat.le_trans with (success_count b).
Qed.

Lemma silent_ret {A} (a : A) : silent (ret a).
Proof. intros log. split; [apply extends_refl | reflexivity]. Qed.

Lemma silent_lift {A} (r : A + pyexn) : silent (lift r).
Proof. intros log. split; [apply extends_refl | reflexivity]. Qed.

Lemma silent_log_warning (message : Message) : silent (log_warning message).
Proof.
  intros log. split; [|reflexivity]. repeat split; cbn.
  - exists []. now rewrite app_nil_r.
  - now exists [message].
  - apply Nat.le_refl.
Qed.

Lemma silent_log_success : silent log_success.
Proof.
  intros log. split; [|reflexivity]. repeat split; cbn.
  - exists []. now rewrite app_nil_r.
  - exists []. now rewrite app_nil_r.
  - apply Nat.le_succ_diag_r.
Qed.

Lemma silent_bind {A B} (m : V A) (k : A -> V B) :
  silent m -> (forall a, silent (k a)) -> silent (bind m k).
Proof.
  intros Hm Hk log. unfold bind. specialize (Hm log).
  destruct (m log) as [[a|e] log1]; cbn [fst snd] in *; [|exact Hm].
  destruct (Hk a log1) as [He Hs]. destruct Hm as [Hm1 Hm2].
  split; [eapply extends_trans; eauto | now rewrite Hs].
Qed.

Lemma silent_sound (m : V bool) : silent m -> sound m.
Proof. intros H log. destruct (H log). auto. Qed.

Lemma sound_error (message : Message) :
  sound (log_error message ;; ret false).
Proof.
  intros log. split; [|discriminate]. repeat split; cbn.
  - now exists [message].
  - exists []. now rewrite app_nil_r.
  - apply Nat.le_refl.
Qed.

Lemma sound_after_silent {A} (m : V A) (k : A -> V bool) :
  silent m -> (forall a, sound (k a)) -> sound (bind m k).
Proof.
  intros Hm Hk log. unfold bind. specialize (Hm log).
  destruct (m log) as [[a|e] log1]; cbn [fst snd] in *.
  - destruct (Hk a log1) as [He Hs]. destruct Hm as [Hm1 Hm2].
    split; [eapply extends_trans; eauto|].
    intros Ht. now rewrite (Hs Ht).
  - split; [apply Hm | discriminate].
Qed.

Lemma sound_after_check (m : V bool) (k : bool -> V bool) :
  sound m -> sound (k true) ->
  (forall log, k false log = (inl false, log)) ->
  sound (bind m k).
Proof.
  intros Hm Hk Hfalse log. unfold bind. specialize (Hm log).
  destruct (m log) as [[[|]|e] log1]; cbn [fst snd] in *.
  - destruct (Hk log1) as [He Hs]. destruct Hm as [Hm1 Hm2].
    split; [eapply extends_trans; eauto|].
    intros Ht. rewrite (Hs Ht). now apply Hm2.
  - rewrite Hfalse. cbn [fst snd]. split; [apply Hm | discriminate].
  - split; [apply Hm | discriminate].
Qed.

Ltac vsilent :=
  repeat first
    [ apply silent_ret | apply silent_lift | apply silent_log_warning
    | apply silent_log_success
    | apply silent_bind; [|intros ?]
    | match goal with
      | |- silent (if ?b then _ else _) => destruct b
      end ].

Lemma sound_validate_mouth_open_ratio (ratio frame_num : JSON) :
  sound (validate_mouth_open_ratio ratio frame_num).
Proof.
  unfold validate_mouth_open_ratio.
  destruct ratio; cbn [is_number negb]; try apply sound_error;
    (match goal with |- sound (if ?b then _ else _) => destruct b end;
     [|apply silent_sound, silent_ret]);
    (apply sound_after_silent; [apply silent_lift|]);
    intros _; apply sound_error.
Qed.

Lemma sound_check_landmark_keys (frame_num : JSON) (idx : nat) (landmark : JSON)
    (keys : list string) :
  sound (check_landmark_keys frame_num idx landmark keys).
Proof.
  induction keys as [|key rest IH]; cbn [check_landmark_keys].
  - apply silent_sound, silent_ret.
  - apply sound_after_silent; [apply silent_lift|].
    intros [|]; [exact IH | apply sound_error].
Qed.

Lemma sound_check_landmarks (frame_num : JSON) (landmarks : list JSON) :
  forall idx, sound (check_landmarks frame_num idx landmarks).
Proof.
  induction landmarks as [|landmark rest IH]; intros idx; cbn [check_landmarks].
  - apply silent_sound, silent_ret.
  - apply sound_after_check;
      [apply sound_check_landmark_keys | apply IH | reflexivity].
Qed.

Lemma sound_validate_pose_landmarks (pose_landmarks frame_num : JSON) :
  sound (validate_pose_landmarks pose_landmarks frame_num).
Proof.
  unfold validate_pose_landmarks.
  destruct (negb (truthy pose_landmarks)).
  - apply silent_sound. vsilent.
  - apply sound_after_silent; [apply silent_lift|].
    intros all_landmarks. destruct all_landmarks; try apply sound_error.
    match goal with |- sound (if ?b then _ else _) => destruct b end;
      [apply sound_error | apply sound_check_landmarks].
Qed.

Lemma sound_validate_camera_metadata (camera_metadata frame_num : JSON) :
  sound (validate_camera_metadata camera_metadata frame_num).
Proof.
  unfold validate_camera_metadata.
  destruct (negb (truthy camera_metadata)); [apply sound_error|].
  apply sound_after_silent; [apply silent_lift|]. intros has_fps.
  destruct (negb has_fps); [apply sound_error|].
  apply sound_after_silent; [apply silent_lift|]. intros fps.
  destruct (negb (is_number fps)); [apply sound_error|].
  apply silent_sound. vsilent.
Qed.

Lemma sound_check_face_keys (frame_num face_landmarks : JSON)
    (keys : list string) :
  sound (check_face_keys frame_num face_landmarks keys).
Proof.
  induction keys as [|key rest IH]; cbn [check_face_keys].
  - apply silent_sound, silent_ret.
  - apply sound_after_silent; [apply silent_lift|].
    intros [|]; [exact IH | apply sound_error].
Qed.

Lemma sound_check_lip (lip : JSON) (expected : Z) (message : Message) :
  sound (check_lip lip expected message).
Proof.
  unfold check_lip. destruct (truthy lip); [|apply silent_sound, silent_ret].
  apply sound_after_silent; [apply silent_lift|]. intros landmark_id.
  destruct (differs_from_int landmark_id expected);
    [apply sound_error | apply silent_sound, silent_ret].
Qed.

Lemma sound_validate_face_landmarks (face_landmarks frame_num : JSON) :
  sound (validate_face_landmarks face_landmarks frame_num).
Proof.
  unfold validate_face_landmarks.
  destruct (negb (truthy face_landmarks)).
  - apply silent_sound. vsilent.
  - apply sound_after_check; [apply sound_check_face_keys | | reflexivity].
    cbn [negb].
    apply sound_after_silent; [apply silent_lift|]. intros ratio.
    apply sound_after_check;
      [apply sound_validate_mouth_open_ratio | | reflexivity].
    cbn [negb].
    apply sound_after_silent; [apply silent_lift|]. intros upper_lip.
    apply sound_after_check; [apply sound_check_lip | | reflexivity].
    cbn [negb].
    apply sound_after_silent; [apply silent_lift|]. intros lower_lip.
    apply sound_check_lip.
Qed.


Lemma flagged_ret (valid : bool) : flagged valid (ret valid).
Proof.
  intros log. split; [apply extends_refl|]. cbn. intros H.
  injection H as ->. auto.
Qed.

Lemma flagged_after_silent {A} (valid : bool) (m : V A) (k : A -> V bool) :
  silent m -> (forall a, flagged valid (k a)) -> flagged valid (bind m k).
Proof.
  intros Hm Hk log. unfold bind. specialize (Hm log).
  destruct (m log) as [[a|e] log1]; cbn [fst snd] in *.
  - destruct (Hk a log1) as [He Hs]. destruct Hm as [Hm1 Hm2].
    split; [eapply extends_trans; eauto|].
    intros Ht. destruct (Hs Ht) as [Hv Herr]. split; [exact Hv|].
    now rewrite Herr.
  - split; [apply Hm | discriminate].
Qed.

Lemma flagged_chain (valid : bool) (m : V bool) (k : bool -> V bool) :
  flagged valid m -> (forall v, flagged v (k v)) -> flagged valid (bind m k).
Proof.
  intros Hm Hk log. unfold bind. specialize (Hm log).
  destruct (m log) as [[v|e] log1]; cbn [fst snd] in *.
  - destruct (Hk v log1) as [He Hs]. destruct Hm as [Hm1 Hm2].
    split; [eapply extends_trans; eauto|].
    intros Ht. destruct (Hs Ht) as [Hv Herr]. subst v.
    destruct (Hm2 eq_refl) as [Hvalid Herr1]. split; [exact Hvalid|].
    now rewrite Herr.
  - split; [apply Hm | discriminate].
Qed.

Lemma flagged_of_check (valid : bool) (m : V bool) :
  sound m -> flagged valid (ok <- m ;; ret (if ok then valid else false)).
Proof.
  intros Hm log. unfold bind, ret. specialize (Hm log).
  destruct (m log) as [[[|]|e] log1]; cbn [fst snd] in *.
  - split; [apply Hm|]. intros H. injection H as ->. split; [reflexivity|].
    now apply Hm.
  - split; [apply Hm | discriminate].
  - split; [apply Hm | discriminate].
Qed.

Lemma flagged_after_error (valid : bool) (message : Message) (m : V bool) :
  flagged false m -> flagged valid (log_error message ;; m).
Proof.
  intros Hm log. unfold bind, log_error.
  match goal with
  | |- context [m ?l] => destruct (Hm l) as [He Hs]
  end.
  split.
  - eapply extends_trans; [|exact He]. repeat split; cbn.
    + now exists [message].
    + exists []. now rewrite app_nil_r.
    + apply Nat.le_refl.
  - intros Ht. destruct (Hs Ht) as [Hf _]. discriminate.
Qed.

Lemma flagged_sound (m : V bool) : flagged true m -> sound m.
Proof.
  intros H log. destruct (H log) as [He Hs]. split; [exact He|].
  intros Ht. now apply Hs.
Qed.

Lemma sound_flagged_false (valid : bool) (message : Message) :
  flagged valid (log_error message ;; ret false).
Proof.
  intros log. destruct (sound_error message log) as [He _].
  split; [exact He | discriminate].
Qed.

Lemma flagged_check_block (frame : JSON) (key : string)
    (validate : JSON -> V bool) (missing : V bool) (valid : bool) :
  (forall block, sound (validate block)) -> sound missing ->
  flagged valid (check_block frame key validate missing valid).
Proof.
  intros Hv Hm. unfold check_block.
  apply flagged_after_silent; [apply silent_lift|]. intros [|].
  - apply flagged_after_silent; [apply silent_lift|]. intros block.
    apply flagged_of_check, Hv.
  - now apply flagged_of_check.
Qed.

Lemma flagged_frames_loop (frames : list JSON) :
  forall (idx : nat) (valid : bool), flagged valid (frames_loop idx frames valid).
Proof.
  induction frames as [|frame rest IH]; intros idx valid; cbn [frames_loop].
  - apply flagged_ret.
  - apply flagged_after_silent; [apply silent_lift|]. intros frame_num.
    apply flagged_chain.
    { apply flagged_check_block.
      - intros block. apply sound_validate_face_landmarks.
      - apply silent_sound. vsilent. }
    intros v1. apply flagged_chain.
    { apply flagged_check_block.
      - intros block. apply sound_validate_pose_landmarks.
      - apply silent_sound. vsilent. }
    intros v2. apply flagged_chain.
    { apply flagged_check_block.
      - intros block. apply sound_validate_camera_metadata.
      - apply sound_error. }
    intros v3. apply IH.
Qed.

Lemma flagged_check_top_keys (data : JSON) (keys : list string) :
  forall valid, flagged valid (check_top_keys data keys valid).
Proof.
  induction keys as [|key rest IH]; intros valid; cbn [check_top_keys].
  - apply flagged_ret.
  - apply flagged_after_silent; [apply silent_lift|]. intros [|].
    + apply IH.
    + apply flagged_after_error, IH.
Qed.

Lemma sound_validate_json_structure (data : JSON) :
  sound (validate_json_structure data).
Proof.
  apply flagged_sound. unfold validate_json_structure.
  apply flagged_chain; [apply flagged_check_top_keys|]. intros valid.
  apply flagged_after_silent; [apply silent_lift|]. intros [|].
  - apply flagged_after_silent; [apply silent_lift|]. intros frames.
    destruct frames; try apply sound_flagged_false.
    apply flagged_after_silent; [apply silent_log_success|]. intros _.
    apply flagged_frames_loop.
  - apply flagged_after_silent; [apply silent_log_warning|]. intros _.
    apply flagged_ret.
Qed.

(** X21.  Validation only appends to the log, and it returns [True] only if it
    logged no error: after a positive result the list of errors is the one
    before the call.  The converse fails: a frame whose pose block is empty
    makes the result [False] with a warning and no error. *)
Theorem validation_true_means_no_error :
  forall (data : JSON) (log : Log),
    let out := validate_json_structure data log in
    extends log (snd out)
    /\ (fst out = inl true -> errors (snd out) = errors log)
    /\ validate_json_structure frame_with_empty_pose (mkLog [] [] 0)
       = (inl false,
          mkLog [] [ FaceMissing (JNum 0); PoseEmpty (JNum 0) ] 1).
Proof.
  intros data log out.
  destruct (sound_validate_json_structure data log) as [He Hs].
  split; [exact He|]. split; [exact Hs|]. reflexivity.
Qed.


End ValidatorFacts.


(** ** EXO_02_CORTEX_ADAPTER.py: the compiled mission *)

Module CortexFacts.

Import Py PyFacts Scanner Doc ScannerOutput Cortex CortexAux.

(** *** From the scanner's dataset to the mission *)

(** X22.  The silent pipeline on a scanner dataset.  For every state of the
    scanner, compiling the document of [save_output] with the empty speech
    payload in SILENT mode raises nothing and writes a mission whose
    ["camera_motion"] and ["actors"] blocks are the scanner's, unchanged,
    whose ["source_metadata"] is the scanner's metadata, and whose mouth
    block has no cue, whatever lip-sync data exists; the speech texts are
    empty and the transcription of the dataset is not carried over: the
    mission has no ["audio_transcription_global"]. *)
Theorem silent_mission_carries_dataset :
  forall (env : Environment) (raw_data_path : string)
         (video_metadata : dict JSON) (s : State) (audio_transcription : JSON)
         (generated_at now : string) (lip_sync_data : JSON),
    let dataset :=
      save_output video_metadata s audio_transcription generated_at in
    let outcome :=
      compile_mission env raw_data_path (inl dataset)
                      (empty_speech_payload now) lip_sync_data "SILENT" in
    raised outcome = None
    /\ exists doc metadata,
         written outcome = Some doc
         /\ py_getitem doc "camera_motion"
            = inl (JList (map camera_sample_json (camera_motion s)))
         /\ py_getitem doc "camera_motion" = py_getitem dataset "camera_motion"
         /\ py_getitem doc "actors"
            = inl (JDict (map (fun e => (fst e, actor_json (snd e)))
                              (actors_data s)))
         /\ py_getitem doc "actors" = py_getitem dataset "actors"
         /\ py_getitem doc "metadata" = inl metadata
         /\ py_getitem metadata "source_metadata"
            = py_getitem dataset "metadata"
         /\ py_getitem doc "mouth" = inl silent_mouth
         /\ py_getitem doc "speech"
            = inl (JDict [ ("original_text", JStr ""); ("viral_text", JStr "");
                           ("transformation_applied", JBool false);
                           ("timestamp", JStr now) ]%string)
         /\ py_in "audio_transcription_global" doc = inl false.
Proof.
  intros env path vm s audio gen now lip dataset outcome.
  split; [reflexivity|].
  do 2 eexists. split; [reflexivity|].
  repeat split.
Qed.

Lemma script_without_frames (exception_text : pyexn -> string)
    (entries : dict JSON) (now : string) :
  dict_get entries "frames" = None ->
  transfigure_script exception_text (inl (JDict entries)) now
  = JDict [ ("original_text", JStr ""); ("viral_text", JStr "");
            ("transformation_applied", JBool true);
            ("timestamp", JStr now) ]%string.
Proof.
  intros H. unfold transfigure_script. cbn [and_then py_get]. rewrite H.
  reflexivity.
Qed.

(** X23.  The script transformation reads the transcription under ["frames"]
    only.  On a dataset without that key it returns empty original and viral
    texts, flagged as transformed; and since [save_output] writes the
    transcription under ["audio_transcription_global"] and no ["frames"],
    this is what it returns on every scanner dataset, whatever Whisper
    transcribed. *)
Theorem transcription_never_reaches_script :
  forall (exception_text : pyexn -> string) (now : string),
    (forall entries : dict JSON,
        dict_get entries "frames" = None ->
        transfigure_script exception_text (inl (JDict entries)) now
        = JDict [ ("original_text", JStr ""); ("viral_text", JStr "");
                  ("transformation_applied", JBool true);
                  ("timestamp", JStr now) ]%string)
    /\ (forall (video_metadata : dict JSON) (s : State)
               (audio_transcription : JSON) (generated_at : string),
          py_getitem
            (save_output video_metadata s audio_transcription generated_at)
            "audio_transcription_global" = inl audio_transcription
          /\ transfigure_script exception_text
               (inl (save_output video_metadata s audio_transcription
                                 generated_at)) now
             = JDict [ ("original_text", JStr ""); ("viral_text", JStr "");
                       ("transformation_applied", JBool true);
                       ("timestamp", JStr now) ]%string).
Proof.
  intros exception_text now. split.
  - intros entries H. now apply script_without_frames.
  - intros vm s audio gen. split; [reflexivity|].
    unfold save_output. now apply script_without_frames.
Qed.

(** *** The layout of a mission *)

Ltac split_steps H :=
  repeat match type of H with
         | context [match ?r with inl _ => _ | inr _ => _ end] =>
             let E := fresh "E" in
             destruct r eqn:E; try discriminate H
         | context [let '(_, _) := ?r in _] =>
             let E := fresh "E" in
             destruct r eqn:E
         end.

Lemma mission_document_layout (env : Environment) (raw_data_path : string)
    (source speech_data lip_sync_data : JSON) (mode : string)
    (doc actors_block camera_motion mouth_output : JSON) :
  mission_document env raw_data_path source speech_data lip_sync_data mode
  = inl (doc, actors_block, camera_motion, mouth_output) ->
  py_get source "camera_motion" (JList []) = inl camera_motion
  /\ py_get source "actors" (JDict []) = inl actors_block
  /\ mouth_output_of mode (lip_sync_payload env) lip_sync_data
     = inl mouth_output
  /\ exists metadata speech mouth_metadata lip_sync_status,
       py_get mouth_output "metadata" (JDict []) = inl mouth_metadata
       /\ py_get mouth_metadata "status" (JStr "silent_default")
          = inl lip_sync_status
       /\ doc = JDict [ ("metadata", metadata);
                        ("camera_motion", camera_motion);
                        ("actors", actors_block); ("speech", speech);
                        ("mouth", mouth_output);
                        ("global_audio_sync",
                         JDict [ ("primary_actor_id", JStr "0");
                                 ("lip_sync_status", lip_sync_status) ]) ]%string.
Proof.
  intros H. unfold mission_document, and_then in H.
  split_steps H. injection H as <- <- <- <-.
  repeat split. do 4 eexists. repeat split; eassumption.
Qed.

(** X24.  Whatever its inputs, a mission that [compile_mission] writes has exactly
    the six top-level keys metadata, camera_motion, actors, speech, mouth and
    global_audio_sync, in this order; its camera_motion and actors blocks are
    the values under these keys in the source dataset (the empty list and
    the empty dict when absent).  In particular it has no ['camera'] and no
    ['motion'] key: [get] on either gives the default. *)
Theorem compiled_mission_layout :
  forall (env : Environment) (raw_data_path : string)
         (seg01_data : JSON + pyexn) (speech_data lip_sync_data : JSON)
         (mode : string) (doc : JSON),
    written (compile_mission env raw_data_path seg01_data speech_data
                             lip_sync_data mode) = Some doc ->
    exists source entries camera_motion actors_block,
      seg01_data = inl source
      /\ doc = JDict entries
      /\ map fst entries = mission_keys
      /\ py_get source "camera_motion" (JList []) = inl camera_motion
      /\ dict_get entries "camera_motion" = Some camera_motion
      /\ py_get source "actors" (JDict []) = inl actors_block
      /\ dict_get entries "actors" = Some actors_block
      /\ forall default,
           py_get doc "camera" default = inl default
           /\ py_get doc "motion" default = inl default.
Proof.
  intros env path seg01 speech lip mode doc H.
  unfold compile_mission in H.
  destruct seg01 as [source|e]; cbn [and_then] in H; [|discriminate].
  destruct (mission_document env path source speech lip mode)
    as [[[[d a] c] m]|e] eqn:E; [|discriminate].
  cbn [written] in H. injection H as ->.
  apply mission_document_layout in E
    as [Hc [Ha [_ [metadata [speech_block [mm [status [_ [_ ->]]]]]]]]].
  exists source. eexists. exists c, a.
  split; [reflexivity|]. split; [reflexivity|].
  split; [reflexivity|]. split; [exact Hc|]. split; [reflexivity|].
  split; [exact Ha|]. split; [reflexivity|].
  intros default. split; reflexivity.
Qed.

Lemma compiled_mission_layout_witness :
  exists source entries camera_motion actors_block,
    @inl JSON pyexn example_dataset = inl source
    /\ example_drama_mission = JDict entries
    /\ map fst entries = mission_keys
    /\ py_get source "camera_motion" (JList []) = inl camera_motion
    /\ dict_get entries "camera_motion" = Some camera_motion
    /\ py_get source "actors" (JDict []) = inl actors_block
    /\ dict_get entries "actors" = Some actors_block
    /\ forall default,
         py_get example_drama_mission "camera" default = inl default
         /\ py_get example_drama_mission "motion" default = inl default.
Proof.
  exact (compiled_mission_layout (example_environment JNull) "mission_RAW.json"
           (inl example_dataset) (empty_speech_payload "now") JNull "DRAMA"
           example_drama_mission eq_refl).
Defined.


(** *** The sources of the mouth block *)

Lemma written_mission (env : Environment) (raw_data_path : string)
    (seg01_data : JSON + pyexn) (speech_data lip_sync_data : JSON)
    (mode : string) (doc : JSON) :
  written (compile_mission env raw_data_path seg01_data speech_data
                           lip_sync_data mode) = Some doc ->
  exists mouth status,
    mouth_output_of mode (lip_sync_payload env) lip_sync_data = inl mouth
    /\ py_getitem doc "mouth" = inl mouth
    /\ (exists metadata,
           py_get mouth "metadata" (JDict []) = inl metadata
           /\ py_get metadata "status" (JStr "silent_default") = inl status)
    /\ py_getitem doc "global_audio_sync"
       = inl (JDict [ ("primary_actor_id", JStr "0");
                      ("lip_sync_status", status) ]%string).
Proof.
  intros H. unfold compile_mission in H.
  destruct seg01_data as [source|e]; cbn [and_then] in H; [|discriminate].
  destruct (mission_document env raw_data_path source speech_data
                             lip_sync_data mode)
    as [[[[d a] c] m]|e] eqn:E; [|discriminate].
  cbn [written] in H. injection H as ->.
  apply mission_document_layout in E
    as [_ [_ [Hm [metadata [speech_block [mm [status [H1 [H2 ->]]]]]]]]].
  exists m, status. split; [exact Hm|]. split; [reflexivity|].
  split; [eauto | reflexivity].
Qed.

(** X25.  Where the mouth cues of a written mission come from.  In SILENT mode the
    mouth block is the fixed silent block, whatever lip-sync data exists on
    disk or was passed.  In any other mode the file EXO_LIP_SYNC.json comes
    first: when it holds a non-empty value, the cues and the metadata are
    read from it and the [lip_sync_data] argument is ignored; the argument
    is used only when the file is missing, unreadable or empty; and with
    neither, the cue list is empty with status "not_generated".  The status
    under global_audio_sync is the ["status"] of the mouth metadata and
    "silent_default" when that key is absent, as for a Rhubarb result, whose
    cues are used while the status reads "silent_default". *)
Theorem mouth_block_sources :
  forall (env : Environment) (raw_data_path : string)
         (seg01_data : JSON + pyexn) (speech_data lip_sync_data : JSON)
         (mode : string) (doc : JSON),
    written (compile_mission env raw_data_path seg01_data speech_data
                             lip_sync_data mode) = Some doc ->
    exists mouth status,
      py_getitem doc "mouth" = inl mouth
      /\ py_getitem doc "global_audio_sync"
         = inl (JDict [ ("primary_actor_id", JStr "0");
                        ("lip_sync_status", status) ]%string)
      /\ (exists metadata,
             py_get mouth "metadata" (JDict []) = inl metadata
             /\ py_get metadata "status" (JStr "silent_default") = inl status)
      /\ (mode = "SILENT"%string -> mouth = silent_mouth)
      /\ (mode <> "SILENT"%string ->
          truthy (lip_sync_payload env) = true ->
          exists cues metadata,
            py_get (lip_sync_payload env) "mouthCues" (JList []) = inl cues
            /\ py_get (lip_sync_payload env) "metadata" (JDict [])
               = inl metadata
            /\ mouth = JDict [ ("mouthCues", cues);
                               ("metadata", metadata) ]%string)
      /\ (mode <> "SILENT"%string ->
          truthy (lip_sync_payload env) = false ->
          truthy lip_sync_data = true ->
          exists cues metadata,
            py_get lip_sync_data "mouthCues" (JList []) = inl cues
            /\ py_get lip_sync_data "metadata" (JDict []) = inl metadata
            /\ mouth = JDict [ ("mouthCues", cues);
                               ("metadata", metadata) ]%string)
      /\ (mode <> "SILENT"%string ->
          truthy (lip_sync_payload env) = false ->
          truthy lip_sync_data = false ->
          mouth = JDict [ ("mouthCues", JList []);
                          ("metadata",
                           JDict [ ("status", JStr "not_generated");
                                   ("mode", JStr mode) ]) ]%string).
Proof.
  intros env path seg01 speech lip mode doc H.
  apply written_mission in H as [mouth [status [Hm [Hd [Hmeta Hsync]]]]].
  exists mouth, status.
  split; [exact Hd|]. split; [exact Hsync|]. split; [exact Hmeta|].
  unfold mouth_output_of in Hm.
  destruct (String.eqb_spec mode "SILENT") as [Hmode|Hmode].
  - injection Hm as <-. split; [reflexivity|].
    repeat split; intros Hne; contradiction.
  - split; [intros Heq; contradiction|].
    destruct (truthy (lip_sync_payload env)) eqn:Hp.
    + unfold and_then in Hm. split_steps Hm. injection Hm as <-.
      split; [intros _ _; eauto|]. split; intros _ Hf; discriminate.
    + split; [intros _ Hf; discriminate|].
      destruct (truthy lip) eqn:Hl.
      * unfold and_then in Hm. split_steps Hm. injection Hm as <-.
        split; [intros _ _ _; eauto|]. intros _ _ Hf; discriminate.
      * injection Hm as <-. split; [intros _ _ Hf; discriminate|].
        intros _ _ _. reflexivity.
Qed.

Lemma mouth_block_sources_witness :
  py_getitem example_rhubarb_mission "mouth" = inl rhubarb_mouth
  /\ py_getitem example_rhubarb_mission "global_audio_sync"
     = inl (JDict [ ("primary_actor_id", JStr "0");
                    ("lip_sync_status", JStr "silent_default") ]%string).
Proof.
  destruct (mouth_block_sources (example_environment rhubarb_result)
              "mission_RAW.json" (inl example_dataset)
              (empty_speech_payload "now") JNull "DRAMA"
              example_rhubarb_mission eq_refl)
    as [mouth [status [Hm [Hs _]]]].
  split; reflexivity.
Defined.


(** *** The script transformation *)

Lemma replace_absent (old new s : string) :
  Worker.contains old s = false -> replace old new s = s.
Proof.
  unfold replace. induction s as [|c rest IH]; intros H; [reflexivity|].
  cbn [Worker.contains] in H. cbn [replace_from].
  destruct (String.prefix old (String c rest)); [discriminate|].
  now rewrite IH.
Qed.

(** X26.  The word replacement leaves a text that contains none of the dictionary
    words as it is.  It replaces the words where they stand, "Good win"
    becoming "Sigma W"; and since each word is replaced in a single pass, the
    result may again contain a dictionary word: "wWinin" becomes "wWin". *)
Theorem brain_rot_keeps_clean_text :
  (forall s : string,
      Forall (fun entry => Worker.contains (fst entry) s = false)
             BRAIN_ROT_DICT ->
      brain_rot (JStr s) = inl s)
  /\ brain_rot (JStr "Good win") = inl "Sigma W"%string
  /\ brain_rot (JStr "wWinin") = inl "wWin"%string.
Proof.
  split; [|split; reflexivity].
  intros s H. unfold brain_rot. f_equal.
  induction BRAIN_ROT_DICT as [|entry rest IH]; [reflexivity|].
  inversion H as [|? ? Hentry Hrest]; subst.
  cbn [fold_left]. rewrite (replace_absent _ _ _ Hentry). now apply IH.
Qed.

Lemma brain_rot_keeps_clean_text_witness :
  brain_rot (JStr "We are so back") = inl "We are so back"%string.
Proof.
  apply (proj1 brain_rot_keeps_clean_text "We are so back"%string).
  repeat constructor.
Defined.


(** *** When compilation fails *)

(** What [mission_document] needs of the inputs other than the dataset. *)
Lemma mission_document_written (env : Environment) (raw_data_path : string)
    (entries : list (string * JSON)) (speech_data lip_sync_data : JSON)
    (mode : string) :
  mission_gets_written env speech_data lip_sync_data mode = true ->
  exists doc mouth_output,
    mission_document env raw_data_path (JDict entries) speech_data
                     lip_sync_data mode
    = inl (doc,
           match dict_get entries "actors" with
           | Some actors => actors
           | None => JDict []
           end,
           match dict_get entries "camera_motion" with
           | Some camera_motion => camera_motion
           | None => JList []
           end,
           mouth_output)
    /\ py_getitem doc "actors"
       = inl (match dict_get entries "actors" with
              | Some actors => actors
              | None => JDict []
              end).
Proof.
  unfold mission_gets_written, mission_document.
  destruct speech_data as [| b | q | x | s | items | fields];
    cbn [is_object andb]; try discriminate.
  cbn [and_then py_get].
  destruct (mouth_output_of mode (lip_sync_payload env) lip_sync_data)
    as [mouth_output|e]; [|discriminate].
  cbn [and_then].
  destruct (py_get mouth_output "metadata" (JDict [])) as [metadata|e];
    [|discriminate].
  destruct metadata as [| b | q | x | s | items | block];
    cbn [is_object]; try discriminate.
  intros _. cbn [and_then py_get]. eexists. eexists.
  split; reflexivity.
Qed.

Lemma mission_document_not_written (env : Environment) (raw_data_path : string)
    (entries : list (string * JSON)) (speech_data lip_sync_data : JSON)
    (mode : string) :
  mission_gets_written env speech_data lip_sync_data mode = false ->
  mission_document env raw_data_path (JDict entries) speech_data
                   lip_sync_data mode
  = inr PyAttributeError.
Proof.
  unfold mission_gets_written, mission_document.
  cbn [and_then py_get].
  destruct speech_data as [| b | q | x | s | items | fields];
    cbn [is_object andb py_get and_then]; try reflexivity.
  assert (Hmouth : forall e,
             mouth_output_of mode (lip_sync_payload env) lip_sync_data = inr e ->
             e = PyAttributeError).
  { unfold mouth_output_of. intros e.
    destruct (String.eqb mode "SILENT"); [discriminate|].
    destruct (truthy (lip_sync_payload env)).
    - destruct (lip_sync_payload env); cbn [py_get and_then];
        congruence.
    - destruct (truthy lip_sync_data); [|discriminate].
      destruct lip_sync_data; cbn [py_get and_then]; congruence. }
  destruct (mouth_output_of mode (lip_sync_payload env) lip_sync_data)
    as [mouth_output|e] eqn:Em.
  - cbn [and_then].
    destruct (py_get mouth_output "metadata" (JDict [])) as [metadata|e] eqn:Ed.
    + cbn [and_then].
      destruct metadata as [| b | q | x | s | items | block];
        cbn [is_object py_get and_then]; try reflexivity.
      discriminate.
    + intros _. cbn [and_then].
      destruct mouth_output; cbn [py_get] in Ed; congruence.
  - intros _. cbn [and_then]. now rewrite (Hmouth e eq_refl).
Qed.

(** X28.  [compile_mission] re-raises what goes wrong.  A dataset that cannot be
    read, or that is not a JSON object, makes it raise before anything is
    written; so does, for a dataset that is an object, a speech payload, a
    lip-sync source in use or a mouth metadata that is not an object.  With
    these in order, in any mode, a dataset whose ["actors"] value is not an
    object is only found out after the mission file has been written, by
    the closing message that counts the actors: the call raises
    [AttributeError], and the file, with the ill-formed block passed
    through, is already on disk.  The inputs are in order in SILENT mode
    with the empty speech payload, and in DRAMA mode with a Rhubarb
    result. *)
Theorem compile_mission_failures :
  forall (env : Environment) (raw_data_path : string)
         (speech_data lip_sync_data : JSON) (mode : string),
    (forall e,
        compile_mission env raw_data_path (inr e) speech_data lip_sync_data
                        mode
        = mkCompiled None (Some e))
    /\ (forall source,
          (forall entries, source <> JDict entries) ->
          compile_mission env raw_data_path (inl source) speech_data
                          lip_sync_data mode
          = mkCompiled None (Some PyAttributeError))
    /\ (forall entries,
          mission_gets_written env speech_data lip_sync_data mode = false ->
          compile_mission env raw_data_path (inl (JDict entries)) speech_data
                          lip_sync_data mode
          = mkCompiled None (Some PyAttributeError))
    /\ (forall entries actors,
          mission_gets_written env speech_data lip_sync_data mode = true ->
          dict_get entries "actors" = Some actors ->
          (forall block, actors <> JDict block) ->
          let outcome :=
            compile_mission env raw_data_path (inl (JDict entries))
                            speech_data lip_sync_data mode in
          raised outcome = Some PyAttributeError
          /\ exists doc, written outcome = Some doc
                         /\ py_getitem doc "actors" = inl actors)
    /\ (forall now,
          mission_gets_written env (empty_speech_payload now) lip_sync_data
                               "SILENT" = true)
    /\ (forall now,
          mission_gets_written (example_environment rhubarb_result)
                               (empty_speech_payload now) lip_sync_data
                               "DRAMA" = true).
Proof.
  intros env path speech lip mode. split; [reflexivity|]. split; [|split].
  - intros source Hsource. destruct source; try reflexivity.
    now destruct (Hsource entries).
  - intros entries Hw. unfold compile_mission. cbn [and_then].
    now rewrite (mission_document_not_written env path entries speech lip mode Hw).
  - split; [|split; intros now; reflexivity].
    intros entries actors Hw Ha Hblock outcome.
    destruct (mission_document_written env path entries speech lip mode Hw)
      as [doc [mouth_output [Hdoc Hactors]]].
    rewrite Ha in Hdoc, Hactors.
    unfold outcome, compile_mission. cbn [and_then]. rewrite Hdoc.
    cbn [written raised]. split.
    + unfold closing_messages.
      destruct actors; try reflexivity. now destruct (Hblock entries0).
    + exists doc. split; [reflexivity | exact Hactors].
Qed.

End CortexFacts.


(** ** EXO_01_DNA_SCANNER.py: the sampled flow vectors *)

Module FlowSamplingFacts.

Import Py FlowSampling.

Lemma py_range_step_spec (stop step : Z) :
  (0 <= stop)%Z -> (1 <= step)%Z ->
  forall v, In v (py_range_step stop step) ->
            (0 <= v < stop)%Z /\ (v mod step = 0)%Z.
Proof.
  intros Hstop Hstep v Hin. unfold py_range_step in Hin.
  apply in_map_iff in Hin as [i [<- Hi]]. apply in_seq in Hi.
  assert (Hq : (Z.of_nat i < (stop + step - 1) / step)%Z) by lia.
  pose proof (Z.mul_div_le (stop + step - 1) step ltac:(lia)) as Hle.
  split; [|apply Z.mod_mul; lia]. split; [nia|].
  assert ((Z.of_nat i + 1) * step <= step * ((stop + step - 1) / step))%Z
    by nia.
  nia.
Qed.

Lemma flat_map_constant_length {A B} (f : A -> list B) (l : list A) (n : nat) :
  (forall a, List.length (f a) = n) ->
  List.length (flat_map f l) = (List.length l * n)%nat.
Proof.
  intros H. induction l as [|a rest IH]; [reflexivity|].
  cbn [flat_map List.length]. rewrite length_app, H, IH. lia.
Qed.

Lemma samples_along (side other : Z) :
  (20 <= side)%Z -> (side <= other)%Z ->
  let step := (side / 20)%Z in
  (20 <= (side + step - 1) / step <= 39)%Z
  /\ (20 <= (other + step - 1) / step)%Z.
Proof.
  intros Hside Hother step.
  assert (Hstep : (1 <= step)%Z).
  { unfold step. apply Z.div_le_lower_bound; lia. }
  pose proof (Z.mul_div_le side 20 ltac:(lia)) as Hlow.
  pose proof (Z.mul_succ_div_gt side 20 ltac:(lia)) as Hhigh.
  fold step in Hlow, Hhigh.
  repeat split.
  - apply Z.div_le_lower_bound; lia.
  - assert ((side + step - 1) / step < 40)%Z; [|lia].
    apply Z.div_lt_upper_bound; lia.
  - apply Z.div_le_lower_bound; lia.
Qed.

(** X27.  When a flow is computed, it is read inside the image only, on a grid of
    multiples of the step, and one vector is kept per position.  The number
    of vectors is the product of the numbers of sampled rows and columns; for
    an image of at least 20 by 20 pixels the shorter side gives between 20
    and 39 samples and the longer side at least 20, so at least 400 vectors
    are kept: 720 for a 1920 by 1080 frame. *)
Theorem flow_sampling_grid :
  forall (flow : Z -> Z -> Q * Q) (h w : Z),
    (0 <= h)%Z -> (0 <= w)%Z ->
    let step := sampling_step h w in
    let rows := Z.to_nat ((h + step - 1) / step) in
    let columns := Z.to_nat ((w + step - 1) / step) in
    (forall y x, In (y, x) (sample_positions h w) ->
                 (0 <= y < h)%Z /\ (0 <= x < w)%Z
                 /\ (y mod step = 0)%Z /\ (x mod step = 0)%Z)
    /\ List.length (flow_vectors flow h w) = (rows * columns)%nat
    /\ ((20 <= h)%Z -> (20 <= w)%Z ->
        (400 <= List.length (flow_vectors flow h w))%nat
        /\ (20 <= Nat.min rows columns <= 39)%nat)
    /\ List.length (flow_vectors flow 1080 1920) = 720%nat.
Proof.
  intros flow h w Hh Hw step rows columns.
  assert (Hstep : (1 <= step)%Z) by (unfold step, sampling_step; lia).
  assert (Hlen : List.length (flow_vectors flow h w) = (rows * columns)%nat).
  { unfold flow_vectors, sample_positions. fold step.
    rewrite length_map.
    rewrite (flat_map_constant_length _ _ columns).
    - unfold py_range_step. now rewrite length_map, length_seq.
    - intros y. unfold py_range_step. now rewrite !length_map, length_seq. }
  split; [|split; [exact Hlen|split]].
  - intros y x Hin. unfold sample_positions in Hin. fold step in Hin.
    apply in_flat_map in Hin as [y' [Hy Hx]].
    apply in_map_iff in Hx as [x' [Heq Hx]]. injection Heq as -> ->.
    destruct (py_range_step_spec h step Hh Hstep y Hy) as [Hy1 Hy2].
    destruct (py_range_step_spec w step Hw Hstep x Hx) as [Hx1 Hx2].
    auto.
  - intros H20h H20w. rewrite Hlen.
    assert (Hgrid : (20 <= rows)%nat /\ (20 <= columns)%nat
                    /\ (Nat.min rows columns <= 39)%nat).
    { unfold rows, columns.
      assert (Hs : step = (Z.min h w / 20)%Z).
      { unfold step, sampling_step.
        assert (1 <= Z.min h w / 20)%Z
          by (apply Z.div_le_lower_bound; lia).
        lia. }
      destruct (Z.le_ge_cases h w) as [Hle|Hle].
      - rewrite Z.min_l in Hs by lia.
        destruct (samples_along h w H20h Hle) as [[H1 H2] H3].
        rewrite <- Hs in H1, H2, H3. lia.
      - rewrite Z.min_r in Hs by lia.
        destruct (samples_along w h H20w Hle) as [[H1 H2] H3].
        rewrite <- Hs in H1, H2, H3. lia. }
    nia.
  - unfold flow_vectors. rewrite length_map. reflexivity.
Qed.

Lemma flow_sampling_grid_witness :
  List.length (flow_vectors (fun y x => (inject_Z x, inject_Z y)) 40 60)
  = (20 * 30)%nat.
Proof.
  exact (proj1 (proj2 (flow_sampling_grid
                         (fun y x => (inject_Z x, inject_Z y)) 40 60
                         ltac:(lia) ltac:(lia)))).
Defined.

End FlowSamplingFacts.
